(** * Multi-asset order splitter: splitting engine, order store, trading calendar

    A shallow embedding of
      - [services/order.service.js]      (OrderService: mode detection,
        portfolio validation, the splitting loop),
      - [utils/helpers.js]               (roundToDecimal),
      - [validators/order.validator.ts]  (createOrderSchema),
      - [repositories/order.repository.js] (OrderRepository),
      - [services/market.service.js]     (MarketService),
      - [repositories/config.repository.js], [utils/errors.ts],
        [middleware/validation.middleware.js],
        [middleware/error.middleware.ts], [controllers/order.controller.js]
        (the path of POST /orders),
    the properties of the specification that concern them, and further
    properties read off the code.

    Numbers.  A JavaScript number is an IEEE-754 binary64.  The engine is
    written once, over the handful of operations it applies to numbers
    ([JsNumber]), and read at two instances: [float] (binary64, what the
    program computes) and [Q] (exact rationals, the arithmetic in which
    the laws of the specification are phrased).  What holds of the code as
    written (the shape of the splitting loop, mode detection, the store)
    is proved for any instance; laws of arithmetic are proved at [Q];
    concrete runs are evaluated at [float].

    Maps and sets.  A JavaScript [Map] and [Set] iterate in insertion
    order, which the sums over binary64 and the order of a page depend on;
    they are modelled by association lists and duplicate-free lists.

    Time.  An ISO timestamp is modelled by the instant it denotes, in
    milliseconds; a luxon [DateTime] by its local calendar fields. *)

From Stdlib Require Import ZArith QArith Qround Qabs Floats Lia Lqa.
From Stdlib Require Import Ascii String.
From Stdlib Require Import Sorting.Sorted Sorting.Permutation.
From stdpp Require Import base decidable option list strings pretty.

Set Warnings "-inexact-float".

(** ** Numbers *)

Class JsNumber (N : Type) := {
  num_of_Z   : Z -> N;            (* an integer literal *)
  num_add    : N -> N -> N;
  num_sub    : N -> N -> N;
  num_mul    : N -> N -> N;
  num_div    : N -> N -> N;
  Math_abs   : N -> N;
  Math_round : N -> N;            (* nearest integer, ties towards +oo *)
  num_ltb    : N -> N -> bool;    (* a < b *)
  num_leb    : N -> N -> bool;    (* a <= b *)
  num_eqb    : N -> N -> bool;    (* a === b on numbers *)
  num_is_nan : N -> bool;
  num_finite : N -> bool;
}.

Declare Scope js_scope.
Delimit Scope js_scope with js.
Infix "+" := num_add : js_scope.
Infix "-" := num_sub : js_scope.
Infix "*" := num_mul : js_scope.
Infix "/" := num_div : js_scope.
Notation "a <? b" := (num_ltb a b) : js_scope.
Notation "a <=? b" := (num_leb a b) : js_scope.
Notation "a >? b" := (num_ltb b a) : js_scope.
Notation "a >=? b" := (num_leb b a) : js_scope.
Notation "a === b" := (num_eqb a b) (at level 70) : js_scope.

(** Exact rationals. [Math.round x] is the floor of [x + 1/2]. *)
Definition Q_round (x : Q) : Q := inject_Z (Qfloor (x + (1 # 2))).
Definition Q_ltb (a b : Q) : bool := negb (Qle_bool b a).

#[export] Instance Q_JsNumber : JsNumber Q := {|
  num_of_Z := inject_Z;
  num_add := Qplus;
  num_sub := Qminus;
  num_mul := Qmult;
  num_div := Qdiv;
  Math_abs := Qabs;
  Math_round := Q_round;
  num_ltb := Q_ltb;
  num_leb := Qle_bool;
  num_eqb := Qeq_bool;
  num_is_nan := fun _ => false;
  num_finite := fun _ => true;
|}.

(** Binary64.  An integer of magnitude below 2^63 is converted through its
    magnitude; every integer the engine converts this way (literals, powers
    of ten up to 10^10, rounded products) is below 2^53 and hence exact. *)
Definition float_of_Z (z : Z) : float :=
  match z with
  | Z0 => PrimFloat.zero
  | Zpos p => SF2Prim (S754_finite false p 0)
  | Zneg p => SF2Prim (S754_finite true p 0)
  end.

(** [Math.round] on a binary64: NaN, the infinities and the zeros are
    returned as they are, an integral value as well; otherwise the value
    [(-1)^s * m * 2^e] with [e < 0] is rounded exactly, a tie going up. *)
Definition float_round (x : float) : float :=
  match Prim2SF x with
  | S754_finite s m e =>
      if (0 <=? e)%Z then x
      else
        let twice := ((if s then Z.neg m else Z.pos m) * 2 + 2 ^ (- e))%Z in
        match (twice / 2 ^ (- e + 1))%Z with
        | Z0 => if s then PrimFloat.neg_zero else PrimFloat.zero
        | n => float_of_Z n
        end
  | _ => x
  end.

#[export] Instance float_JsNumber : JsNumber float := {|
  num_of_Z := float_of_Z;
  num_add := PrimFloat.add;
  num_sub := PrimFloat.sub;
  num_mul := PrimFloat.mul;
  num_div := PrimFloat.div;
  Math_abs := PrimFloat.abs;
  Math_round := float_round;
  num_ltb := PrimFloat.ltb;
  num_leb := PrimFloat.leb;
  num_eqb := PrimFloat.eqb;
  num_is_nan := PrimFloat.is_nan;
  num_finite := PrimFloat.is_finite;
|}.

(** ** utils/helpers.js and config/constants.js *)

Section Helpers.
Context {N : Type} `{JsNumber N}.

(** Truthiness of a number, for [x || d]: 0, -0 and NaN are falsy. *)
Definition truthy (x : N) : bool :=
  negb (x === num_of_Z 0)%js && negb (num_is_nan x).

(** [x || d] on an optional number: [undefined] is falsy too. *)
Definition or_default (x : option N) (d : N) : N :=
  match x with
  | Some v => if truthy v then v else d
  | None => d
  end.

(** The literal [0.01]: the quotient 1/100, correctly rounded at binary64. *)
Definition lit_0_01 : N := (num_of_Z 1 / num_of_Z 100)%js.

(** [Math.pow(10, decimals)] for a non-negative integer [decimals]. *)
Definition Math_pow10 (decimals : Z) : N := num_of_Z (10 ^ decimals).

Definition roundToDecimal (value : N) (decimals : Z) : N :=
  let multiplier := Math_pow10 decimals in
  (Math_round (value * multiplier) / multiplier)%js.

(** ORDER_CONFIG *)
Definition DEFAULT_ASSET_PRICE : N := num_of_Z 100.
Definition DEFAULT_DECIMAL_PRECISION : Z := 3.
Definition MIN_DECIMAL_PRECISION : Z := 0.
Definition MAX_DECIMAL_PRECISION : Z := 10.
Definition MIN_ORDER_AMOUNT : N := lit_0_01.
Definition MAX_ORDER_AMOUNT : N := num_of_Z 100000000.
Definition MAX_ASSETS_PER_PORTFOLIO : nat := 200.
End Helpers.

(** ** models/order.model *)

Inductive OrderType := BUY | SELL.
Inductive AssetType := STOCK | ETF | CRYPTO | COMMODITY | BOND | MUTUAL_FUND.
Inductive Mode := allocation_mode | amount_mode.

Record PortfolioAsset (N : Type) := mkAsset {
  pa_symbol : string;
  pa_type : option AssetType;
  pa_allocation : option N;
  pa_amount : option N;
  pa_price : option N;
}.
Arguments mkAsset {N}.
Arguments pa_symbol {N}.
Arguments pa_type {N}.
Arguments pa_allocation {N}.
Arguments pa_amount {N}.
Arguments pa_price {N}.

Record AssetOrder (N : Type) := mkAssetOrder {
  ao_symbol : string;
  ao_type : option AssetType;
  ao_allocation : N;
  ao_price : N;
  ao_amount : N;
  ao_shares : N;
  ao_totalCost : N;
}.
Arguments mkAssetOrder {N}.
Arguments ao_symbol {N}.
Arguments ao_type {N}.
Arguments ao_allocation {N}.
Arguments ao_price {N}.
Arguments ao_amount {N}.
Arguments ao_shares {N}.
Arguments ao_totalCost {N}.

Record CreateOrderRequest (N : Type) := mkRequest {
  req_orderType : OrderType;
  req_amount : option N;
  req_assets : list (PortfolioAsset N);
}.
Arguments mkRequest {N}.
Arguments req_orderType {N}.
Arguments req_amount {N}.
Arguments req_assets {N}.

(** ** utils/errors: what the engine throws *)

Inductive ErrorDetails (N : Type) :=
  | NoDetails
  | ZeroSymbols (symbols : list string)
  | TotalAllocation (totalAllocation : N).
Arguments NoDetails {N}.
Arguments ZeroSymbols {N}.
Arguments TotalAllocation {N}.

Inductive PortfolioMessage :=
  | InvalidConfiguration      (* 'Invalid portfolio configuration' *)
  | ZeroAllocationAssets      (* 'Portfolio contains assets with zero allocation' *)
  | AllocationsMustSumTo100.  (* 'Portfolio allocations must sum to 100%. ...' *)

Inductive Thrown (N : Type) :=
  | InvalidPortfolioError (message : PortfolioMessage) (details : ErrorDetails N)
  | TypeError.                (* a property read on [undefined] *)
Arguments InvalidPortfolioError {N}.
Arguments TypeError {N}.

Inductive Result (N A : Type) :=
  | Return (a : A)
  | Throw (e : Thrown N).
Arguments Return {N A}.
Arguments Throw {N A}.

(** ** services/order.service.js *)

Record PreparedOrder (N : Type) := mkPrepared {
  po_mode : Mode;
  po_totalAmount : N;
  po_normalizedAssets : list (PortfolioAsset N);
}.
Arguments mkPrepared {N}.
Arguments po_mode {N}.
Arguments po_totalAmount {N}.
Arguments po_normalizedAssets {N}.

(** The one warning [calculateAssetOrders] may log. *)
Record RoundingWarning (N : Type) := mkWarning {
  w_requested : N;
  w_allocated : N;
  w_difference : N;
  w_assetCount : nat;
}.
Arguments mkWarning {N}.

Section OrderService.
Context {N : Type} `{JsNumber N}.
Local Open Scope js_scope.

(** [assets.reduce((sum, a) => sum + (f(a) || 0), 0)] *)
Definition sumOr0 (f : PortfolioAsset N -> option N)
    (assets : list (PortfolioAsset N)) : N :=
  fold_left (fun sum asset => sum + or_default (f asset) (num_of_Z 0))
            assets (num_of_Z 0).

Definition prepareOrderData (request : CreateOrderRequest N)
    : Result N (PreparedOrder N) :=
  match req_assets request with
  | [] => Throw TypeError
  | firstAsset :: _ =>
      match pa_allocation firstAsset, req_amount request with
      | Some _, Some amount =>
          Return (mkPrepared allocation_mode amount (req_assets request))
      | _, _ =>
          match pa_amount firstAsset with
          | Some _ =>
              let totalAmount := sumOr0 pa_amount (req_assets request) in
              let normalizedAssets :=
                map (fun asset =>
                       let allocation :=
                         (or_default (pa_amount asset) (num_of_Z 0) / totalAmount)
                         * num_of_Z 100 in
                       mkAsset (pa_symbol asset) (pa_type asset)
                               (Some (roundToDecimal allocation 2))
                               None (pa_price asset))
                    (req_assets request) in
              Return (mkPrepared amount_mode totalAmount normalizedAssets)
          | None =>
              Throw (InvalidPortfolioError InvalidConfiguration NoDetails)
          end
      end
  end.

(** [a.allocation === 0] *)
Definition isZeroAllocation (a : PortfolioAsset N) : bool :=
  match pa_allocation a with
  | Some x => x === num_of_Z 0
  | None => false
  end.

Definition validatePortfolio (assets : list (PortfolioAsset N))
    : Result N unit :=
  let zeroAllocations := filter (fun a => isZeroAllocation a = true) assets in
  if (0 <? length zeroAllocations)%nat then
    Throw (InvalidPortfolioError ZeroAllocationAssets
             (ZeroSymbols (map pa_symbol zeroAllocations)))
  else
    let totalAllocation := sumOr0 pa_allocation assets in
    let tolerance := lit_0_01 in
    if Math_abs (totalAllocation - num_of_Z 100) >? tolerance then
      Throw (InvalidPortfolioError AllocationsMustSumTo100
               (TotalAllocation totalAllocation))
    else Return ().

(** One turn of the loop of [calculateAssetOrders], at index [i]. *)
Definition assetOrderAt (len : nat) (totalAmount : N) (decimalPrecision : Z)
    (i : nat) (asset : PortfolioAsset N) (allocatedAmount : N) : AssetOrder N :=
  let isLast := Nat.eqb i (len - 1) in
  let price := or_default (pa_price asset) DEFAULT_ASSET_PRICE in
  let allocation := or_default (pa_allocation asset) (num_of_Z 0) in
  let amount :=
    if isLast then totalAmount - allocatedAmount
    else roundToDecimal ((allocation / num_of_Z 100) * totalAmount) 2 in
  let rawShares := amount / price in
  let shares := roundToDecimal rawShares decimalPrecision in
  let totalCost := roundToDecimal (shares * price) 2 in
  mkAssetOrder (pa_symbol asset) (pa_type asset) allocation price amount
               shares totalCost.

(** The loop: [rest] are the assets from index [i] on, [allocatedAmount]
    the running sum of the amounts pushed so far. *)
Fixpoint assetOrdersFrom (len : nat) (totalAmount : N) (decimalPrecision : Z)
    (i : nat) (rest : list (PortfolioAsset N)) (allocatedAmount : N)
    : list (AssetOrder N) :=
  match rest with
  | [] => []
  | asset :: rest' =>
      let order := assetOrderAt len totalAmount decimalPrecision i asset
                                allocatedAmount in
      order :: assetOrdersFrom len totalAmount decimalPrecision (S i) rest'
                 (allocatedAmount + ao_amount order)
  end.

(** [orders.reduce((sum, o) => sum + o.field, 0)] *)
Definition sumOrders (f : AssetOrder N -> N) (orders : list (AssetOrder N)) : N :=
  fold_left (fun sum order => sum + f order) orders (num_of_Z 0).

(** The orders, and the warning logged when the costs drift from the
    requested total by more than 0.01. *)
Definition calculateAssetOrders (assets : list (PortfolioAsset N))
    (totalAmount : N) (decimalPrecision : Z)
    : list (AssetOrder N) * option (RoundingWarning N) :=
  let orders :=
    assetOrdersFrom (length assets) totalAmount decimalPrecision 0 assets
                    (num_of_Z 0) in
  let totalCost := sumOrders ao_totalCost orders in
  let difference := Math_abs (totalAmount - totalCost) in
  (orders,
   if difference >? lit_0_01
   then Some (mkWarning totalAmount totalCost difference (length orders))
   else None).
End OrderService.

(** ** validators/order.validator.ts *)

(** [String.prototype.toUpperCase], [trim] and [length] on ASCII text.  A
    string is a sequence of bytes; on characters below 128 JavaScript's
    functions do what is written here (a-z go to A-Z; TAB, LF, VT, FF, CR and
    the space are trimmed; the length is the number of characters).  Beyond
    ASCII JavaScript does more ([toUpperCase] rewrites other letters, [trim]
    strips U+00A0 and its like): the properties that depend on the text of a
    symbol are stated for ASCII symbols ([isAscii]). *)
Definition isAscii (s : string) : bool :=
  forallb (fun c => (nat_of_ascii c <? 128)%nat) (list_ascii_of_string s).

Definition upperAscii (c : ascii) : ascii :=
  let n := nat_of_ascii c in
  if ((97 <=? n) && (n <=? 122))%nat then ascii_of_nat (n - 32) else c.

Fixpoint toUpperCase (s : string) : string :=
  match s with
  | EmptyString => EmptyString
  | String c s' => String (upperAscii c) (toUpperCase s')
  end.

Definition isWhiteSpace (c : ascii) : bool :=
  let n := nat_of_ascii c in
  (((9 <=? n) && (n <=? 13)) || (n =? 32))%nat.

Fixpoint trimStart (l : list ascii) : list ascii :=
  match l with
  | c :: l' => if isWhiteSpace c then trimStart l' else l
  | [] => []
  end.

Definition trim (s : string) : string :=
  string_of_list_ascii
    (rev (trimStart (rev (trimStart (list_ascii_of_string s))))).

Section Validator.
Context {N : Type} `{JsNumber N}.
Local Open Scope js_scope.

(** [z.number()]: NaN is not a number for Zod. *)
Definition z_number (x : N) : bool := negb (num_is_nan x).

Definition z_optional (check : N -> bool) (x : option N) : bool :=
  match x with
  | Some v => check v
  | None => true
  end.

Definition isSome {A} (x : option A) : bool :=
  match x with
  | Some _ => true
  | None => false
  end.

(** One asset: the field checks, the XOR refinement, and the symbol as
    rewritten by the schema.  [None] is a validation failure. *)
Definition portfolioAssetSchema (asset : PortfolioAsset N)
    : option (PortfolioAsset N) :=
  let symbolOk :=
    ((1 <=? String.length (pa_symbol asset))
     && (String.length (pa_symbol asset) <=? 10))%nat in
  let allocationOk :=
    z_optional (fun x => z_number x && (x >=? num_of_Z 0) && (x <=? num_of_Z 100))
               (pa_allocation asset) in
  let amountOk :=
    z_optional (fun x => z_number x && (x >? num_of_Z 0) && num_finite x)
               (pa_amount asset) in
  let priceOk :=
    z_optional (fun x => z_number x && (x >? num_of_Z 0) && num_finite x)
               (pa_price asset) in
  let hasAllocation := isSome (pa_allocation asset) in
  let hasAmount := isSome (pa_amount asset) in
  if symbolOk && allocationOk && amountOk && priceOk
     && xorb hasAllocation hasAmount
  then Some (mkAsset (trim (toUpperCase (pa_symbol asset))) (pa_type asset)
                     (pa_allocation asset) (pa_amount asset) (pa_price asset))
  else None.

Fixpoint parseAssets (assets : list (PortfolioAsset N))
    : option (list (PortfolioAsset N)) :=
  match assets with
  | [] => Some []
  | a :: rest =>
      match portfolioAssetSchema a, parseAssets rest with
      | Some a', Some rest' => Some (a' :: rest')
      | _, _ => None
      end
  end.

(** The three refinements of [portfolioSchema.assets]. *)
Definition noDuplicateSymbols (assets : list (PortfolioAsset N)) : bool :=
  bool_decide (NoDup (map pa_symbol assets)).

Definition sameMode (assets : list (PortfolioAsset N)) : bool :=
  let hasAllocation := existsb (fun a => isSome (pa_allocation a)) assets in
  let hasAmount := existsb (fun a => isSome (pa_amount a)) assets in
  negb (hasAllocation && hasAmount).

(** The third refinement reads [assets[0].allocation]: on the empty array
    that is a property read on [undefined], a TypeError. *)
Definition allocationsSum (assets : list (PortfolioAsset N)) : Result N bool :=
  match assets with
  | firstAsset :: _ =>
      match pa_allocation firstAsset with
      | Some _ =>
          let sum := sumOr0 pa_allocation assets in
          Return (Math_abs (sum - num_of_Z 100) <? lit_0_01)
      | None => Return true
      end
  | [] => Throw TypeError
  end.

(** [portfolioSchema.parse]: [Return (Some parsed)] is the parsed value,
    [Return None] a ZodError, [Throw] what a refinement threw.  In Zod 3
    (the API the validator is written against) a failed [min(1)] or
    [max(200)] records an issue and leaves the array to the refinements,
    which run all the same: with no asset the third one throws.  With an asset that failed, the array is not empty and no
    refinement throws, whether Zod runs them or not. *)
Definition portfolioSchema (assets : list (PortfolioAsset N))
    : Result N (option (list (PortfolioAsset N))) :=
  match parseAssets assets with
  | Some parsed =>
      let sizeOk :=
        ((1 <=? length parsed) && (length parsed <=? MAX_ASSETS_PER_PORTFOLIO))%nat in
      match allocationsSum parsed with
      | Return sumOk =>
          Return (if sizeOk && noDuplicateSymbols parsed && sameMode parsed && sumOk
                  then Some parsed
                  else None)
      | Throw e => Throw e
      end
  | None => Return None
  end.

(** The refinement of [createOrderSchema] that ties the total to the mode;
    it reads [data.portfolio.assets[0].allocation]. *)
Definition amountMatchesMode (amount : option N)
    (assets : list (PortfolioAsset N)) : Result N bool :=
  match assets with
  | firstAsset :: _ =>
      Return (if isSome (pa_allocation firstAsset) then isSome amount
              else if isSome (pa_amount firstAsset) then negb (isSome amount)
              else false)
  | [] => Throw TypeError
  end.

(** [createOrderSchema.parse(body)]: [Return (Some request)] is the request
    as the engine receives it, [Return None] a ZodError, [Throw] the
    TypeError of a refinement, which [parse] lets through. *)
Definition createOrderSchema_parse (request : CreateOrderRequest N)
    : Result N (option (CreateOrderRequest N)) :=
  let amountOk :=
    z_optional (fun x => z_number x && (x >=? MIN_ORDER_AMOUNT)
                         && (x <=? MAX_ORDER_AMOUNT) && num_finite x)
               (req_amount request) in
  match portfolioSchema (req_assets request) with
  | Return (Some parsed) =>
      match amountMatchesMode (req_amount request) parsed with
      | Return modeOk =>
          Return (if amountOk && modeOk
                  then Some (mkRequest (req_orderType request) (req_amount request)
                                       parsed)
                  else None)
      | Throw e => Throw e
      end
  | Return None => Return None
  | Throw e => Throw e
  end.

(** The request the engine receives, when [parse] returns one. *)
Definition createOrderSchema (request : CreateOrderRequest N)
    : option (CreateOrderRequest N) :=
  match createOrderSchema_parse request with
  | Return accepted => accepted
  | Throw _ => None
  end.
End Validator.

(** ** services/market.service.js *)

Section MarketService.
Local Open Scope Z_scope.

(** A luxon [DateTime] in the market's zone, by its local calendar fields. *)
Record DateTime := mkDateTime {
  year : Z;
  month : Z;
  day : Z;
  hour : Z;
  minute : Z;
  second : Z;
  millisecond : Z;
}.

(** Days from 1970-01-01 to a civil date, and back (proleptic Gregorian). *)
Definition daysFromCivil (y m d : Z) : Z :=
  let y' := if m <=? 2 then y - 1 else y in
  let era := y' / 400 in
  let yoe := y' - era * 400 in
  let doy := (153 * (if 2 <? m then m - 3 else m + 9) + 2) / 5 + d - 1 in
  let doe := yoe * 365 + yoe / 4 - yoe / 100 + doy in
  era * 146097 + doe - 719468.

Definition civilFromDays (z : Z) : Z * Z * Z :=
  let z' := z + 719468 in
  let era := z' / 146097 in
  let doe := z' - era * 146097 in
  let yoe := (doe - doe / 1460 + doe / 36524 - doe / 146096) / 365 in
  let doy := doe - (365 * yoe + yoe / 4 - yoe / 100) in
  let mp := (5 * doy + 2) / 153 in
  let d := doy - (153 * mp + 2) / 5 + 1 in
  let m := if mp <? 10 then mp + 3 else mp - 9 in
  ((if m <=? 2 then yoe + era * 400 + 1 else yoe + era * 400), m, d).

Definition dayNumber (t : DateTime) : Z := daysFromCivil (year t) (month t) (day t).

(** [date.weekday]: 1 is Monday, 7 is Sunday (1970-01-01 was a Thursday). *)
Definition weekday (t : DateTime) : Z := (dayNumber t + 3) mod 7 + 1.

(** [date.toISODate()], as the triple it prints. *)
Definition toISODate (t : DateTime) : Z * Z * Z := (year t, month t, day t).

Definition msOfDay (t : DateTime) : Z :=
  hour t * 3600000 + minute t * 60000 + second t * 1000 + millisecond t.

(** [date.valueOf()] up to the zone offset, which is the same for the
    instants the service compares (same local day, between open and close). *)
Definition valueOf (t : DateTime) : Z := dayNumber t * 86400000 + msOfDay t.

(** [date.set({hour, minute, second: 0, millisecond: 0})] *)
Definition setTime (t : DateTime) (h mi : Z) : DateTime :=
  mkDateTime (year t) (month t) (day t) h mi 0 0.

(** [date.plus({days: 1})]: the next calendar day, same local time. *)
Definition plusDay (t : DateTime) : DateTime :=
  let '(y, m, d) := civilFromDays (dayNumber t + 1) in
  mkDateTime y m d (hour t) (minute t) (second t) (millisecond t).

(** MARKET_CONFIG *)
Definition MARKET_OPEN_HOUR : Z := 9.
Definition MARKET_OPEN_MINUTE : Z := 30.
Definition MARKET_CLOSE_HOUR : Z := 16.
Definition MARKET_CLOSE_MINUTE : Z := 0.
Definition TRADING_DAYS : list Z := [1; 2; 3; 4; 5].

Definition MARKET_HOLIDAYS_2025 : list (Z * Z * Z) :=
  [ (2025, 1, 1); (2025, 1, 20); (2025, 2, 17); (2025, 4, 18); (2025, 5, 26);
    (2025, 6, 19); (2025, 7, 4); (2025, 9, 1); (2025, 11, 27); (2025, 12, 25) ].

Definition isoDate_eqb (a b : Z * Z * Z) : bool :=
  let '(y1, m1, d1) := a in
  let '(y2, m2, d2) := b in
  (y1 =? y2) && (m1 =? m2) && (d1 =? d2).

Definition isTradingDay (date : DateTime) : bool :=
  existsb (Z.eqb (weekday date)) TRADING_DAYS.

Definition isHoliday (date : DateTime) : bool :=
  existsb (isoDate_eqb (toISODate date)) MARKET_HOLIDAYS_2025.

Definition isWithinTradingHours (date : DateTime) : bool :=
  let marketOpen := setTime date MARKET_OPEN_HOUR MARKET_OPEN_MINUTE in
  let marketClose := setTime date MARKET_CLOSE_HOUR MARKET_CLOSE_MINUTE in
  (valueOf marketOpen <=? valueOf date) && (valueOf date <? valueOf marketClose).

Definition isMarketOpen (timestamp : DateTime) : bool :=
  let now := timestamp in
  if negb (isTradingDay now) then false
  else if isHoliday now then false
  else if negb (isWithinTradingHours now) then false
  else true.

Definition getNextMarketOpen (current : DateTime) : DateTime :=
  let todayOpen := setTime current MARKET_OPEN_HOUR MARKET_OPEN_MINUTE in
  if (valueOf current <? valueOf todayOpen) && isTradingDay current
     && negb (isHoliday current)
  then todayOpen
  else setTime (plusDay current) MARKET_OPEN_HOUR MARKET_OPEN_MINUTE.

(** [while (next.weekday !== 1) next = next.plus({days: 1})]: a Monday is at
    most six days ahead, seven turns are enough. *)
Fixpoint scanToMonday (turns : nat) (next : DateTime) : DateTime :=
  match turns with
  | O => next
  | S turns' => if weekday next =? 1 then next else scanToMonday turns' (plusDay next)
  end.

Definition getNextMonday (current : DateTime) : DateTime :=
  setTime (scanToMonday 7 current) MARKET_OPEN_HOUR MARKET_OPEN_MINUTE.

(** The bounded forward scan: [left] is [maxAttempts - attempts]. *)
Fixpoint scanTradingDay (left : nat) (current : DateTime) : DateTime :=
  match left with
  | O => getNextMonday current
  | S left' =>
      if isTradingDay current && negb (isHoliday current) then current
      else scanTradingDay left'
             (setTime (plusDay current) MARKET_OPEN_HOUR MARKET_OPEN_MINUTE)
  end.

Definition maxAttempts : nat := 30.

Definition getNextTradingTime (timestamp : DateTime) : DateTime :=
  let current := timestamp in
  if isMarketOpen current then current
  else scanTradingDay maxAttempts (getNextMarketOpen current).
End MarketService.

(** ** repositories/order.repository.js *)

Record Order (N : Type) := mkOrder {
  orderId : string;
  orderType : OrderType;
  totalAmount : N;
  portfolio : list (PortfolioAsset N);
  assetOrders : list (AssetOrder N);
  executionTime : DateTime;
  canExecuteNow : bool;
  nextAvailableTime : option DateTime;
  createdAt : Z;                 (* the instant the ISO string denotes, in ms *)
  decimalPrecision : Z;
  metadata_mode : Mode;
}.
Arguments mkOrder {N}.
Arguments orderId {N}.
Arguments orderType {N}.
Arguments totalAmount {N}.
Arguments portfolio {N}.
Arguments assetOrders {N}.
Arguments executionTime {N}.
Arguments canExecuteNow {N}.
Arguments nextAvailableTime {N}.
Arguments createdAt {N}.
Arguments decimalPrecision {N}.
Arguments metadata_mode {N}.

#[export] Instance OrderType_eq_dec : EqDecision OrderType.
Proof. solve_decision. Defined.
#[export] Instance AssetType_eq_dec : EqDecision AssetType.
Proof. solve_decision. Defined.

(** A JavaScript [Map]: keys in insertion order, [set] on a present key
    replaces the value where it is.  Plain objects filled by assignment
    ([obj[k] = v]) behave the same for the keys used here. *)
Section JsMap.
Context {K V : Type} `{EqDecision K}.

Fixpoint Map_get (m : list (K * V)) (k : K) : option V :=
  match m with
  | [] => None
  | (k', v) :: m' => if decide (k' = k) then Some v else Map_get m' k
  end.

Definition Map_has (m : list (K * V)) (k : K) : bool := isSome (Map_get m k).

Fixpoint Map_set (m : list (K * V)) (k : K) (v : V) : list (K * V) :=
  match m with
  | [] => [(k, v)]
  | (k', v') :: m' =>
      if decide (k' = k) then (k, v) :: m' else (k', v') :: Map_set m' k v
  end.

Definition Map_size (m : list (K * V)) : nat := length m.
End JsMap.

(** A JavaScript [Set] of strings: members in insertion order. *)
Definition Set_has (s : list string) (x : string) : bool := bool_decide (x ∈ s).
Definition Set_add (s : list string) (x : string) : list string :=
  if Set_has s x then s else s ++ [x].

(** [Array.prototype.sort(cmp)]: the sort is stable, so for a comparator
    that orders its arguments consistently the result is the one of a
    stable insertion sort. *)
Fixpoint insertBy {A} (cmp : A -> A -> Z) (x : A) (l : list A) : list A :=
  match l with
  | [] => [x]
  | y :: l' => if (cmp x y <=? 0)%Z then x :: l else y :: insertBy cmp x l'
  end.

Definition Array_sort {A} (cmp : A -> A -> Z) (l : list A) : list A :=
  fold_right (insertBy cmp) [] l.

Record OrderStatistics (N : Type) := mkStats {
  totalOrders : nat;
  ordersByType_count : list (OrderType * nat);
  ordersByAssetType_count : list (AssetType * nat);
  uniqueSymbols : nat;
  totalVolume : N;
  averageOrderSize : N;
}.
Arguments mkStats {N}.
Arguments totalOrders {N}.
Arguments ordersByType_count {N}.
Arguments ordersByAssetType_count {N}.
Arguments uniqueSymbols {N}.
Arguments totalVolume {N}.
Arguments averageOrderSize {N}.

Record StatsCache (N : Type) := mkCache {
  cache_data : OrderStatistics N;
  cache_timestamp : Z;
  cache_ttl : Z;
}.
Arguments mkCache {N}.
Arguments cache_data {N}.
Arguments cache_timestamp {N}.
Arguments cache_ttl {N}.

Record OrderRepository (N : Type) := mkRepo {
  orders : list (string * Order N);
  ordersByType : list (OrderType * list string);
  ordersBySymbol : list (string * list string);
  ordersByAssetType : list (AssetType * list string);
  ordersByDate : list string;
  statsCache : option (StatsCache N);
}.
Arguments mkRepo {N}.
Arguments orders {N}.
Arguments ordersByType {N}.
Arguments ordersBySymbol {N}.
Arguments ordersByAssetType {N}.
Arguments ordersByDate {N}.
Arguments statsCache {N}.

Record OrderQueryParams := mkParams {
  q_orderType : option OrderType;
  q_symbol : option string;
  q_assetType : option AssetType;
  q_fromDate : option Z;         (* a validated ISO datetime, as its instant *)
  q_toDate : option Z;
  q_limit : option nat;
  q_offset : option nat;
}.

Record PaginatedOrders (N : Type) := mkPage {
  page_orders : list (Order N);
  page_total : nat;
  page_limit : nat;
  page_offset : nat;
  page_hasMore : bool;
}.
Arguments mkPage {N}.
Arguments page_orders {N}.
Arguments page_total {N}.
Arguments page_limit {N}.
Arguments page_offset {N}.
Arguments page_hasMore {N}.

(** [if (!index.has(key)) index.set(key, new Set()); index.get(key).add(id)] *)
Definition indexAdd {K} `{EqDecision K} (index : list (K * list string))
    (key : K) (id : string) : list (K * list string) :=
  let index' := if Map_has index key then index else Map_set index key [] in
  match Map_get index' key with
  | Some ids => Map_set index' key (Set_add ids id)
  | None => index'
  end.

(** Truthiness of an optional string / an optional natural number. *)
Definition truthyString (x : option string) : option string :=
  match x with
  | Some EmptyString => None
  | other => other
  end.

Definition natOr (x : option nat) (d : nat) : nat :=
  match x with
  | Some O => d
  | Some n => n
  | None => d
  end.

Section Repository.
Context {N : Type} `{JsNumber N}.

Definition newRepository : OrderRepository N := mkRepo [] [] [] [] [] None.

(** The body of [order.assetOrders.forEach] in [save]. *)
Definition indexAsset (id : string)
    (indexes : list (string * list string) * list (AssetType * list string))
    (asset : AssetOrder N)
    : list (string * list string) * list (AssetType * list string) :=
  (indexAdd (fst indexes) (ao_symbol asset) id,
   match ao_type asset with
   | Some type => indexAdd (snd indexes) type id
   | None => snd indexes
   end).

Definition save (repo : OrderRepository N) (order : Order N)
    : OrderRepository N * Order N :=
  let orders1 := Map_set (orders repo) (orderId order) order in
  let byType1 := indexAdd (ordersByType repo) (orderType order) (orderId order) in
  let indexes1 :=
    fold_left (indexAsset (orderId order)) (assetOrders order)
              (ordersBySymbol repo, ordersByAssetType repo) in
  (mkRepo orders1 byType1 (fst indexes1) (snd indexes1)
          (ordersByDate repo ++ [orderId order]) None,
   order).

Definition findById (repo : OrderRepository N) (id : string) : option (Order N) :=
  Map_get (orders repo) id.

Definition emptyResult (params : OrderQueryParams) : PaginatedOrders N :=
  mkPage [] 0 (natOr (q_limit params) 50) (natOr (q_offset params) 0) false.

Definition intersectSets (sets : list (list string)) : list string :=
  match sets with
  | [] => []
  | [only] => only
  | _ =>
      let sorted :=
        Array_sort (fun a b => Z.of_nat (length a) - Z.of_nat (length b))%Z sets in
      match sorted with
      | [] => []
      | smallest :: others =>
          fold_left (fun result s => filter (fun id => Set_has s id = true) result)
                    others smallest
      end
  end.

(** The body of the callback of [filterByDateRange], for a stored order. *)
Definition withinDateRange (fromDate toDate : option Z) (order : Order N) : bool :=
  let orderDate := createdAt order in
  if match fromDate with Some from => (orderDate <? from)%Z | None => false end
  then false
  else if match toDate with Some to => (to <? orderDate)%Z | None => false end
  then false
  else true.

Definition filterByDateRange (repo : OrderRepository N) (orderIds : list string)
    (fromDate toDate : option Z) : list string :=
  match fromDate, toDate with
  | None, None => orderIds
  | _, _ =>
      filter
        (fun id =>
           match Map_get (orders repo) id with
           | None => false
           | Some order => withinDateRange fromDate toDate order
           end = true)
        orderIds
  end.

(** The comparator of [sortByDate(ids, 'desc')]. *)
Definition compareDesc (repo : OrderRepository N) (a b : string) : Z :=
  match Map_get (orders repo) a, Map_get (orders repo) b with
  | Some orderA, Some orderB => (createdAt orderB - createdAt orderA)%Z
  | _, _ => 0%Z
  end.

Definition sortByDate (repo : OrderRepository N) (orderIds : list string)
    : list string :=
  Array_sort (compareDesc repo) orderIds.

Definition batchGetOrders (repo : OrderRepository N) (orderIds : list string)
    : list (Order N) :=
  omap (Map_get (orders repo)) orderIds.

(** [filters]: the id sets of the supplied categorical filters, in the order
    type, symbol, asset type; [None] when one of them is missing from its
    index (the early [emptyResult]). *)
Definition lookupFilter {K} `{EqDecision K} (index : list (K * list string))
    (key : option K) (filters : list (list string)) : option (list (list string)) :=
  match key with
  | None => Some filters
  | Some k =>
      match Map_get index k with
      | Some ids => Some (filters ++ [ids])
      | None => None
      end
  end.

Definition collectFilters (repo : OrderRepository N) (params : OrderQueryParams)
    : option (list (list string)) :=
  match lookupFilter (ordersByType repo) (q_orderType params) [] with
  | None => None
  | Some f1 =>
      match lookupFilter (ordersBySymbol repo) (truthyString (q_symbol params)) f1 with
      | None => None
      | Some f2 => lookupFilter (ordersByAssetType repo) (q_assetType params) f2
      end
  end.

Definition findAll (repo : OrderRepository N) (params : OrderQueryParams)
    : PaginatedOrders N :=
  match collectFilters repo params with
  | None => emptyResult params
  | Some filters =>
      let orderIds :=
        if (0 <? length filters)%nat then intersectSets filters
        else ordersByDate repo in
      let orderIds :=
        if isSome (q_fromDate params) || isSome (q_toDate params)
        then filterByDateRange repo orderIds (q_fromDate params) (q_toDate params)
        else orderIds in
      let orderIds := sortByDate repo orderIds in
      let limit := natOr (q_limit params) 50 in
      let offset := natOr (q_offset params) 0 in
      let total := length orderIds in
      let paginatedIds := take limit (drop offset orderIds) in
      mkPage (batchGetOrders repo paginatedIds) total limit offset
             (offset + limit <? total)%nat
  end.

Definition count (repo : OrderRepository N) : nat := Map_size (orders repo).

(** [index.forEach((ids, key) => { obj[key] = ids.size })] *)
Definition sizesOf {K} `{EqDecision K} (index : list (K * list string))
    : list (K * nat) :=
  fold_left (fun obj '(key, ids) => Map_set obj key (length ids)) index [].

(** The full pass of [getStats]. *)
Definition computeStats (repo : OrderRepository N) : OrderStatistics N :=
  let totalVolume :=
    fold_left (fun total '(_, order) => (total + totalAmount order)%js)
              (orders repo) (num_of_Z 0) in
  let size := Map_size (orders repo) in
  mkStats size (sizesOf (ordersByType repo)) (sizesOf (ordersByAssetType repo))
          (Map_size (ordersBySymbol repo)) totalVolume
          (if (0 <? size)%nat then (totalVolume / num_of_Z (Z.of_nat size))%js
           else num_of_Z 0).

Definition STATS_TTL : Z := 60000.

Definition getStats (repo : OrderRepository N) (now : Z)
    : OrderRepository N * OrderStatistics N :=
  let recompute :=
    let stats := computeStats repo in
    (mkRepo (orders repo) (ordersByType repo) (ordersBySymbol repo)
            (ordersByAssetType repo) (ordersByDate repo)
            (Some (mkCache stats now STATS_TTL)),
     stats) in
  match statsCache repo with
  | Some cache =>
      if (now - cache_timestamp cache <? cache_ttl cache)%Z
      then (repo, cache_data cache)
      else recompute
  | None => recompute
  end.

Definition clear (_ : OrderRepository N) : OrderRepository N := newRepository.

(** The operations of the store, as transitions.  An order is saved under
    an id the primary map does not hold (ids are fresh UUIDs). *)
Inductive step : OrderRepository N -> OrderRepository N -> Prop :=
  | step_save repo order :
      Map_get (orders repo) (orderId order) = None ->
      step repo (fst (save repo order))
  | step_findAll repo (params : OrderQueryParams) :
      step repo repo
  | step_getStats repo now :
      step repo (fst (getStats repo now))
  | step_clear repo :
      step repo (clear repo).

Inductive reachable : OrderRepository N -> Prop :=
  | reachable_new : reachable newRepository
  | reachable_step repo repo' :
      reachable repo -> step repo repo' -> reachable repo'.
End Repository.

(** ** services/market.service.js: the status of the market *)

(** getMarketStatus, with the clock read once and handed in. *)
Record MarketStatus := mkMarketStatus {
  status_isOpen : bool;
  status_currentTime : DateTime;
  status_nextOpenTime : option DateTime;
  status_timezone : string;
}.

Definition TIMEZONE : string := "America/New_York".

Definition getMarketStatus (now : DateTime) : MarketStatus :=
  let isOpen := isMarketOpen now in
  mkMarketStatus isOpen now
    (if isOpen then None else Some (getNextTradingTime now)) TIMEZONE.

(** ** repositories/config.repository.js *)

Record ConfigRepository := mkConfig {
  cfg_decimalPrecision : Z;
  cfg_lastUpdated : Z;           (* the instant of the last update, in ms *)
}.

(** The constructor, [setDecimalPrecision] and [reset], with the clock
    handed in. *)
Definition newConfigRepository (now : Z) : ConfigRepository :=
  mkConfig DEFAULT_DECIMAL_PRECISION now.

Definition getDecimalPrecision (config : ConfigRepository) : Z :=
  cfg_decimalPrecision config.

Definition getDecimalPrecisionConfig (config : ConfigRepository) : Z * Z :=
  (cfg_decimalPrecision config, cfg_lastUpdated config).

Definition setDecimalPrecision (config : ConfigRepository) (precision now : Z)
    : ConfigRepository * (Z * Z) :=
  let config' := mkConfig precision now in
  (config', getDecimalPrecisionConfig config').

Definition resetConfig (_ : ConfigRepository) (now : Z) : ConfigRepository :=
  mkConfig DEFAULT_DECIMAL_PRECISION now.

(** ** services/order.service.js: creating an order *)

Section CreateOrder.
Context {N : Type} `{JsNumber N}.

(** [getAssetTypeCounts]: [counts[type] = (counts[type] || 0) + 1] for the
    assets that carry a type. *)
Definition getAssetTypeCounts (assets : list (PortfolioAsset N))
    : list (AssetType * nat) :=
  fold_left
    (fun counts asset =>
       match pa_type asset with
       | Some type => Map_set counts type (natOr (Map_get counts type) 0 + 1)%nat
       | None => counts
       end)
    assets [].

(** [createOrder]: the clock of the market ([marketTime]), the fresh id
    ([uuid]) and the wall clock ([now]) are handed in.  Of the metadata the
    stored order keeps the mode. *)
Definition createOrder (repo : OrderRepository N) (config : ConfigRepository)
    (marketTime : DateTime) (uuid : string) (now : Z)
    (request : CreateOrderRequest N)
    : Result N (OrderRepository N * Order N) :=
  let decimalPrecision := getDecimalPrecision config in
  match prepareOrderData request with
  | Throw e => Throw e
  | Return prepared =>
      let mode := po_mode prepared in
      let totalAmount := po_totalAmount prepared in
      let normalizedAssets := po_normalizedAssets prepared in
      match validatePortfolio normalizedAssets with
      | Throw e => Throw e
      | Return _ =>
          let assetOrders :=
            fst (calculateAssetOrders normalizedAssets totalAmount decimalPrecision) in
          let canExecuteNow := isMarketOpen marketTime in
          let executionTime :=
            if canExecuteNow then marketTime else getNextTradingTime marketTime in
          let nextAvailableTime :=
            if canExecuteNow then None else Some (getNextTradingTime marketTime) in
          let order :=
            mkOrder uuid (req_orderType request) totalAmount normalizedAssets
                    assetOrders executionTime canExecuteNow nextAvailableTime
                    now decimalPrecision mode in
          Return (save repo order)
      end
  end.
End CreateOrder.

(** ** utils/errors.ts and the lookups that throw *)

Inductive AppErrorDetails :=
  | DetailsNone
  | DetailsOrderId (orderId : string).

Record AppError := mkAppError {
  err_message : string;
  err_statusCode : Z;
  err_code : string;
  err_isOperational : bool;
  err_details : AppErrorDetails;
}.

Definition OrderNotFoundError (orderId : string) : AppError :=
  mkAppError ("Order with ID " +:+ orderId +:+ " not found") 404 "ORDER_NOT_FOUND"
             true (DetailsOrderId orderId).

Definition findByIdOrThrow {N} (repo : OrderRepository N) (orderId : string)
    : AppError + Order N :=
  match findById repo orderId with
  | Some order => inr order
  | None => inl (OrderNotFoundError orderId)
  end.

(** [getOrderById] of the service. *)
Definition getOrderById {N} (repo : OrderRepository N) (orderId : string)
    : AppError + Order N :=
  findByIdOrThrow repo orderId.

(** ** middleware and controller of POST /orders *)

(** What reaches [errorMiddleware], as it tells errors apart: a ZodError,
    an AppError (by its status, code and operational flag), or any other
    Error. *)
Inductive Raised :=
  | RaisedZodError
  | RaisedAppError (statusCode : Z) (code : string) (isOperational : bool)
  | RaisedError.

(** The errors of the engine: InvalidPortfolioError is the AppError with
    status 422 and code INVALID_PORTFOLIO, a TypeError is a plain Error. *)
Definition raised {N} (e : Thrown N) : Raised :=
  match e with
  | InvalidPortfolioError _ _ => RaisedAppError 422 "INVALID_PORTFOLIO" true
  | TypeError => RaisedError
  end.

(** Of an answer: the status, the [success] flag and the error code. *)
Record Answer := mkAnswer {
  ans_status : Z;
  ans_success : bool;
  ans_code : option string;
}.

Definition errorMiddleware (err : Raised) : Answer :=
  match err with
  | RaisedZodError => mkAnswer 400 false (Some "VALIDATION_ERROR"%string)
  | RaisedAppError statusCode code _ => mkAnswer statusCode false (Some code)
  | RaisedError => mkAnswer 500 false (Some "INTERNAL_ERROR"%string)
  end.

(** [validateBody(createOrderSchema)], then the controller's [createOrder],
    with whatever is thrown handed to [errorMiddleware]: the ZodError of
    the schema, the TypeError of one of its refinements, or what the engine
    throws. *)
Definition postOrders {N} `{JsNumber N} (repo : OrderRepository N)
    (config : ConfigRepository) (marketTime : DateTime) (uuid : string) (now : Z)
    (body : CreateOrderRequest N)
    : OrderRepository N * Answer * option (Order N) :=
  match createOrderSchema_parse body with
  | Throw e => (repo, errorMiddleware (raised e), None)
  | Return None => (repo, errorMiddleware RaisedZodError, None)
  | Return (Some parsed) =>
      match createOrder repo config marketTime uuid now parsed with
      | Return (repo', order) => (repo', mkAnswer 201 true None, Some order)
      | Throw e => (repo, errorMiddleware (raised e), None)
      end
  end.

(** ** utils/helpers.js: allocations that add up to 100 *)

Section AllocationHelpers.
Context {N : Type} `{JsNumber N}.
Local Open Scope js_scope.

(** The literal [0.0001]. *)
Definition lit_0_0001 : N := num_of_Z 1 / num_of_Z 10000.

(** [allocations.reduce((acc, curr) => acc + curr, 0)] *)
Definition sumNumbers (allocations : list N) : N :=
  fold_left num_add allocations (num_of_Z 0).

Definition allocationsSumTo100 (allocations : list N) : bool :=
  let sum := sumNumbers allocations in
  let tolerance := lit_0_0001 in
  Math_abs (sum - num_of_Z 100) <? tolerance.

(** [Math.max] of a non-empty list without NaN, up to the sign of zero
    (which [indexOf] does not tell apart), and [Array.prototype.indexOf]. *)
Definition Math_max (first : N) (rest : list N) : N :=
  fold_left (fun m x => if m <? x then x else m) rest first.

Fixpoint indexOf (l : list N) (x : N) : option nat :=
  match l with
  | [] => None
  | y :: l' => if y === x then Some 0%nat else S <$> indexOf l' x
  end.

(** [normalizeAllocations].  With no element, or with a NaN among them,
    [Math.max] is -Infinity or NaN, [indexOf] answers -1, and the elements
    of the copy are left as they are. *)
Definition normalizeAllocations (allocations : list N) : list N :=
  let sum := sumNumbers allocations in
  if Math_abs (sum - num_of_Z 100) <? lit_0_0001 then allocations
  else
    let difference := num_of_Z 100 - sum in
    let maxIndex :=
      match allocations with
      | [] => None
      | first :: rest =>
          if existsb num_is_nan allocations then None
          else indexOf allocations (Math_max first rest)
      end in
    match maxIndex with
    | Some i => alter (fun x => x + difference) i allocations
    | None => allocations
    end.
End AllocationHelpers.

(** * Vocabulary of the properties *)

(** ** Requests and runs used as examples *)

Definition symbolSharesCost {N} (o : AssetOrder N) : string * N * N :=
  (ao_symbol o, ao_shares o, ao_totalCost o).

Definition allocationOf {N} `{JsNumber N} (symbol : string) (percent : Z)
    : PortfolioAsset N :=
  mkAsset symbol None (Some (num_of_Z percent)) None None.

Definition amountOf {N} `{JsNumber N} (symbol : string) (dollars : Z)
    : PortfolioAsset N :=
  mkAsset symbol None None (Some (num_of_Z dollars)) None.

(** The README request: BUY 10000 over AAPL 40, BTC 30 at 45000, GOLD 20 at
    2000, SPY 10. *)
Definition scenarioA {N} `{JsNumber N} : list (PortfolioAsset N) :=
  [ mkAsset "AAPL" (Some STOCK) (Some (num_of_Z 40)) None None;
    mkAsset "BTC" (Some CRYPTO) (Some (num_of_Z 30)) None (Some (num_of_Z 45000));
    mkAsset "GOLD" (Some COMMODITY) (Some (num_of_Z 20)) None (Some (num_of_Z 2000));
    mkAsset "SPY" (Some ETF) (Some (num_of_Z 10)) None None ].

(** ** Exact arithmetic *)

Section ExactVocabulary.
Local Open Scope Q_scope.

Fixpoint sumQ (l : list Q) : Q :=
  match l with
  | [] => 0
  | x :: l' => x + sumQ l'
  end.

Definition suppliedAllocation (a : PortfolioAsset Q) : Q :=
  match pa_allocation a with
  | Some x => x
  | None => 0
  end.

Definition hasZeroAllocation (a : PortfolioAsset Q) : Prop :=
  exists x, pa_allocation a = Some x /\ x == 0.

Definition suppliedAmount (a : PortfolioAsset Q) : Q :=
  match pa_amount a with
  | Some d => d
  | None => 0
  end.

(** The asset as [prepareOrderData] rewrites it in amount mode. *)
Definition normalizedAsset (T : Q) (asset : PortfolioAsset Q) : PortfolioAsset Q :=
  mkAsset (pa_symbol asset) (pa_type asset)
          (Some (roundToDecimal
                   ((or_default (pa_amount asset) (num_of_Z 0) / T) * num_of_Z 100)%js 2))
          None (pa_price asset).

(** What one line can be off by: half a cent from rounding the amount, and
    half a hundredth of a percent of the total from rounding the percentage. *)
Definition lineSlack (T : Q) : Q := (1 # 200) + T * (1 # 20000).

(** The rational a finite binary64 number is; 0 for the others. *)
Definition exactValue (x : float) : Q :=
  match Prim2SF x with
  | S754_finite s m e => inject_Z (if s then Z.neg m else Z.pos m) * 2 ^ e
  | _ => 0
  end.

End ExactVocabulary.

(** ** Membership in an index *)

(** [id] is a member of the id set the index holds for [key]. *)
Definition indexed {K} `{EqDecision K} (index : list (K * list string))
    (key : K) (id : string) : Prop :=
  exists ids, Map_get index key = Some ids /\ id ∈ ids.

(** Every id set of the index is duplicate-free, as a [Set] is. *)
Definition setsNoDup {K} `{EqDecision K} (index : list (K * list string)) : Prop :=
  forall key ids, Map_get index key = Some ids -> NoDup ids.

Definition passes {K} `{EqDecision K} (index : list (K * list string))
    (key : option K) (id : string) : Prop :=
  match key with
  | Some k => indexed index k id
  | None => True
  end.

(** ** Modes, lines and the consistency of the store *)

Section StoreVocabulary.
Context {N : Type} `{JsNumber N}.

Definition suppliesAllocation (a : PortfolioAsset N) : Prop :=
  isSome (pa_allocation a) = true.
Definition suppliesAmount (a : PortfolioAsset N) : Prop :=
  isSome (pa_amount a) = true.
Definition modeOf (r : Result N (PreparedOrder N)) : option Mode :=
  match r with
  | Return prepared => Some (po_mode prepared)
  | Throw _ => None
  end.

Definition hasSymbol (o : Order N) (symbol : string) : Prop :=
  exists line, line ∈ assetOrders o /\ ao_symbol line = symbol.

Definition hasAssetType (o : Order N) (type : AssetType) : Prop :=
  exists line, line ∈ assetOrders o /\ ao_type line = Some type.

(** The secondary indexes are derived views of the primary map, the
    ordered list enumerates its keys, and a cached snapshot is current. *)
Record Consistent (repo : OrderRepository N) : Prop := {
  keys_nodup : NoDup (map fst (orders repo));
  keyed_by_id : forall id o, Map_get (orders repo) id = Some o -> orderId o = id;
  byType_view : forall key id,
    indexed (ordersByType repo) key id
    <-> exists o, Map_get (orders repo) id = Some o /\ orderType o = key;
  bySymbol_view : forall key id,
    indexed (ordersBySymbol repo) key id
    <-> exists o, Map_get (orders repo) id = Some o /\ hasSymbol o key;
  byAssetType_view : forall key id,
    indexed (ordersByAssetType repo) key id
    <-> exists o, Map_get (orders repo) id = Some o /\ hasAssetType o key;
  byDate_keys : ordersByDate repo = map fst (orders repo);
  byType_sets : setsNoDup (ordersByType repo);
  bySymbol_sets : setsNoDup (ordersBySymbol repo);
  byAssetType_sets : setsNoDup (ordersByAssetType repo);
  cache_current : forall cache,
    statsCache repo = Some cache -> cache_data cache = computeStats repo;
}.

(** The order passes every filter the query supplies; the date range is
    inclusive at both ends. *)
Definition matchesQuery (params : OrderQueryParams) (o : Order N) : bool :=
  match q_orderType params with
  | Some side => bool_decide (orderType o = side)
  | None => true
  end
  && match q_symbol params with
     | Some symbol =>
         existsb (fun line => bool_decide (ao_symbol line = symbol)) (assetOrders o)
     | None => true
     end
  && match q_assetType params with
     | Some type =>
         existsb (fun line => bool_decide (ao_type line = Some type)) (assetOrders o)
     | None => true
     end
  && match q_fromDate params with
     | Some from => (from <=? createdAt o)%Z
     | None => true
     end
  && match q_toDate params with
     | Some to => (createdAt o <=? to)%Z
     | None => true
     end.

(** A supplied categorical filter names a key its index does not hold. *)
Definition filterAbsent (repo : OrderRepository N) (params : OrderQueryParams)
    : Prop :=
  (exists side, q_orderType params = Some side
                /\ Map_get (ordersByType repo) side = None)
  \/ (exists symbol, q_symbol params = Some symbol
                     /\ Map_get (ordersBySymbol repo) symbol = None)
  \/ (exists type, q_assetType params = Some type
                   /\ Map_get (ordersByAssetType repo) type = None).

Definition newestFirst (a b : Order N) : Prop := (createdAt b <= createdAt a)%Z.

End StoreVocabulary.

(** ** Sample stores *)

(** Sample stores: orders numbered from 0, sides alternating, created one
    millisecond apart, each carrying the lines of the README request. *)
Definition idOf (n : nat) : string := ("order-" +:+ pretty n)%string.

Definition sampleOrder (n : nat) : Order float :=
  mkOrder (idOf n) (if Nat.even n then BUY else SELL) (num_of_Z 10000) scenarioA
          (fst (calculateAssetOrders scenarioA (num_of_Z 10000) 3))
          (mkDateTime 2025 1 23 10 0 0 0) true None (Z.of_nat n) 3 allocation_mode.

Definition saveAll {N} `{JsNumber N} (repo : OrderRepository N)
    (toSave : list (Order N)) : OrderRepository N :=
  fold_left (fun r o => fst (save r o)) toSave repo.

Definition store150 : OrderRepository float :=
  saveAll newRepository (map sampleOrder (seq 0 150)).

Definition lastPageOf150 : OrderQueryParams :=
  mkParams None None None None None (Some 10) (Some 140).

Definition cryptoBuysOfBTC : OrderQueryParams :=
  mkParams (Some BUY) (Some "BTC"%string) (Some CRYPTO) None None None None.

(** ** Calendar vocabulary *)

(** The fields of [t] name a day of the Gregorian calendar, and a time of
    that day. *)
Definition validDate (t : DateTime) : Prop :=
  civilFromDays (dayNumber t) = toISODate t.

Definition validTime (t : DateTime) : Prop :=
  (0 <= hour t < 24 /\ 0 <= minute t < 60
   /\ 0 <= second t < 60 /\ 0 <= millisecond t < 1000)%Z.

(** [t] is not earlier than [u], as local date and time. *)
Definition notBefore (u t : DateTime) : Prop := (valueOf u <= valueOf t)%Z.

(** The listed holidays by day number, and the days on which the market
    does not open: Saturdays, Sundays and listed holidays. *)
Definition holidayNumbers : list Z :=
  map (fun '(y, m, d) => daysFromCivil y m d) MARKET_HOLIDAYS_2025.

Definition closedDay (n : Z) : Prop :=
  ((n + 3) mod 7 + 1 > 5)%Z \/ n ∈ holidayNumbers.

(** The test of the scanning loop of [getNextTradingTime]. *)
Definition goodDay (t : DateTime) : bool := isTradingDay t && negb (isHoliday t).

(** [current.plus({ days: 1 }).set({ hour: 9, minute: 30, ... })] *)
Definition nextDayOpen (t : DateTime) : DateTime :=
  setTime (plusDay t) MARKET_OPEN_HOUR MARKET_OPEN_MINUTE.

(** ** Vocabulary of the exact-arithmetic properties of the engine *)

(** What the cost of a line can be off its dollar amount by: half a unit of
    the last digit of the units, at the price of the line, and half a
    cent. *)
Definition costSlack (prec : Z) (o : AssetOrder Q) : Q :=
  (ao_price o / (2 * inject_Z (10 ^ prec)) + (1 # 200))%Q.

(** The dollar amount of the asset is less than 0.005 percent of [T]. *)
Definition belowHalfBasisPoint (T : Q) (a : PortfolioAsset Q) : bool :=
  negb (Qle_bool T (suppliedAmount a * 20000)).

(** ** Vocabulary of the properties of the store *)

(** The query [params] with its page replaced. *)
Definition withPage (params : OrderQueryParams) (limit offset : nat)
    : OrderQueryParams :=
  mkParams (q_orderType params) (q_symbol params) (q_assetType params)
           (q_fromDate params) (q_toDate params) (Some limit) (Some offset).

(** The creation instant of the order stored under [id], if any. *)
Definition createdAtOf {N} (repo : OrderRepository N) (id : string) : option Z :=
  match Map_get (orders repo) id with
  | Some order => Some (createdAt order)
  | None => None
  end.

(** The keys of an index are distinct and none of its id sets is empty. *)
Definition wellKeyed {K} `{EqDecision K} (index : list (K * list string)) : Prop :=
  NoDup (map fst index)
  /\ forall key ids, Map_get index key = Some ids -> ids <> [].

(** The stored orders, in insertion order. *)
Definition storedOrders {N} (repo : OrderRepository N) : list (Order N) :=
  map snd (orders repo).

(** The order is of the given side; it has a line of the given asset class. *)
Definition ofSide {N} (side : OrderType) (o : Order N) : bool :=
  bool_decide (orderType o = side).

Definition carriesClass {N} (type : AssetType) (o : Order N) : bool :=
  existsb (fun line => bool_decide (ao_type line = Some type)) (assetOrders o).

(** How many of the stored orders pass a test; an entry of the statistics
    for a count: none for 0. *)
Definition countStored {N} (repo : OrderRepository N) (test : Order N -> bool) : nat :=
  length (filter (fun o => test o = true) (storedOrders repo)).

Definition statsEntry (n : nat) : option nat :=
  if (0 <? n)%nat then Some n else None.

(** Two orders of 100 and 300 dollars, in exact arithmetic. *)
Definition plainOrder (n : nat) (dollars : Z) : Order Q :=
  mkOrder (idOf n) BUY (inject_Z dollars) [] []
          (mkDateTime 2025 1 23 10 0 0 0) true None (Z.of_nat n) 3 allocation_mode.

Definition store2 : OrderRepository Q :=
  saveAll newRepository [plainOrder 0 100; plainOrder 1 300].

(** The query without filters. *)
Definition everyOrder (limit offset : nat) : OrderQueryParams :=
  mkParams None None None None None (Some limit) (Some offset).

(** ** Vocabulary of the properties of the schema *)

(** The asset as [portfolioAssetSchema] returns it: the symbol in upper
    case and trimmed, the other fields as they came. *)
Definition normalisedSymbol {N} (a : PortfolioAsset N) : PortfolioAsset N :=
  mkAsset (trim (toUpperCase (pa_symbol a))) (pa_type a) (pa_allocation a)
          (pa_amount a) (pa_price a).

(** * Properties *)

(** ** The trading calendar *)

Section MarketProperties.
Local Open Scope Z_scope.

Lemma weekday_range (t : DateTime) : 1 <= weekday t <= 7.
Proof. unfold weekday. pose proof (Z.mod_pos_bound (dayNumber t + 3) 7). lia. Qed.

Lemma isTradingDay_weekend (t : DateTime) :
  isTradingDay t = false <-> weekday t = 6 \/ weekday t = 7.
Proof.
  pose proof (weekday_range t) as Hr.
  unfold isTradingDay, TRADING_DAYS. cbn [existsb].
  rewrite !orb_false_iff, !Z.eqb_neq. lia.
Qed.

Lemma isoDate_eqb_eq (a b : Z * Z * Z) : isoDate_eqb a b = true <-> a = b.
Proof.
  destruct a as [[y1 m1] d1], b as [[y2 m2] d2]. unfold isoDate_eqb.
  rewrite !andb_true_iff, !Z.eqb_eq. split.
  - intros [[-> ->] ->]. reflexivity.
  - intros [= -> -> ->]. auto.
Qed.

Lemma isHoliday_listed (t : DateTime) :
  isHoliday t = true <-> toISODate t ∈ MARKET_HOLIDAYS_2025.
Proof.
  unfold isHoliday. rewrite existsb_exists. split.
  - intros (d & Hin & Heq). apply isoDate_eqb_eq in Heq. subst d.
    by apply list_elem_of_In.
  - intros Hin. exists (toISODate t). split.
    + by apply list_elem_of_In.
    + by apply isoDate_eqb_eq.
Qed.

Lemma isWithinTradingHours_interval (t : DateTime) :
  isWithinTradingHours t = true
  <-> 9 * 3600000 + 30 * 60000 <= msOfDay t < 16 * 3600000.
Proof.
  unfold isWithinTradingHours, valueOf, setTime, msOfDay, dayNumber,
    MARKET_OPEN_HOUR, MARKET_OPEN_MINUTE, MARKET_CLOSE_HOUR, MARKET_CLOSE_MINUTE.
  cbn [year month day hour minute second millisecond].
  rewrite andb_true_iff, Z.leb_le, Z.ltb_lt. lia.
Qed.

(** C9. [isMarketOpen t] is false on a Saturday or Sunday, false when the
    local date of [t] is a listed holiday, false when the local time of [t]
    is outside [09:30, 16:00), and true in every remaining case. *)
Theorem isMarketOpen_characterised (t : DateTime) :
  ((weekday t = 6 \/ weekday t = 7) -> isMarketOpen t = false)
  /\ (toISODate t ∈ MARKET_HOLIDAYS_2025 -> isMarketOpen t = false)
  /\ (~ (9 * 3600000 + 30 * 60000 <= msOfDay t < 16 * 3600000)
      -> isMarketOpen t = false)
  /\ (~ (weekday t = 6 \/ weekday t = 7)
      -> toISODate t ∉ MARKET_HOLIDAYS_2025
      -> 9 * 3600000 + 30 * 60000 <= msOfDay t < 16 * 3600000
      -> isMarketOpen t = true).
Proof.
  pose proof (isTradingDay_weekend t) as Hday.
  pose proof (isHoliday_listed t) as Hhol.
  pose proof (isWithinTradingHours_interval t) as Hhrs.
  unfold isMarketOpen.
  destruct (isTradingDay t), (isHoliday t), (isWithinTradingHours t);
    cbn [negb]; repeat split; intros; try reflexivity; exfalso;
    try (intuition congruence).
Qed.

(** A Thursday morning inside trading hours, a Saturday, Independence Day,
    and an evening. *)
Lemma isMarketOpen_characterised_witness :
  isMarketOpen (mkDateTime 2025 1 23 10 0 0 0) = true
  /\ isMarketOpen (mkDateTime 2025 1 25 10 0 0 0) = false
  /\ isMarketOpen (mkDateTime 2025 7 4 10 0 0 0) = false
  /\ isMarketOpen (mkDateTime 2025 1 23 16 0 0 0) = false.
Proof.
  split; [|split; [|split]].
  - destruct (isMarketOpen_characterised (mkDateTime 2025 1 23 10 0 0 0))
      as (_ & _ & _ & Hopen).
    apply Hopen.
    + vm_compute. intros [H|H]; discriminate H.
    + intros Hin. apply isHoliday_listed in Hin. vm_compute in Hin. discriminate Hin.
    + vm_compute. split; [intros H; discriminate H | reflexivity].
  - destruct (isMarketOpen_characterised (mkDateTime 2025 1 25 10 0 0 0))
      as (Hweekend & _).
    apply Hweekend. left. reflexivity.
  - destruct (isMarketOpen_characterised (mkDateTime 2025 7 4 10 0 0 0))
      as (_ & Hholiday & _).
    apply Hholiday. apply isHoliday_listed. reflexivity.
  - destruct (isMarketOpen_characterised (mkDateTime 2025 1 23 16 0 0 0))
      as (_ & _ & Hhours & _).
    apply Hhours. vm_compute. intros [_ H]. discriminate H.
Defined.

(** C10. On an instant at which the market is open, [getNextTradingTime]
    returns that instant, unchanged. *)
Theorem getNextTradingTime_open (t : DateTime) :
  isMarketOpen t = true -> getNextTradingTime t = t.
Proof. intros Hopen. unfold getNextTradingTime. rewrite Hopen. reflexivity. Qed.

Lemma getNextTradingTime_open_witness :
  isMarketOpen (mkDateTime 2025 1 23 10 0 0 0) = true
  /\ getNextTradingTime (mkDateTime 2025 1 23 10 0 0 0)
     = mkDateTime 2025 1 23 10 0 0 0.
Proof.
  split; [reflexivity |].
  apply (getNextTradingTime_open (mkDateTime 2025 1 23 10 0 0 0)). reflexivity.
Defined.

(** Off hours the scan is what answers: the evening before Independence Day
    2025 (a Friday) leads to the following Monday's open. *)
Example getNextTradingTime_over_holiday :
  getNextTradingTime (mkDateTime 2025 7 3 17 0 0 0) = mkDateTime 2025 7 7 9 30 0 0.
Proof. reflexivity. Qed.
End MarketProperties.

(** ** The splitting engine: concrete runs *)

Section EngineRuns.
Local Open Scope float_scope.

(** The quotient 1/100 at binary64 is the double the literal 0.01 denotes. *)
Example lit_0_01_binary64 : lit_0_01 (N:=float) = 0.01.
Proof. reflexivity. Qed.

(** C4, as stated, fails: the per-line costs add up to 10015, fifteen
    dollars away from the requested 10000. *)
Lemma scenarioA_costs_exceed_tolerance :
  ~ (let orders := fst (calculateAssetOrders (N:=float) scenarioA 10000 3) in
     map symbolSharesCost orders
       = [("AAPL", 40, 4000); ("BTC", 0.067, 3015);
          ("GOLD", 1, 2000); ("SPY", 10, 1000)]
     /\ (Math_abs (10000 - sumOrders ao_totalCost orders) <=? lit_0_01)%js = true).
Proof. vm_compute. intros [_ H]. discriminate H. Qed.

(** C4, amended.  The run yields AAPL 40 units / 4000, BTC 0.067 units /
    3015, GOLD 1 unit / 2000, SPY 10 units / 1000; the dollar amounts add up
    to 10000, the costs to 10015, and the drift of 15 is logged as the
    rounding warning.  Exact arithmetic gives the same lines. *)
Theorem scenarioA_run :
  (let '(orders, warning) := calculateAssetOrders (N:=float) scenarioA 10000 3 in
   map symbolSharesCost orders
     = [("AAPL", 40, 4000); ("BTC", 0.067, 3015);
        ("GOLD", 1, 2000); ("SPY", 10, 1000)]
   /\ map ao_amount orders = [4000; 3000; 2000; 1000]
   /\ sumOrders ao_amount orders = 10000
   /\ sumOrders ao_totalCost orders = 10015
   /\ warning = Some (mkWarning 10000 10015 15 4%nat))
  /\ (let '(orders, warning) :=
        calculateAssetOrders (N:=Q) scenarioA (inject_Z 10000) 3 in
      map (fun o => (ao_symbol o, Qred (ao_shares o), Qred (ao_totalCost o))) orders
        = [("AAPL", 40 # 1, 4000 # 1); ("BTC", 67 # 1000, 3015 # 1);
           ("GOLD", 1 # 1, 2000 # 1); ("SPY", 10 # 1, 1000 # 1)]%Q
      /\ Qred (sumOrders ao_totalCost orders) = (10015 # 1)%Q
      /\ isSome warning = true).
Proof. vm_compute. repeat split; reflexivity. Qed.

(** C1, as stated, fails at binary64.  A valid request for 1990.72 split
    39 / 61: the first line is 776.38, the last one the rounded difference
    1214.3400000000001, and the two add up to 1990.7200000000003. *)
Lemma remainder_drifts_at_binary64 :
  let assets := [allocationOf "AAA" 39; allocationOf "BBB" 61] in
  let total := 1990.72 in
  let orders := fst (calculateAssetOrders (N:=float) assets total 3) in
  total = (num_of_Z 199072 / num_of_Z 100)%js
  /\ isSome (createOrderSchema (mkRequest BUY (Some total) assets)) = true
  /\ validatePortfolio assets = Return ()
  /\ map ao_amount orders = [776.38; 1214.3400000000001]
  /\ sumOrders ao_amount orders = 1990.7200000000003
  /\ (sumOrders ao_amount orders === total)%js = false.
Proof. vm_compute. repeat split; reflexivity. Qed.

(** C3, as stated, fails.  Two amounts 1000 and 2000: the derived
    percentages are 33.33 and 66.67, and the re-split gives 999.90 and
    2000.10, each ten cents away from what was supplied.  The request is
    valid and the derived portfolio passes validation. *)
Lemma amount_mode_resplit_off_by_ten_cents :
  let request := mkRequest BUY None [amountOf "AAA" 1000; amountOf "BBB" 2000] in
  isSome (createOrderSchema (N:=float) request) = true
  /\ match prepareOrderData (N:=float) request with
     | Return prepared =>
         po_mode prepared = amount_mode
         /\ po_totalAmount prepared = 3000
         /\ map pa_allocation (po_normalizedAssets prepared)
            = [Some 33.33; Some 66.67]
         /\ validatePortfolio (po_normalizedAssets prepared) = Return ()
         /\ let orders :=
              fst (calculateAssetOrders (po_normalizedAssets prepared)
                     (po_totalAmount prepared) 3) in
            map ao_amount orders = [999.9; 2000.1]
            /\ (Math_abs (999.9 - 1000) >? lit_0_01)%js = true
            /\ (Math_abs (2000.1 - 2000) >? lit_0_01)%js = true
     | Throw _ => False
     end
  /\ match prepareOrderData (N:=Q) (mkRequest BUY None
             [amountOf "AAA" 1000; amountOf "BBB" 2000]) with
     | Return prepared =>
         map (fun o => Qred (ao_amount o))
             (fst (calculateAssetOrders (po_normalizedAssets prepared)
                     (po_totalAmount prepared) 3))
         = [9999 # 10; 20001 # 10]%Q
     | Throw _ => False
     end.
Proof. vm_compute. repeat split; reflexivity. Qed.
End EngineRuns.

(** ** The splitting loop, in any arithmetic *)

Section EngineStructure.
Context {N : Type} `{JsNumber N}.

Lemma assetOrdersFrom_length (len : nat) (T : N) (prec : Z)
    (rest : list (PortfolioAsset N)) (i : nat) (acc : N) :
  length (assetOrdersFrom len T prec i rest acc) = length rest.
Proof.
  revert i acc. induction rest as [|a rest IH]; intros i acc; cbn; [done|].
  by rewrite IH.
Qed.

(** The line at position [j] is the loop body run on the [j]-th asset, with
    the running sum of the amounts before it as the allocated amount. *)
Lemma assetOrdersFrom_lookup (len : nat) (T : N) (prec : Z)
    (rest : list (PortfolioAsset N)) :
  forall (i : nat) (acc : N) (j : nat) (asset : PortfolioAsset N),
    rest !! j = Some asset ->
    assetOrdersFrom len T prec i rest acc !! j
    = Some (assetOrderAt len T prec (i + j) asset
              (fold_left (fun sum order => (sum + ao_amount order)%js)
                         (take j (assetOrdersFrom len T prec i rest acc)) acc)).
Proof.
  induction rest as [|a rest IH]; intros i acc j asset Hj; [done|].
  destruct j as [|j]; cbn in Hj.
  - injection Hj as <-. cbn. by rewrite Nat.add_0_r.
  - cbn [assetOrdersFrom take fold_left lookup list_lookup].
    rewrite <- Nat.add_succ_comm. by apply IH.
Qed.

(** The lines of [calculateAssetOrders]: one per asset; every line but the
    last carries round2(allocation/100 * total); the last one carries the
    total minus the running sum of the amounts before it. *)
Lemma calculateAssetOrders_lines (first : PortfolioAsset N)
    (others : list (PortfolioAsset N)) (total : N) (prec : Z) :
  let assets := first :: others in
  let orders := fst (calculateAssetOrders assets total prec) in
  length orders = length assets
  /\ (forall i asset, assets !! i = Some asset -> (i < length others)%nat ->
        exists o, orders !! i = Some o
          /\ ao_amount o
             = roundToDecimal
                 ((or_default (pa_allocation asset) (num_of_Z 0) / num_of_Z 100)
                  * total)%js 2)
  /\ (exists o, orders !! length others = Some o
        /\ ao_amount o
           = (total - sumOrders ao_amount (take (length others) orders))%js).
Proof.
  intros assets orders. subst orders. unfold calculateAssetOrders. cbn [fst].
  split; [apply assetOrdersFrom_length|]. split.
  - intros i asset Hi Hlt.
    eexists. split; [exact (assetOrdersFrom_lookup _ _ _ _ 0 _ i asset Hi)|].
    unfold assetOrderAt. cbn [ao_amount].
    destruct (Nat.eqb_spec (0 + i) (length assets - 1)) as [E|E]; [|reflexivity].
    subst assets. cbn [length] in E. lia.
  - assert (is_Some (assets !! length others)) as [asset Hasset].
    { apply lookup_lt_is_Some. subst assets. cbn [length]. lia. }
    eexists. split; [exact (assetOrdersFrom_lookup _ _ _ _ 0 _ _ asset Hasset)|].
    unfold assetOrderAt. cbn [ao_amount].
    destruct (Nat.eqb_spec (0 + length others) (length assets - 1)) as [E|E];
      [reflexivity|].
    subst assets. cbn [length] in E. lia.
Qed.

(** [validatePortfolio], case by case, on the program's own sum and test. *)
Lemma validatePortfolio_decision (assets : list (PortfolioAsset N)) :
  let zeroAllocations := filter (fun a => isZeroAllocation a = true) assets in
  let totalAllocation := sumOr0 pa_allocation assets in
  let tooFar := (Math_abs (totalAllocation - num_of_Z 100) >? lit_0_01)%js in
  (zeroAllocations <> [] ->
     validatePortfolio assets
     = Throw (InvalidPortfolioError ZeroAllocationAssets
                (ZeroSymbols (map pa_symbol zeroAllocations))))
  /\ (zeroAllocations = [] -> tooFar = true ->
        validatePortfolio assets
        = Throw (InvalidPortfolioError AllocationsMustSumTo100
                   (TotalAllocation totalAllocation)))
  /\ (zeroAllocations = [] -> tooFar = false -> validatePortfolio assets = Return ()).
Proof.
  intros zeroAllocations totalAllocation tooFar. unfold validatePortfolio.
  fold zeroAllocations. fold totalAllocation. fold tooFar.
  destruct zeroAllocations as [|a l]; cbn [length Nat.ltb Nat.leb];
    repeat split; try congruence; intros _ ->; reflexivity.
Qed.
End EngineStructure.

(** ** The splitting engine in exact arithmetic *)

Section ExactArithmetic.
Local Open Scope Q_scope.

Ltac case_isLast E :=
  match goal with
  | |- context [if Nat.eqb ?a ?b then _ else _] =>
      destruct (Nat.eqb_spec a b) as [E|E]
  end.

Ltac q_ops :=
  cbn [num_of_Z num_add num_sub num_mul num_div Math_abs Math_round
       num_ltb num_leb num_eqb num_is_nan num_finite Q_JsNumber] in *.

Lemma fold_left_Qplus_from {A} (f : A -> Q) (l : list A) (s : Q) :
  fold_left (fun sum x => (sum + f x)%js) l s == s + sumQ (map f l).
Proof.
  revert s. induction l as [|x l IH]; intros s; cbn [fold_left map sumQ].
  - ring.
  - rewrite IH. q_ops. ring.
Qed.

Lemma sumOrders_sumQ (f : AssetOrder Q -> Q) (orders : list (AssetOrder Q)) :
  sumOrders f orders == sumQ (map f orders).
Proof. unfold sumOrders. rewrite fold_left_Qplus_from. q_ops. ring. Qed.

Lemma sumOr0_sumQ (f : PortfolioAsset Q -> option Q) (assets : list (PortfolioAsset Q)) :
  sumOr0 f assets == sumQ (map (fun a => or_default (f a) 0) assets).
Proof.
  unfold sumOr0. rewrite (fold_left_Qplus_from (fun a => or_default (f a) 0)).
  q_ops. ring.
Qed.

(** [x || 0] is [x] up to the representation of zero. *)
Lemma or_default_0 (x : Q) : or_default (Some x) (num_of_Z 0) == x.
Proof.
  unfold or_default, truthy. q_ops. rewrite andb_true_r.
  destruct (Qeq_bool x (inject_Z 0)) eqn:E; cbn [negb]; [|reflexivity].
  apply Qeq_bool_eq in E. rewrite E. reflexivity.
Qed.

(** Rounding to cents moves a value by at most half a cent. *)
Lemma roundToDecimal_2_close (x : Q) : Qabs (roundToDecimal x 2 - x) <= 1 # 200.
Proof.
  unfold roundToDecimal, Math_pow10. q_ops. unfold Q_round.
  change (inject_Z (10 ^ 2)) with 100.
  pose proof (Qfloor_le (x * 100 + (1 # 2))) as Hlo.
  pose proof (Qlt_floor (x * 100 + (1 # 2))) as Hhi.
  rewrite inject_Z_plus in Hhi. change (inject_Z 1) with 1 in Hhi.
  set (F := inject_Z (Qfloor (x * 100 + (1 # 2)))) in *. clearbody F.
  apply Qabs_Qle_condition. split.
  - assert (F / 100 == F * (1 # 100)) as -> by (field). lra.
  - assert (F / 100 == F * (1 # 100)) as -> by (field). lra.
Qed.

(** Remainder absorption, for the loop started anywhere. *)
Lemma assetOrdersFrom_sum (len : nat) (T : Q) (prec : Z)
    (rest : list (PortfolioAsset Q)) :
  forall (i : nat) (acc : Q),
    rest <> [] -> (i + length rest = len)%nat ->
    sumQ (map ao_amount (assetOrdersFrom len T prec i rest acc)) == T - acc.
Proof.
  induction rest as [|a rest IH]; intros i acc Hne Hlen; [done|].
  cbn [assetOrdersFrom map sumQ].
  destruct rest as [|b rest].
  - cbn [assetOrdersFrom map sumQ].
    unfold assetOrderAt. cbn [ao_amount].
    case_isLast E; [| cbn in Hlen; lia].
    q_ops. ring.
  - rewrite IH; [| done | cbn in *; lia]. q_ops. ring.
Qed.

(** In exact arithmetic the amounts add up to the requested total. *)
Lemma amounts_sum_exact (first : PortfolioAsset Q)
    (others : list (PortfolioAsset Q)) (total : Q) (prec : Z) :
  sumOrders ao_amount (fst (calculateAssetOrders (first :: others) total prec))
  == total.
Proof.
  unfold calculateAssetOrders. cbn [fst]. rewrite sumOrders_sumQ.
  rewrite assetOrdersFrom_sum; [| done | reflexivity]. q_ops. ring.
Qed.

(** *** Validation *)

Lemma isZeroAllocation_iff (a : PortfolioAsset Q) :
  isZeroAllocation a = true <-> hasZeroAllocation a.
Proof.
  unfold isZeroAllocation, hasZeroAllocation.
  destruct (pa_allocation a) as [x|]; q_ops.
  - rewrite Qeq_bool_iff. split; [eauto|]. intros (y & [= <-] & Hy). exact Hy.
  - split; [discriminate|]. intros (y & Hy & _). discriminate Hy.
Qed.

Lemma sumQ_map_ext {A} (f g : A -> Q) (l : list A) :
  (forall a, f a == g a) -> sumQ (map f l) == sumQ (map g l).
Proof.
  intros Hfg. induction l as [|a l IH]; cbn [map sumQ]; [reflexivity|].
  rewrite IH, (Hfg a). reflexivity.
Qed.

Lemma or_default_allocation (a : PortfolioAsset Q) :
  or_default (pa_allocation a) (num_of_Z 0) == suppliedAllocation a.
Proof.
  unfold suppliedAllocation. destruct (pa_allocation a) as [x|].
  - apply or_default_0.
  - reflexivity.
Qed.

Lemma totalAllocation_sum (assets : list (PortfolioAsset Q)) :
  sumOr0 pa_allocation assets == sumQ (map suppliedAllocation assets).
Proof.
  rewrite sumOr0_sumQ. apply sumQ_map_ext. intros a.
  apply or_default_allocation.
Qed.

Lemma zeroAllocations_nonempty (assets : list (PortfolioAsset Q)) :
  (0 <? length (filter (fun a => isZeroAllocation a = true) assets))%nat = true
  <-> Exists hasZeroAllocation assets.
Proof.
  rewrite Nat.ltb_lt, Exists_exists. split.
  - intros Hlen.
    destruct (filter (fun a => isZeroAllocation a = true) assets) as [|a l] eqn:E;
      [cbn in Hlen; lia|].
    assert (a ∈ filter (fun a => isZeroAllocation a = true) assets) as Hin
      by (rewrite E; left).
    apply list_elem_of_filter in Hin as [Hz Hin].
    exists a. split; [exact Hin | by apply isZeroAllocation_iff].
  - intros (a & Hin & Hz).
    assert (a ∈ filter (fun a => isZeroAllocation a = true) assets) as Hf.
    { apply list_elem_of_filter. split; [by apply isZeroAllocation_iff | exact Hin]. }
    destruct (filter _ assets); [by apply elem_of_nil in Hf | cbn; lia].
Qed.

Lemma deviation_test (assets : list (PortfolioAsset Q)) :
  (Math_abs (sumOr0 pa_allocation assets - num_of_Z 100) >? lit_0_01)%js = true
  <-> 1 # 100 < Qabs (sumQ (map suppliedAllocation assets) - 100).
Proof.
  unfold lit_0_01. q_ops. unfold Q_ltb.
  rewrite negb_true_iff, <- not_true_iff_false, Qle_bool_iff.
  rewrite totalAllocation_sum.
  change (inject_Z 100) with 100.
  assert (inject_Z 1 / 100 == 1 # 100) as -> by reflexivity.
  split; [apply Qnot_le_lt | apply Qlt_not_le].
Qed.

(** C5, amended.  In exact arithmetic, validation fails with
    InvalidPortfolio, naming the symbols of the zero-allocation assets, when
    some asset has allocation 0; it fails with InvalidPortfolio when the
    allocations add up to more than 0.01 away from 100; it raises nothing
    when neither holds.  Allocations 60 and 30 fail, in exact arithmetic and
    at binary64.  In the arithmetic the program runs on, the three cases
    are told apart by the program's own [=== 0], running sum, [Math.abs]
    and [>] against the binary64 nearest 0.01: the sum and the difference
    are rounded, and it is on the rounded numbers that the test is made. *)
Theorem validatePortfolio_failures (assets : list (PortfolioAsset Q)) :
  let zeroAllocations := filter (fun a => isZeroAllocation a = true) assets in
  let deviation := Qabs (sumQ (map suppliedAllocation assets) - 100) in
  (Exists hasZeroAllocation assets ->
     validatePortfolio assets
       = Throw (InvalidPortfolioError ZeroAllocationAssets
                  (ZeroSymbols (map pa_symbol zeroAllocations)))
     /\ forall a, a ∈ assets -> hasZeroAllocation a ->
          pa_symbol a ∈ map pa_symbol zeroAllocations)
  /\ (1 # 100 < deviation ->
        exists message details,
          validatePortfolio assets = Throw (InvalidPortfolioError message details))
  /\ (~ Exists hasZeroAllocation assets -> ~ 1 # 100 < deviation ->
        validatePortfolio assets = Return ())
  /\ (exists details,
        validatePortfolio (N:=Q) [allocationOf "AAPL" 60; allocationOf "TSLA" 30]
          = Throw (InvalidPortfolioError AllocationsMustSumTo100 details))
  /\ validatePortfolio (N:=float) [allocationOf "AAPL" 60; allocationOf "TSLA" 30]
       = Throw (InvalidPortfolioError AllocationsMustSumTo100
                  (TotalAllocation 90%float))
  /\ (forall (N : Type) (HN : JsNumber N) (portfolio : list (PortfolioAsset N)),
        let zeros := filter (fun a => isZeroAllocation a = true) portfolio in
        let total := sumOr0 pa_allocation portfolio in
        let tooFar := (Math_abs (total - num_of_Z 100) >? lit_0_01)%js in
        (zeros <> [] ->
           validatePortfolio portfolio
           = Throw (InvalidPortfolioError ZeroAllocationAssets
                      (ZeroSymbols (map pa_symbol zeros))))
        /\ (zeros = [] -> tooFar = true ->
              validatePortfolio portfolio
              = Throw (InvalidPortfolioError AllocationsMustSumTo100
                         (TotalAllocation total)))
        /\ (zeros = [] -> tooFar = false -> validatePortfolio portfolio = Return ())).
Proof.
  intros zeroAllocations deviation.
  pose proof (zeroAllocations_nonempty assets) as Hzero.
  pose proof (deviation_test assets) as Hdev.
  fold zeroAllocations in Hzero. fold deviation in Hdev.
  unfold validatePortfolio. fold zeroAllocations.
  split; [|split; [|split; [|split; [|split]]]];
    [ | | | | | intros N HN portfolio; apply validatePortfolio_decision ].
  - intros Hex. apply Hzero in Hex as ->. split; [reflexivity|].
    intros a Hin Hz. apply list_elem_of_fmap. exists a. split; [reflexivity|].
    apply list_elem_of_filter. split; [by apply isZeroAllocation_iff | exact Hin].
  - intros Hfar. destruct (0 <? length zeroAllocations)%nat; [eauto|].
    apply Hdev in Hfar as ->. eauto.
  - intros Hnone Hnear.
    destruct (0 <? length zeroAllocations)%nat eqn:E1;
      [exfalso; apply Hnone, Hzero; reflexivity|].
    destruct (_ >? _)%js eqn:E2; [exfalso; apply Hnear, Hdev; reflexivity|].
    reflexivity.
  - eexists. vm_compute. reflexivity.
  - vm_compute. reflexivity.
Qed.

(** A portfolio with a zero allocation, one that adds up to 90, and one
    that adds up to 100. *)
Lemma validatePortfolio_failures_witness :
  (exists symbols,
     validatePortfolio (N:=Q) [allocationOf "AAPL" 100; allocationOf "TSLA" 0]
       = Throw (InvalidPortfolioError ZeroAllocationAssets (ZeroSymbols symbols))
     /\ "TSLA"%string ∈ symbols)
  /\ (exists message details,
        validatePortfolio (N:=Q) [allocationOf "AAPL" 60; allocationOf "TSLA" 30]
          = Throw (InvalidPortfolioError message details))
  /\ validatePortfolio (N:=Q) [allocationOf "AAPL" 60; allocationOf "TSLA" 40]
       = Return ().
Proof.
  split; [|split].
  - destruct (validatePortfolio_failures
                [allocationOf "AAPL" 100; allocationOf "TSLA" 0])
      as (Hzero & _).
    assert (hasZeroAllocation (allocationOf (N:=Q) "TSLA" 0)) as Hz
      by (exists (inject_Z 0); split; reflexivity).
    destruct Hzero as [Hthrow Hsym].
    { apply Exists_cons_tl, Exists_cons_hd, Hz. }
    eexists. split; [exact Hthrow|].
    apply (Hsym (allocationOf "TSLA" 0)); [|exact Hz].
    right. left.
  - destruct (validatePortfolio_failures
                [allocationOf "AAPL" 60; allocationOf "TSLA" 30])
      as (_ & Hfar & _).
    apply Hfar. vm_compute. reflexivity.
  - destruct (validatePortfolio_failures
                [allocationOf "AAPL" 60; allocationOf "TSLA" 40])
      as (_ & _ & Hok & _).
    apply Hok.
    + intros Hex. apply Exists_exists in Hex as (a & Hin & x & Hx & H0).
      apply list_elem_of_In in Hin.
      destruct Hin as [<-|[<-|[]]]; injection Hx as <-; vm_compute in H0;
        discriminate H0.
    + vm_compute. intros H. discriminate H.
Defined.

(** C5, as stated, fails at binary64.  The amounts 1, 1 and 16 pass the
    schema and are given the percentages 5.56, 5.56 and 88.89.  None is 0,
    and the three binary64 numbers add up to within 0.01 of 100: their sum
    is 100 + 5629499534213 / 562949953421312, just below 100.01.  The
    program computes the sum as 100.01000000000001, finds it more than 0.01
    away from 100, and validation fails.  In exact arithmetic the same
    percentages pass. *)
Lemma validatePortfolio_refuses_a_sum_within_tolerance :
  let request :=
    mkRequest (N:=float) BUY None
      [amountOf "AAA" 1; amountOf "BBB" 1; amountOf "CCC" 16] in
  isSome (createOrderSchema request) = true
  /\ (exists prepared,
        prepareOrderData request = Return prepared
        /\ map pa_allocation (po_normalizedAssets prepared)
           = [Some 5.56%float; Some 5.56%float; Some 88.89%float]
        /\ filter (fun a => isZeroAllocation a = true) (po_normalizedAssets prepared)
           = []
        /\ validatePortfolio (po_normalizedAssets prepared)
           = Throw (InvalidPortfolioError AllocationsMustSumTo100
                      (TotalAllocation 100.01000000000001%float)))
  /\ exactValue 5.56 + exactValue 5.56 + exactValue 88.89 - 100
     == 5629499534213 # 562949953421312
  /\ Qabs (exactValue 5.56 + exactValue 5.56 + exactValue 88.89 - 100) <= 1 # 100
  /\ validatePortfolio (N:=Q)
       [mkAsset "AAA" None (Some (556 # 100)) None None;
        mkAsset "BBB" None (Some (556 # 100)) None None;
        mkAsset "CCC" None (Some (8889 # 100)) None None]
     = Return ().
Proof.
  cbn zeta. split; [vm_compute; reflexivity|]. split.
  - eexists. split; [reflexivity|]. vm_compute. repeat split; reflexivity.
  - split; [vm_compute; reflexivity|]. split; [vm_compute; discriminate|].
    vm_compute. reflexivity.
Qed.

(** *** Amount mode: deriving percentages, then splitting again *)

Lemma or_default_amount (a : PortfolioAsset Q) :
  or_default (pa_amount a) (num_of_Z 0) == suppliedAmount a.
Proof.
  unfold suppliedAmount. destruct (pa_amount a) as [x|].
  - apply or_default_0.
  - reflexivity.
Qed.

Lemma prepareOrderData_amount_mode (side : OrderType)
    (first : PortfolioAsset Q) (others : list (PortfolioAsset Q)) (d : Q) :
  pa_amount first = Some d ->
  prepareOrderData (mkRequest side None (first :: others))
  = Return (mkPrepared amount_mode (sumOr0 pa_amount (first :: others))
              (map (normalizedAsset (sumOr0 pa_amount (first :: others)))
                   (first :: others))).
Proof.
  intros Hd. unfold prepareOrderData. cbn [req_assets req_amount].
  rewrite Hd. destruct (pa_allocation first); reflexivity.
Qed.

Lemma resplit_line_close (T : Q) (asset : PortfolioAsset Q) :
  0 < T ->
  Qabs (roundToDecimal
          ((or_default (pa_allocation (normalizedAsset T asset)) (num_of_Z 0)
            / num_of_Z 100) * T)%js 2
        - suppliedAmount asset) <= lineSlack T.
Proof.
  intros HT. unfold normalizedAsset, lineSlack. cbn [pa_allocation].
  set (x := ((or_default (pa_amount asset) (num_of_Z 0) / T) * num_of_Z 100)%js).
  set (p := roundToDecimal x 2).
  set (y := ((or_default (Some p) (num_of_Z 0) / num_of_Z 100) * T)%js).
  pose proof (roundToDecimal_2_close x) as Hp. fold p in Hp.
  pose proof (roundToDecimal_2_close y) as Hy.
  assert (y == p * (1 # 100) * T) as Ey.
  { subst y. q_ops. rewrite or_default_0. change (inject_Z 100) with 100. field. }
  assert (suppliedAmount asset == x * (1 # 100) * T) as Ed.
  { subst x. q_ops. rewrite or_default_amount. change (inject_Z 100) with 100.
    field. lra. }
  apply Qabs_Qle_condition in Hp as [Hp1 Hp2].
  apply Qabs_Qle_condition in Hy as [Hy1 Hy2].
  assert ((p - x) * (T * (1 # 100)) <= (1 # 200) * (T * (1 # 100))) as Hu.
  { apply Qmult_le_compat_r; lra. }
  assert (- (1 # 200) * (T * (1 # 100)) <= (p - x) * (T * (1 # 100))) as Hl.
  { apply Qmult_le_compat_r; lra. }
  apply Qabs_Qle_condition. rewrite Ed.
  set (r := roundToDecimal y 2) in *. clearbody r p x. lra.
Qed.

Lemma resplit_loop (len : nat) (T : Q) (prec : Z) :
  0 < T ->
  forall (rest : list (PortfolioAsset Q)) (i : nat) (acc D : Q),
    (i + length rest = len)%nat ->
    Qabs (acc - D) <= inject_Z (Z.of_nat i) * lineSlack T ->
    T == D + sumQ (map suppliedAmount rest) ->
    forall j asset o,
      rest !! j = Some asset ->
      assetOrdersFrom len T prec i (map (normalizedAsset T) rest) acc !! j = Some o ->
      ao_symbol o = pa_symbol asset
      /\ Qabs (ao_amount o - suppliedAmount asset)
         <= if (i + j + 1 <? len)%nat then lineSlack T
            else inject_Z (Z.of_nat (len - 1)) * lineSlack T.
Proof.
  intros HT. assert (0 <= lineSlack T) as HB by (unfold lineSlack; lra).
  induction rest as [|a rest IH]; intros i acc D Hlen Hacc HD j asset o Hj Ho;
    [done|].
  cbn [map assetOrdersFrom] in Ho.
  assert (Qabs (ao_amount (assetOrderAt len T prec i (normalizedAsset T a) acc)
                - suppliedAmount a)
          <= if (i + 1 <? len)%nat then lineSlack T
             else inject_Z (Z.of_nat (len - 1)) * lineSlack T) as Hline.
  { unfold assetOrderAt. cbn [ao_amount]. case_isLast E.
    - destruct (Nat.ltb_spec (i + 1) len) as [?|_]; [lia|].
      assert (rest = []) as -> by (destruct rest; [done | cbn in Hlen; lia]).
      cbn [map sumQ] in HD. q_ops.
      replace (len - 1)%nat with i by lia.
      apply Qabs_Qle_condition in Hacc as [Ha1 Ha2].
      apply Qabs_Qle_condition.
      set (B := inject_Z (Z.of_nat i) * lineSlack T) in *. clearbody B. lra.
    - destruct (Nat.ltb_spec (i + 1) len) as [_|?]; [|cbn in Hlen; lia].
      apply resplit_line_close, HT. }
  assert (ao_symbol (assetOrderAt len T prec i (normalizedAsset T a) acc)
          = pa_symbol a) as Hsym by reflexivity.
  remember (assetOrderAt len T prec i (normalizedAsset T a) acc) as order
    eqn:Eorder.
  destruct j as [|j]; cbn in Hj, Ho.
  - injection Hj as <-. injection Ho as <-. split; [exact Hsym|].
    rewrite Nat.add_0_r. exact Hline.
  - assert (i + 1 < len)%nat as Hnotlast.
    { apply lookup_lt_Some in Hj. cbn in Hlen. lia. }
    destruct (Nat.ltb_spec (i + 1) len) as [_|?]; [|lia].
    replace (i + S j + 1)%nat with (S i + j + 1)%nat by lia.
    eapply (IH (S i) _ (D + suppliedAmount a)); [| | |exact Hj|exact Ho].
    + cbn in Hlen. lia.
    + rewrite Nat2Z.inj_succ, <- Z.add_1_r, inject_Z_plus. change (inject_Z 1) with 1.
      apply Qabs_Qle_condition in Hacc as [Ha1 Ha2].
      apply Qabs_Qle_condition in Hline as [Hl1 Hl2].
      apply Qabs_Qle_condition.
      set (r := ao_amount order) in *. clearbody r.
      set (iB := inject_Z (Z.of_nat i) * lineSlack T) in *.
      assert ((inject_Z (Z.of_nat i) + 1) * lineSlack T == iB + lineSlack T) as ->
        by (subst iB; ring).
      clearbody iB. lra.
    + cbn [map sumQ] in HD. rewrite HD. ring.
Qed.

(** C3, amended.  For amounts that are all positive, with no total
    supplied: the request is processed in amount mode with the sum of the
    amounts as total and round(amount / total * 100, 2) as the percentage
    of each asset; after the re-split every line but the last is within
    0.005 + total * 0.00005 of the amount supplied for it, and the last
    line within that slack times the number of lines before it. *)
Theorem amount_mode_resplit_slack (side : OrderType)
    (first : PortfolioAsset Q) (others : list (PortfolioAsset Q)) (prec : Z) :
  Forall (fun a => exists d, pa_amount a = Some d /\ 0 < d) (first :: others) ->
  exists prepared,
    prepareOrderData (mkRequest side None (first :: others)) = Return prepared
    /\ po_mode prepared = amount_mode
    /\ po_totalAmount prepared == sumQ (map suppliedAmount (first :: others))
    /\ po_normalizedAssets prepared
       = map (normalizedAsset (po_totalAmount prepared)) (first :: others)
    /\ let total := po_totalAmount prepared in
       let orders :=
         fst (calculateAssetOrders (po_normalizedAssets prepared) total prec) in
       length orders = S (length others)
       /\ forall i asset o,
            (first :: others) !! i = Some asset -> orders !! i = Some o ->
            ao_symbol o = pa_symbol asset
            /\ Qabs (ao_amount o - suppliedAmount asset)
               <= if (i <? length others)%nat then lineSlack total
                  else inject_Z (Z.of_nat (length others)) * lineSlack total.
Proof.
  intros Hpos.
  assert (exists d, pa_amount first = Some d) as [d Hd].
  { apply Forall_cons in Hpos as [(d & Hd & _) _]. eauto. }
  set (assets := first :: others) in *.
  set (T := sumOr0 pa_amount assets).
  assert (T == sumQ (map suppliedAmount assets)) as HT.
  { subst T. rewrite sumOr0_sumQ. apply sumQ_map_ext, or_default_amount. }
  assert (0 < T) as HTpos.
  { rewrite HT. subst assets. clear -Hpos.
    assert (forall l : list (PortfolioAsset Q),
              Forall (fun a => exists d, pa_amount a = Some d /\ 0 < d) l ->
              0 <= sumQ (map suppliedAmount l)) as Hnonneg.
    { induction l as [|a l IH]; intros Hl; cbn [map sumQ]; [lra|].
      apply Forall_cons in Hl as [(d & Hd & Hd0) Hl].
      unfold suppliedAmount at 1. rewrite Hd. specialize (IH Hl). lra. }
    apply Forall_cons in Hpos as [(d & Hd & Hd0) Hl].
    cbn [map sumQ]. unfold suppliedAmount at 1. rewrite Hd.
    specialize (Hnonneg _ Hl). lra. }
  eexists. split; [exact (prepareOrderData_amount_mode side first others d Hd)|].
  cbn [po_mode po_totalAmount po_normalizedAssets]. fold assets. fold T.
  split; [reflexivity|]. split; [exact HT|]. split; [reflexivity|].
  unfold calculateAssetOrders. cbn [fst].
  rewrite length_map.
  split.
  { rewrite assetOrdersFrom_length, length_map. reflexivity. }
  intros i asset o Hi Ho.
  pose proof (resplit_loop (length assets) T prec HTpos assets 0 (num_of_Z 0) 0)
    as Hloop.
  assert (Qabs (num_of_Z 0 - 0) <= inject_Z (Z.of_nat 0) * lineSlack T) as Hstart.
  { q_ops. change (inject_Z (Z.of_nat 0)) with 0. change (inject_Z 0) with 0.
    apply Qabs_Qle_condition. generalize (lineSlack T). intros B. lra. }
  destruct (Hloop eq_refl Hstart ltac:(rewrite HT; ring) i asset o Hi Ho)
    as [Hsym Hclose].
  split; [exact Hsym|].
  subst assets. cbn [length] in Hclose.
  replace (S (length others) - 1)%nat with (length others) in Hclose by lia.
  destruct (Nat.ltb_spec (0 + i + 1) (S (length others)));
    destruct (Nat.ltb_spec i (length others)); try lia; exact Hclose.
Qed.

(** Three amounts of 20, 30 and 50: the total is 100, the slack one cent. *)
Lemma amount_mode_resplit_slack_witness :
  exists prepared,
    prepareOrderData (N:=Q)
      (mkRequest BUY None [amountOf "AAA" 20; amountOf "BBB" 30; amountOf "CCC" 50])
    = Return prepared
    /\ po_mode prepared = amount_mode
    /\ po_totalAmount prepared == 100.
Proof.
  destruct (amount_mode_resplit_slack BUY (amountOf "AAA" 20)
              [amountOf "BBB" 30; amountOf "CCC" 50] 3)
    as (prepared & Hprep & Hmode & Htotal & _ & _).
  - repeat (constructor; [eexists; split; reflexivity |]). constructor.
  - exists prepared. split; [exact Hprep|]. split; [exact Hmode|].
    rewrite Htotal. reflexivity.
Defined.
End ExactArithmetic.

(** C1, amended.  In whichever arithmetic, for every request with at least
    one asset there is one line per asset, each line but the last carries
    round2(allocation/100 * total), and the last line (by position) carries
    the total minus the running sum of the amounts before it.  In exact
    arithmetic the amounts therefore add up to the requested total. *)
Theorem remainder_absorption :
  (forall (N : Type) (HN : JsNumber N) (first : PortfolioAsset N)
          (others : list (PortfolioAsset N)) (total : N) (prec : Z),
     let assets := first :: others in
     let orders := fst (calculateAssetOrders assets total prec) in
     length orders = length assets
     /\ (forall i asset, assets !! i = Some asset -> (i < length others)%nat ->
           exists o, orders !! i = Some o
             /\ ao_amount o
                = roundToDecimal
                    ((or_default (pa_allocation asset) (num_of_Z 0) / num_of_Z 100)
                     * total)%js 2)
     /\ (exists o, orders !! length others = Some o
           /\ ao_amount o
              = (total - sumOrders ao_amount (take (length others) orders))%js))
  /\ (forall (first : PortfolioAsset Q) (others : list (PortfolioAsset Q))
             (total : Q) (prec : Z),
        (sumOrders ao_amount
           (fst (calculateAssetOrders (first :: others) total prec))
         == total)%Q).
Proof.
  split.
  - intros N HN first others total prec. apply calculateAssetOrders_lines.
  - apply amounts_sum_exact.
Qed.

(** ** Mode detection *)

Section ModeDetection.
Context {N : Type} `{JsNumber N}.

Lemma portfolioAssetSchema_fields (a a' : PortfolioAsset N) :
  portfolioAssetSchema a = Some a' ->
  pa_allocation a' = pa_allocation a /\ pa_amount a' = pa_amount a
  /\ xorb (isSome (pa_allocation a)) (isSome (pa_amount a)) = true.
Proof.
  unfold portfolioAssetSchema.
  destruct (xorb _ _) eqn:Hxor; rewrite ?andb_false_r; [|discriminate].
  destruct (_ && _); [|discriminate]. intros [= <-]. auto.
Qed.

Lemma parseAssets_fields (assets parsed : list (PortfolioAsset N)) :
  parseAssets assets = Some parsed ->
  map pa_allocation parsed = map pa_allocation assets
  /\ map pa_amount parsed = map pa_amount assets
  /\ Forall (fun a => xorb (isSome (pa_allocation a)) (isSome (pa_amount a)) = true)
            parsed.
Proof.
  revert parsed. induction assets as [|a assets IH]; intros parsed; cbn.
  - intros [= <-]. repeat split. constructor.
  - destruct (portfolioAssetSchema a) as [a'|] eqn:Ea; [|discriminate].
    destruct (parseAssets assets) as [rest|]; [|discriminate].
    intros [= <-]. destruct (IH rest eq_refl) as (IH1 & IH2 & IH3).
    apply portfolioAssetSchema_fields in Ea as (E1 & E2 & E3).
    cbn. rewrite IH1, IH2, E1, E2. repeat split.
    constructor; [by rewrite E1, E2 | exact IH3].
Qed.

Lemma existsb_false_Forall {A} (p : A -> bool) (l : list A) :
  existsb p l = false -> Forall (fun a => p a = false) l.
Proof.
  induction l as [|a l IH]; cbn; [constructor|].
  intros [Ha Hl]%orb_false_iff. constructor; auto.
Qed.

(** What a portfolio accepted by the schema looks like: one mode throughout. *)
Lemma sameMode_uniform (first : PortfolioAsset N) (others : list (PortfolioAsset N)) :
  Forall (fun a => xorb (isSome (pa_allocation a)) (isSome (pa_amount a)) = true)
         (first :: others) ->
  sameMode (first :: others) = true ->
  (isSome (pa_allocation first) = true
   /\ Forall suppliesAllocation (first :: others)
   /\ Forall (fun a => pa_amount a = None) (first :: others))
  \/ (pa_allocation first = None /\ isSome (pa_amount first) = true
      /\ Forall suppliesAmount (first :: others)).
Proof.
  intros Hxor Hsame. unfold sameMode in Hsame.
  apply negb_true_iff, andb_false_iff in Hsame as [Hnone|Hnone];
    apply existsb_false_Forall in Hnone.
  - right.
    assert (Forall suppliesAmount (first :: others)) as Hall.
    { apply Forall_forall. intros a Ha.
      pose proof (proj1 (Forall_forall _ _) Hxor a Ha) as Hx.
      pose proof (proj1 (Forall_forall _ _) Hnone a Ha) as Hn.
      cbn beta in Hx, Hn. unfold suppliesAmount. rewrite Hn in Hx. exact Hx. }
    apply Forall_cons in Hnone as [Hn _].
    split; [by destruct (pa_allocation first) | split; [|exact Hall]].
    by apply Forall_cons in Hall as [? _].
  - left.
    assert (Forall suppliesAllocation (first :: others)) as Hall.
    { apply Forall_forall. intros a Ha.
      pose proof (proj1 (Forall_forall _ _) Hxor a Ha) as Hx.
      pose proof (proj1 (Forall_forall _ _) Hnone a Ha) as Hn.
      cbn beta in Hx, Hn. unfold suppliesAllocation. rewrite Hn in Hx.
      by destruct (isSome (pa_allocation a)). }
    split; [by apply Forall_cons in Hall as [? _] | split; [exact Hall|]].
    eapply Forall_impl; [exact Hnone|]. intros a Ha. cbn beta in Ha.
    by destruct (pa_amount a).
Qed.

Lemma Forall_map_fields {A B} (f : A -> B) (P : B -> Prop) (l l' : list A) :
  map f l' = map f l -> Forall (fun a => P (f a)) l' -> Forall (fun a => P (f a)) l.
Proof.
  revert l. induction l' as [|a' l' IH]; intros [|a l] Hmap Hall;
    try discriminate Hmap; [constructor|].
  injection Hmap as Ha Hl. apply Forall_cons in Hall as [Hhead Htail].
  constructor; [by rewrite <- Ha | by apply IH].
Qed.

(** [parse] returns a request exactly when [createOrderSchema] gives one. *)
Lemma createOrderSchema_Some (request accepted : CreateOrderRequest N) :
  createOrderSchema request = Some accepted
  <-> createOrderSchema_parse request = Return (Some accepted).
Proof.
  unfold createOrderSchema.
  destruct (createOrderSchema_parse request) as [[r|]|e]; split; congruence.
Qed.

(** The one way [parse] throws anything but a ZodError: no asset. *)
Lemma createOrderSchema_parse_throws (request : CreateOrderRequest N) (e : Thrown N) :
  createOrderSchema_parse request = Throw e
  <-> req_assets request = [] /\ e = TypeError.
Proof.
  unfold createOrderSchema_parse, portfolioSchema.
  destruct (req_assets request) as [|a rest].
  - cbn. split; [intros [= <-]; auto | intros [_ ->]; reflexivity].
  - split; [|intros [[=] _]]. cbn [parseAssets].
    destruct (portfolioAssetSchema a) as [a'|]; [|discriminate].
    destruct (parseAssets rest) as [rest'|]; [|discriminate].
    cbn [allocationsSum].
    destruct (pa_allocation a');
      repeat match goal with
             | |- context [if ?c then _ else _] => destruct c
             end; discriminate.
Qed.

(** What [parse] has checked of a request it returns. *)
Lemma createOrderSchema_parse_accepted (request accepted : CreateOrderRequest N) :
  createOrderSchema_parse request = Return (Some accepted) ->
  exists first others,
    req_assets accepted = first :: others
    /\ parseAssets (req_assets request) = Some (first :: others)
    /\ req_amount accepted = req_amount request
    /\ req_orderType accepted = req_orderType request
    /\ (length (first :: others) <= MAX_ASSETS_PER_PORTFOLIO)%nat
    /\ noDuplicateSymbols (first :: others) = true
    /\ sameMode (first :: others) = true
    /\ allocationsSum (first :: others) = Return true
    /\ amountMatchesMode (req_amount request) (first :: others) = Return true.
Proof.
  unfold createOrderSchema_parse, portfolioSchema.
  destruct (parseAssets (req_assets request)) as [[|first others]|];
    [discriminate| |discriminate].
  destruct (allocationsSum (first :: others)) as [sumOk|e] eqn:Esum; [|discriminate].
  destruct (_ && noDuplicateSymbols _ && sameMode _ && sumOk) eqn:Echecks;
    [|discriminate].
  destruct (amountMatchesMode _ _) as [modeOk|e] eqn:Emode; [|discriminate].
  destruct (_ && modeOk) eqn:Etop; [|discriminate].
  intros [= <-]. cbn [req_assets req_amount req_orderType].
  apply andb_true_iff in Echecks
    as [[[Hlen Hdup]%andb_true_iff Hsame]%andb_true_iff ->].
  apply andb_true_iff in Hlen as [_ Hmax]. apply Nat.leb_le in Hmax.
  apply andb_true_iff in Etop as [_ ->].
  exists first, others. repeat split; assumption.
Qed.

(** C2, amended.  The engine decides on the first asset alone: allocation
    mode when it supplies an allocation and a total is supplied; otherwise
    amount mode when it supplies an amount; otherwise InvalidPortfolio.
    Requests reach the engine through createOrderSchema, and a request the
    schema accepts either has every asset supplying an allocation together
    with a total, and is processed in allocation mode, or has every asset
    supplying an amount with no total, and is processed in amount mode;
    every other combination the schema refuses, with a ZodError. *)
Theorem mode_detection (request : CreateOrderRequest N) :
  (forall first others, req_assets request = first :: others ->
     (forall amount, isSome (pa_allocation first) = true ->
        req_amount request = Some amount ->
        prepareOrderData request
        = Return (mkPrepared allocation_mode amount (req_assets request)))
     /\ (isSome (pa_allocation first) && isSome (req_amount request) = false ->
         isSome (pa_amount first) = true ->
         modeOf (prepareOrderData request) = Some amount_mode)
     /\ (isSome (pa_allocation first) && isSome (req_amount request) = false ->
         isSome (pa_amount first) = false ->
         prepareOrderData request
         = Throw (InvalidPortfolioError InvalidConfiguration NoDetails)))
  /\ (forall accepted, createOrderSchema request = Some accepted ->
        (Forall suppliesAllocation (req_assets request)
         /\ isSome (req_amount request) = true
         /\ modeOf (prepareOrderData accepted) = Some allocation_mode)
        \/ (Forall suppliesAmount (req_assets request)
            /\ req_amount request = None
            /\ modeOf (prepareOrderData accepted) = Some amount_mode))
  /\ (~ (Forall suppliesAllocation (req_assets request)
         /\ isSome (req_amount request) = true) ->
      ~ (Forall suppliesAmount (req_assets request)
         /\ req_amount request = None) ->
      createOrderSchema_parse request = Return None).
Proof.
  assert (forall accepted, createOrderSchema request = Some accepted ->
            (Forall suppliesAllocation (req_assets request)
             /\ isSome (req_amount request) = true
             /\ modeOf (prepareOrderData accepted) = Some allocation_mode)
            \/ (Forall suppliesAmount (req_assets request)
                /\ req_amount request = None
                /\ modeOf (prepareOrderData accepted) = Some amount_mode))
    as Hschema.
  { intros accepted Haccepted.
    apply createOrderSchema_Some, createOrderSchema_parse_accepted in Haccepted
      as (first & others & Eassets & Eparse & Eamount & _ & _ & _ & Hsame & _ & Hmatch).
    apply parseAssets_fields in Eparse as (Halloc & Hamount & Hxor).
    cbn [amountMatchesMode] in Hmatch. injection Hmatch as Hmatch.
    destruct (sameMode_uniform first others Hxor Hsame)
      as [(Hfirst & Hall & Hnoamount)|(Hnofirst & Hfirst & Hall)].
    - left. rewrite Hfirst in Hmatch.
      split; [|split; [exact Hmatch|]].
      + exact (Forall_map_fields pa_allocation (fun x => isSome x = true) _ _
                 Halloc Hall).
      + unfold prepareOrderData. rewrite Eassets, Eamount.
        destruct (pa_allocation first); [|discriminate Hfirst].
        destruct (req_amount request); [reflexivity | discriminate Hmatch].
    - right.
      rewrite Hnofirst in Hmatch. cbn [isSome] in Hmatch. rewrite Hfirst in Hmatch.
      assert (req_amount request = None) as Hnototal
        by (destruct (req_amount request); [discriminate Hmatch | reflexivity]).
      split; [|split; [exact Hnototal|]].
      + exact (Forall_map_fields pa_amount (fun x => isSome x = true) _ _
                 Hamount Hall).
      + unfold prepareOrderData. rewrite Eassets, Eamount, Hnofirst.
        destruct (pa_amount first); [reflexivity | discriminate Hfirst]. }
  split; [|split; [exact Hschema|]].
  - intros first others Hassets. unfold prepareOrderData. rewrite Hassets.
    split; [|split].
    + intros amount Hfirst ->. destruct (pa_allocation first); [reflexivity|].
      discriminate Hfirst.
    + intros Hnot Hamount.
      destruct (pa_allocation first), (req_amount request), (pa_amount first);
        try discriminate; reflexivity.
    + intros Hnot Hamount.
      destruct (pa_allocation first), (req_amount request), (pa_amount first);
        try discriminate; reflexivity.
  - intros Hnotalloc Hnotamount.
    destruct (createOrderSchema_parse request) as [[accepted|]|e] eqn:E;
      [|reflexivity|].
    + apply createOrderSchema_Some in E.
      destruct (Hschema accepted E) as [(? & ? & _)|(? & ? & _)]; tauto.
    + apply createOrderSchema_parse_throws in E as [Eassets _].
      rewrite Eassets in Hnotalloc, Hnotamount. exfalso.
      destruct (req_amount request);
        [apply Hnotalloc | apply Hnotamount]; split; (constructor || reflexivity).
Qed.
End ModeDetection.

(** C2, as stated, fails: amount-assets together with a supplied total are
    not refused by the engine with InvalidPortfolio, they are split in
    amount mode; a portfolio mixing the two fields, first asset with an
    allocation, is split in allocation mode.  Both are refused by the
    schema, upstream, with a ZodError. *)
Lemma mode_detection_looks_at_first_asset :
  let withTotal :=
    mkRequest (N:=float) BUY (Some 1000%float)
      [amountOf "AAPL" 600; amountOf "BTC" 400] in
  let mixed :=
    mkRequest (N:=float) BUY (Some 1000%float)
      [allocationOf "AAPL" 50; amountOf "TSLA" 500] in
  modeOf (prepareOrderData withTotal) = Some amount_mode
  /\ modeOf (prepareOrderData mixed) = Some allocation_mode
  /\ createOrderSchema_parse withTotal = Return None
  /\ createOrderSchema_parse mixed = Return None.
Proof. vm_compute. repeat split; reflexivity. Qed.

(** The README request passes the schema and is split in allocation mode; a
    request refused by the schema. *)
Lemma mode_detection_witness :
  (exists accepted,
     createOrderSchema (mkRequest (N:=float) BUY (Some 10000%float) scenarioA)
     = Some accepted
     /\ modeOf (prepareOrderData accepted) = Some allocation_mode)
  /\ createOrderSchema_parse
       (mkRequest (N:=float) BUY None [allocationOf "AAPL" 50; amountOf "TSLA" 500])
     = Return None.
Proof.
  destruct (mode_detection (mkRequest (N:=float) BUY (Some 10000%float) scenarioA))
    as (_ & Hschema & _).
  destruct (mode_detection
              (mkRequest (N:=float) BUY None
                 [allocationOf "AAPL" 50; amountOf "TSLA" 500]))
    as (_ & _ & Hrefused).
  split.
  - eexists. split; [vm_compute; reflexivity|].
    destruct (Hschema _ ltac:(vm_compute; reflexivity)) as [(_ & _ & Hm)|(_ & Hn & _)];
      [exact Hm | discriminate Hn].
  - apply Hrefused.
    + intros [Hall _]. apply Forall_cons in Hall as [_ Hall].
      apply Forall_cons in Hall as [Hall _]. discriminate Hall.
    + intros [Hall _]. apply Forall_cons in Hall as [Hall _]. discriminate Hall.
Defined.

(** ** The order store *)

Section MapFacts.
Context {K V : Type} `{EqDecision K}.

Lemma Map_get_set_eq (m : list (K * V)) (k : K) (v : V) :
  Map_get (Map_set m k v) k = Some v.
Proof.
  induction m as [|[k' v'] m IH]; cbn.
  - by rewrite decide_True.
  - destruct (decide (k' = k)) as [->|Hne]; cbn.
    + by rewrite decide_True.
    + by rewrite decide_False.
Qed.

Lemma Map_get_set_ne (m : list (K * V)) (k k' : K) (v : V) :
  k <> k' -> Map_get (Map_set m k v) k' = Map_get m k'.
Proof.
  intros Hne. induction m as [|[k0 v0] m IH]; cbn.
  - by rewrite decide_False.
  - destruct (decide (k0 = k)) as [->|Hne0]; cbn.
    + by rewrite !decide_False.
    + destruct (decide (k0 = k')); [reflexivity | exact IH].
Qed.

Lemma Map_get_None_keys (m : list (K * V)) (k : K) :
  Map_get m k = None <-> k ∉ map fst m.
Proof.
  induction m as [|[k' v'] m IH]; cbn.
  - split; [intros _; apply not_elem_of_nil | reflexivity].
  - rewrite not_elem_of_cons. destruct (decide (k' = k)) as [->|Hne].
    + split; [discriminate | intros [? _]; congruence].
    + rewrite IH. split; [intros ?; split; [congruence | assumption] | tauto].
Qed.

Lemma Map_set_keys_fresh (m : list (K * V)) (k : K) (v : V) :
  Map_get m k = None -> map fst (Map_set m k v) = map fst m ++ [k].
Proof.
  induction m as [|[k' v'] m IH]; cbn; [reflexivity|].
  destruct (decide (k' = k)); [discriminate|]. intros Hm. cbn. by rewrite IH.
Qed.

Lemma Map_set_fresh (m : list (K * V)) (k : K) (v : V) :
  Map_get m k = None -> Map_set m k v = m ++ [(k, v)].
Proof.
  induction m as [|[k' v'] m IH]; cbn; [reflexivity|].
  destruct (decide (k' = k)); [discriminate|]. intros Hm. by rewrite IH.
Qed.

Lemma Map_set_keys_present (m : list (K * V)) (k : K) (v : V) :
  Map_get m k <> None -> map fst (Map_set m k v) = map fst m.
Proof.
  induction m as [|[k' v'] m IH]; cbn; [congruence|].
  destruct (decide (k' = k)) as [->|Hne]; cbn; [reflexivity|].
  intros Hm. by rewrite IH.
Qed.

Lemma Map_get_elem_of (m : list (K * V)) (k : K) (v : V) :
  NoDup (map fst m) -> (k, v) ∈ m <-> Map_get m k = Some v.
Proof.
  induction m as [|[k' v'] m IH]; cbn; intros Hnd.
  - split; [intros Hin; by apply elem_of_nil in Hin | discriminate].
  - apply NoDup_cons in Hnd as [Hfresh Hnd]. rewrite elem_of_cons, (IH Hnd).
    destruct (decide (k' = k)) as [->|Hne].
    + split; [|intros [= ->]; by left].
      intros [[= ->]|Hget]; [reflexivity|].
      apply Map_get_None_keys in Hfresh. congruence.
    + split; [intros [[= ? ?]|?]; [congruence | assumption] | by right].
Qed.
End MapFacts.

Section IndexFacts.
Context {K : Type} `{EqDecision K}.

Lemma elem_of_Set_add (s : list string) (x y : string) :
  y ∈ Set_add s x <-> y = x \/ y ∈ s.
Proof.
  unfold Set_add, Set_has. case_bool_decide as Hin.
  - split; [by right | intros [->|?]; assumption].
  - rewrite elem_of_app, list_elem_of_singleton. tauto.
Qed.

Lemma NoDup_Set_add (s : list string) (x : string) :
  NoDup s -> NoDup (Set_add s x).
Proof.
  intros Hnd. unfold Set_add, Set_has. case_bool_decide as Hin; [exact Hnd|].
  apply NoDup_app. split; [exact Hnd|]. split.
  - intros y Hy Hx. apply list_elem_of_singleton in Hx as ->. contradiction.
  - apply NoDup_singleton.
Qed.

Lemma indexAdd_get (index : list (K * list string)) (key : K) (id : string) :
  exists ids,
    Map_get (indexAdd index key id) key = Some (Set_add ids id)
    /\ (Map_get index key = Some ids \/ (Map_get index key = None /\ ids = []))
    /\ forall key', key <> key' ->
         Map_get (indexAdd index key id) key' = Map_get index key'.
Proof.
  unfold indexAdd, Map_has.
  destruct (Map_get index key) as [ids|] eqn:Eget; cbn [isSome].
  - rewrite Eget. exists ids. split; [apply Map_get_set_eq|].
    split; [by left|]. intros key' Hne. by apply Map_get_set_ne.
  - rewrite Map_get_set_eq. exists []. split; [apply Map_get_set_eq|].
    split; [by right|]. intros key' Hne. by rewrite !Map_get_set_ne.
Qed.

Lemma indexed_indexAdd (index : list (K * list string)) (key key' : K)
    (id id' : string) :
  indexed (indexAdd index key id) key' id'
  <-> (key' = key /\ id' = id) \/ indexed index key' id'.
Proof.
  destruct (indexAdd_get index key id) as (ids & Hget & Hold & Hother).
  unfold indexed. destruct (decide (key = key')) as [<-|Hne].
  - rewrite Hget. split.
    + intros (ids' & [= <-] & Hin). apply elem_of_Set_add in Hin as [->|Hin].
      * by left.
      * right. destruct Hold as [Hold|[_ ->]]; [eauto | by apply elem_of_nil in Hin].
    + intros [[_ ->]|(ids' & Hget' & Hin)].
      * eexists. split; [reflexivity|]. apply elem_of_Set_add. by left.
      * eexists. split; [reflexivity|]. apply elem_of_Set_add. right.
        destruct Hold as [Hold|[Hnone _]]; congruence.
  - rewrite (Hother key' Hne). split; [by right|].
    intros [[-> _]|?]; [contradiction | assumption].
Qed.

Lemma setsNoDup_indexAdd (index : list (K * list string)) (key : K) (id : string) :
  setsNoDup index -> setsNoDup (indexAdd index key id).
Proof.
  intros Hnd key' ids' Hget'.
  destruct (indexAdd_get index key id) as (ids & Hget & Hold & Hother).
  destruct (decide (key = key')) as [<-|Hne].
  - rewrite Hget in Hget'. injection Hget' as <-. apply NoDup_Set_add.
    destruct Hold as [Hold|[_ ->]]; [by eapply Hnd | apply NoDup_nil_2].
  - rewrite (Hother key' Hne) in Hget'. by eapply Hnd.
Qed.

Lemma indexAdd_key_present (index : list (K * list string)) (key key' : K)
    (id : string) :
  Map_get (indexAdd index key id) key' = None
  <-> key' <> key /\ Map_get index key' = None.
Proof.
  destruct (indexAdd_get index key id) as (ids & Hget & _ & Hother).
  destruct (decide (key = key')) as [<-|Hne].
  - rewrite Hget. split; [discriminate | intros [? _]; contradiction].
  - rewrite (Hother key' Hne). split; [intros ?; split; [congruence|assumption] | tauto].
Qed.
End IndexFacts.

Section StoreInvariant.
Context {N : Type} `{JsNumber N}.

Lemma indexAsset_fold (id : string) (lines : list (AssetOrder N)) :
  forall indexes,
    (forall key id',
       indexed (fst (fold_left (indexAsset id) lines indexes)) key id'
       <-> (id' = id /\ exists line, line ∈ lines /\ ao_symbol line = key)
           \/ indexed (fst indexes) key id')
    /\ (forall key id',
          indexed (snd (fold_left (indexAsset id) lines indexes)) key id'
          <-> (id' = id /\ exists line, line ∈ lines /\ ao_type line = Some key)
              \/ indexed (snd indexes) key id')
    /\ (setsNoDup (fst indexes)
        -> setsNoDup (fst (fold_left (indexAsset id) lines indexes)))
    /\ (setsNoDup (snd indexes)
        -> setsNoDup (snd (fold_left (indexAsset id) lines indexes))).
Proof.
  induction lines as [|line lines IH]; intros indexes; cbn [fold_left].
  - repeat split; try tauto.
    + intros [(_ & l & Hl & _)|?]; [by apply elem_of_nil in Hl | assumption].
    + intros [(_ & l & Hl & _)|?]; [by apply elem_of_nil in Hl | assumption].
  - destruct (IH (indexAsset id indexes line)) as (IHs & IHt & IHns & IHnt).
    split; [|split; [|split]].
    + intros key id'. rewrite IHs. cbn [indexAsset fst]. rewrite indexed_indexAdd.
      split.
      * intros [(-> & l & Hl & Hk)|[[-> ->]|Hold]].
        -- left. split; [reflexivity|]. exists l. split; [by right | exact Hk].
        -- left. split; [reflexivity|]. exists line. split; [by left | reflexivity].
        -- by right.
      * intros [(-> & l & Hl & Hk)|Hold]; [|by right; right].
        apply elem_of_cons in Hl as [->|Hl].
        -- right. left. by split.
        -- left. split; [reflexivity|]. by exists l.
    + intros key id'. rewrite IHt. cbn [indexAsset snd]. split.
      * intros [(-> & l & Hl & Hk)|Hnew].
        -- left. split; [reflexivity|]. exists l. split; [by right | exact Hk].
        -- destruct (ao_type line) as [type|] eqn:Etype; [|by right].
           apply indexed_indexAdd in Hnew as [[-> ->]|Hold]; [|by right].
           left. split; [reflexivity|]. exists line. split; [by left | exact Etype].
      * intros [(-> & l & Hl & Hk)|Hold].
        -- apply elem_of_cons in Hl as [->|Hl].
           ++ right. rewrite Hk. apply indexed_indexAdd. left. by split.
           ++ left. split; [reflexivity|]. by exists l.
        -- right. destruct (ao_type line); [|exact Hold].
           apply indexed_indexAdd. by right.
    + intros Hnd. apply IHns. cbn [indexAsset fst]. by apply setsNoDup_indexAdd.
    + intros Hnd. apply IHnt. cbn [indexAsset snd].
      destruct (ao_type line); [by apply setsNoDup_indexAdd | exact Hnd].
Qed.

Lemma Consistent_new : Consistent newRepository.
Proof.
  split; cbn; try (intros; discriminate); try apply NoDup_nil_2; try reflexivity.
  - intros key id. split; [intros (? & [=] & _) | intros (? & [=] & _)].
  - intros key id. split; [intros (? & [=] & _) | intros (? & [=] & _)].
  - intros key id. split; [intros (? & [=] & _) | intros (? & [=] & _)].
Qed.

Lemma Consistent_save (repo : OrderRepository N) (order : Order N) :
  Consistent repo ->
  Map_get (orders repo) (orderId order) = None ->
  Consistent (fst (save repo order)).
Proof.
  intros C Hfresh.
  pose proof (indexAsset_fold (orderId order) (assetOrders order)
                (ordersBySymbol repo, ordersByAssetType repo))
    as (Hsym & Htype & Hsn & Htn).
  cbn [fst snd] in Hsym, Htype, Hsn, Htn.
  assert (forall id' (P : Order N -> Prop),
            (exists o, Map_get (Map_set (orders repo) (orderId order) order) id'
                       = Some o /\ P o)
            <-> (id' = orderId order /\ P order)
                \/ exists o, Map_get (orders repo) id' = Some o /\ P o) as Hget.
  { intros id' P. destruct (decide (orderId order = id')) as [<-|Hne].
    - rewrite Map_get_set_eq, Hfresh. split.
      + intros (o & [= <-] & HP). by left.
      + intros [[_ HP]|(o & [=] & _)]. by exists order.
    - rewrite (Map_get_set_ne _ _ _ _ Hne). split; [by right|].
      intros [[-> _]|?]; [contradiction | assumption]. }
  unfold save. cbn [fst]. split; cbn [orders ordersByType ordersBySymbol
    ordersByAssetType ordersByDate statsCache].
  - rewrite (Map_set_keys_fresh _ _ _ Hfresh). apply NoDup_app.
    split; [apply (keys_nodup _ C)|]. split; [|apply NoDup_singleton].
    intros k Hk Hk'. apply list_elem_of_singleton in Hk' as ->.
    by apply Map_get_None_keys in Hfresh.
  - intros id' o. destruct (decide (orderId order = id')) as [<-|Hne].
    + rewrite Map_get_set_eq. by intros [= <-].
    + rewrite (Map_get_set_ne _ _ _ _ Hne). apply (keyed_by_id _ C).
  - intros key id'. rewrite indexed_indexAdd, (byType_view _ C), Hget.
    split; (intros [[? ?]|?]; [left; split; congruence | by right]).
  - intros key id'. rewrite Hsym, (bySymbol_view _ C), Hget. reflexivity.
  - intros key id'. rewrite Htype, (byAssetType_view _ C), Hget. reflexivity.
  - by rewrite (byDate_keys _ C), (Map_set_keys_fresh _ _ _ Hfresh).
  - apply setsNoDup_indexAdd, (byType_sets _ C).
  - apply Hsn, (bySymbol_sets _ C).
  - apply Htn, (byAssetType_sets _ C).
  - discriminate.
Qed.

Lemma Consistent_getStats (repo : OrderRepository N) (now : Z) :
  Consistent repo -> Consistent (fst (getStats repo now)).
Proof.
  intros C. unfold getStats.
  assert (Consistent
            (mkRepo (orders repo) (ordersByType repo) (ordersBySymbol repo)
                    (ordersByAssetType repo) (ordersByDate repo)
                    (Some (mkCache (computeStats repo) now STATS_TTL)))) as C'.
  { destruct C. split; cbn; try assumption. by intros cache [= <-]. }
  destruct (statsCache repo) as [cache|]; [|exact C'].
  destruct (_ <? _)%Z; [exact C | exact C'].
Qed.

Lemma Consistent_step (repo repo' : OrderRepository N) :
  Consistent repo -> step repo repo' -> Consistent repo'.
Proof.
  intros C Hstep. destruct Hstep.
  - by apply Consistent_save.
  - exact C.
  - by apply Consistent_getStats.
  - apply Consistent_new.
Qed.

Lemma reachable_Consistent (repo : OrderRepository N) :
  reachable repo -> Consistent repo.
Proof.
  induction 1 as [|repo repo' _ IH Hstep]; [apply Consistent_new|].
  by eapply Consistent_step.
Qed.

(** C7.  In every reachable state of the store an id is in the side index
    under a key exactly when the primary map holds an order with that id
    and that side, in the symbol (asset class) index under a key exactly
    when that order has a line with that symbol (asset class), and the
    insertion-ordered list holds exactly the keys of the primary map, each
    once. *)
Theorem indexes_are_views (repo : OrderRepository N) :
  reachable repo ->
  (forall side id,
     indexed (ordersByType repo) side id
     <-> exists o, findById repo id = Some o /\ orderId o = id /\ orderType o = side)
  /\ (forall symbol id,
        indexed (ordersBySymbol repo) symbol id
        <-> exists o, findById repo id = Some o /\ orderId o = id
                      /\ hasSymbol o symbol)
  /\ (forall assetClass id,
        indexed (ordersByAssetType repo) assetClass id
        <-> exists o, findById repo id = Some o /\ orderId o = id
                      /\ hasAssetType o assetClass)
  /\ (forall id, id ∈ ordersByDate repo <-> findById repo id <> None)
  /\ NoDup (ordersByDate repo).
Proof.
  intros Hreach. apply reachable_Consistent in Hreach as C. unfold findById.
  assert (forall id (P : Order N -> Prop),
            (exists o, Map_get (orders repo) id = Some o /\ P o)
            <-> exists o, Map_get (orders repo) id = Some o /\ orderId o = id /\ P o)
    as Hid.
  { intros id P. split; intros (o & Hget & HP); exists o.
    - split; [exact Hget|]. split; [by apply (keyed_by_id _ C) | exact HP].
    - split; [exact Hget | apply HP]. }
  split; [|split; [|split; [|split]]].
  - intros side id. rewrite (byType_view _ C). apply Hid.
  - intros symbol id. rewrite (bySymbol_view _ C). apply Hid.
  - intros assetClass id. rewrite (byAssetType_view _ C). apply Hid.
  - intros id. rewrite (byDate_keys _ C). split.
    + intros Hin Hnone. by apply Map_get_None_keys in Hnone.
    + intros Hsome. apply dec_stable. intros Hnot.
      by apply Map_get_None_keys in Hnot.
  - rewrite (byDate_keys _ C). apply (keys_nodup _ C).
Qed.

(** C8.  In every reachable state a cached snapshot, if there is one,
    equals the statistics recomputed from the current maps; hence
    [getStats], whatever the clock reads, returns the statistics of the
    current state.  [save] and [clear] leave no snapshot behind. *)
Theorem stats_cache_is_current (repo : OrderRepository N) :
  reachable repo ->
  (forall cache, statsCache repo = Some cache ->
     cache_data cache = computeStats repo)
  /\ (forall now, snd (getStats repo now) = computeStats repo)
  /\ (forall order, statsCache (fst (save repo order)) = None)
  /\ statsCache (clear repo) = None.
Proof.
  intros Hreach. apply reachable_Consistent in Hreach as C.
  split; [apply (cache_current _ C)|]. split; [|split; [reflexivity|reflexivity]].
  intros now. unfold getStats.
  destruct (statsCache repo) as [cache|] eqn:Ecache; [|reflexivity].
  destruct (_ <? _)%Z; [|reflexivity].
  cbn [snd]. by apply (cache_current _ C).
Qed.
End StoreInvariant.

Section SortFacts.
Context {A : Type} (cmp : A -> A -> Z).

Lemma insertBy_perm (x : A) (l : list A) : insertBy cmp x l ≡ₚ x :: l.
Proof.
  induction l as [|y l IH]; cbn; [reflexivity|].
  destruct (cmp x y <=? 0)%Z; [reflexivity|].
  rewrite IH. apply Permutation_swap.
Qed.

Lemma Array_sort_perm (l : list A) : Array_sort cmp l ≡ₚ l.
Proof.
  induction l as [|x l IH]; cbn; [reflexivity|].
  rewrite insertBy_perm. by rewrite IH.
Qed.

(** Where the comparator relates any two elements one way or the other,
    the result is ordered: each element is followed by one it does not
    exceed. *)
Lemma insertBy_sorted (x : A) (l : list A) :
  (forall a b, (cmp a b <= 0)%Z \/ (cmp b a <= 0)%Z) ->
  Sorted (fun a b => (cmp a b <= 0)%Z) l ->
  Sorted (fun a b => (cmp a b <= 0)%Z) (insertBy cmp x l).
Proof.
  intros Htotal Hsorted. induction l as [|y l IH]; cbn.
  - repeat constructor.
  - destruct (Z.leb_spec (cmp x y) 0) as [Hle|Hgt].
    + constructor; [exact Hsorted | by constructor].
    + apply Sorted_inv in Hsorted as [Hsorted Hhd].
      constructor; [by apply IH|].
      destruct l as [|z l]; cbn.
      * constructor. destruct (Htotal x y); lia.
      * destruct (cmp x z <=? 0)%Z.
        -- constructor. destruct (Htotal x y); lia.
        -- constructor. by apply HdRel_inv in Hhd.
Qed.

Lemma Array_sort_sorted (l : list A) :
  (forall a b, (cmp a b <= 0)%Z \/ (cmp b a <= 0)%Z) ->
  Sorted (fun a b => (cmp a b <= 0)%Z) (Array_sort cmp l).
Proof.
  intros Htotal. induction l as [|x l IH]; cbn; [constructor|].
  by apply insertBy_sorted.
Qed.
End SortFacts.

Section IntersectFacts.

Lemma narrow_fold (others : list (list string)) :
  forall (result : list string) (id : string),
    id ∈ fold_left (fun result s => filter (fun id => Set_has s id = true) result)
                   others result
    <-> id ∈ result /\ forall s, s ∈ others -> id ∈ s.
Proof.
  induction others as [|s others IH]; intros result id; cbn [fold_left].
  - split; [intros ?; split; [assumption|] | tauto].
    intros s Hs. by apply elem_of_nil in Hs.
  - rewrite IH, list_elem_of_filter. unfold Set_has.
    rewrite bool_decide_eq_true. split.
    + intros [[Hs Hr] Hall]. split; [exact Hr|].
      intros s' [->|Hs']%elem_of_cons; auto.
    + intros [Hr Hall]. split; [split; [|exact Hr] |].
      * apply Hall. by left.
      * intros s' Hs'. apply Hall. by right.
Qed.

Lemma narrow_fold_NoDup (others : list (list string)) :
  forall result : list string,
    NoDup result ->
    NoDup (fold_left (fun result s => filter (fun id => Set_has s id = true) result)
                     others result).
Proof.
  induction others as [|s others IH]; intros result Hnd; cbn [fold_left];
    [exact Hnd|].
  apply IH. by apply NoDup_filter.
Qed.

Lemma intersectSets_spec (sets : list (list string)) :
  sets <> [] ->
  (forall id, id ∈ intersectSets sets <-> forall s, s ∈ sets -> id ∈ s)
  /\ (Forall NoDup sets -> NoDup (intersectSets sets)).
Proof.
  intros Hne. destruct sets as [|first [|second rest]]; [done| |].
  - cbn. split.
    + intros id. split.
      * intros Hin s Hs. by apply list_elem_of_singleton in Hs as ->.
      * intros Hall. apply Hall. by left.
    + intros Hall. by apply Forall_cons in Hall as [? _].
  - unfold intersectSets.
    set (bySize := fun a b : list string =>
                     (Z.of_nat (length a) - Z.of_nat (length b))%Z).
    set (sets := first :: second :: rest).
    pose proof (Array_sort_perm bySize sets) as Hperm.
    destruct (Array_sort bySize sets) as [|smallest others] eqn:Esorted.
    { apply Permutation_nil_l in Hperm. discriminate Hperm. }
    split.
    + intros id. rewrite narrow_fold. split.
      * intros [Hs Hall] s Hin. rewrite <- Hperm in Hin.
        apply elem_of_cons in Hin as [->|Hin]; auto.
      * intros Hall. split.
        -- apply Hall. rewrite <- Hperm. by left.
        -- intros s Hs. apply Hall. rewrite <- Hperm. by right.
    + intros Hall. apply narrow_fold_NoDup.
      rewrite <- Hperm in Hall. by apply Forall_cons in Hall as [? _].
Qed.
End IntersectFacts.

Section QueryFacts.
Context {N : Type} `{JsNumber N}.

Lemma lookupFilter_spec {K} `{EqDecision K} (index : list (K * list string))
    (key : option K) (filters filters' : list (list string)) :
  lookupFilter index key filters = Some filters' ->
  (forall id, (forall s, s ∈ filters' -> id ∈ s)
              <-> (forall s, s ∈ filters -> id ∈ s) /\ passes index key id)
  /\ (setsNoDup index -> Forall NoDup filters -> Forall NoDup filters')
  /\ (filters' = [] <-> filters = [] /\ key = None).
Proof.
  unfold lookupFilter, passes, indexed. destruct key as [k|].
  - destruct (Map_get index k) as [ids|] eqn:Eget; [|discriminate].
    intros [= <-]. split; [|split].
    + intros id. split.
      * intros Hall. split.
        -- intros s Hs. apply Hall, elem_of_app. by left.
        -- exists ids. split; [reflexivity|]. apply Hall, elem_of_app. right.
           by left.
      * intros [Hall (ids' & [= <-] & Hin)] s [Hs|Hs]%elem_of_app; [auto|].
        by apply list_elem_of_singleton in Hs as ->.
    + intros Hnd Hall. apply Forall_app. split; [exact Hall|].
      apply Forall_singleton. by eapply Hnd.
    + split; [intros Happ; by destruct filters | intros [_ [=]]].
  - intros [= <-]. split; [|split]; [intros id; tauto | auto | tauto].
Qed.

Lemma lookupFilter_None {K} `{EqDecision K} (index : list (K * list string))
    (key : option K) (filters : list (list string)) :
  lookupFilter index key filters = None
  <-> exists k, key = Some k /\ Map_get index k = None.
Proof.
  unfold lookupFilter. destruct key as [k|].
  - destruct (Map_get index k) eqn:Eget.
    + split; [discriminate | intros (k' & [= <-] & Hnone); congruence].
    + split; [eauto | reflexivity].
  - split; [discriminate | intros (k & [=] & _)].
Qed.

Lemma truthyString_id (x : option string) :
  x <> Some EmptyString -> truthyString x = x.
Proof. destruct x as [[|c s]|]; [congruence | reflexivity | reflexivity]. Qed.

Lemma collectFilters_None (repo : OrderRepository N) (params : OrderQueryParams) :
  q_symbol params <> Some EmptyString ->
  collectFilters repo params = None <-> filterAbsent repo params.
Proof.
  intros Hsym. unfold collectFilters, filterAbsent.
  rewrite (truthyString_id _ Hsym).
  destruct (lookupFilter (ordersByType repo) _ _) as [f1|] eqn:E1.
  - destruct (lookupFilter (ordersBySymbol repo) _ _) as [f2|] eqn:E2.
    + rewrite lookupFilter_None. split; [auto|].
      intros [Habs|[Habs|Habs]]; [| |exact Habs].
      * apply (lookupFilter_None _ _ []) in Habs. congruence.
      * apply (lookupFilter_None _ _ f1) in Habs. congruence.
    + apply lookupFilter_None in E2. split; [auto | reflexivity].
  - apply lookupFilter_None in E1. split; [auto | reflexivity].
Qed.

Lemma existsb_bool_decide {A} (P : A -> Prop) `{forall a, Decision (P a)}
    (l : list A) :
  existsb (fun a => bool_decide (P a)) l = true <-> exists a, a ∈ l /\ P a.
Proof.
  rewrite existsb_exists. split; intros (a & Hin & HP); exists a.
  - split; [by apply list_elem_of_In | by apply bool_decide_eq_true in HP].
  - split; [by apply list_elem_of_In | by apply bool_decide_eq_true].
Qed.

(** The candidates left by the categorical filters. *)
Lemma candidates_spec (repo : OrderRepository N) (params : OrderQueryParams)
    (filters : list (list string)) :
  Consistent repo ->
  q_symbol params <> Some EmptyString ->
  collectFilters repo params = Some filters ->
  let orderIds :=
    if (0 <? length filters)%nat then intersectSets filters
    else ordersByDate repo in
  NoDup orderIds
  /\ forall id,
       id ∈ orderIds
       <-> exists o,
             Map_get (orders repo) id = Some o
             /\ (forall side, q_orderType params = Some side -> orderType o = side)
             /\ (forall symbol, q_symbol params = Some symbol -> hasSymbol o symbol)
             /\ (forall type, q_assetType params = Some type -> hasAssetType o type).
Proof.
  intros C Hsym. unfold collectFilters. rewrite (truthyString_id _ Hsym).
  destruct (lookupFilter (ordersByType repo) _ _) as [f1|] eqn:E1; [|discriminate].
  destruct (lookupFilter (ordersBySymbol repo) _ _) as [f2|] eqn:E2; [|discriminate].
  intros E3.
  apply lookupFilter_spec in E1 as (M1 & D1 & Z1).
  apply lookupFilter_spec in E2 as (M2 & D2 & Z2).
  apply lookupFilter_spec in E3 as (M3 & D3 & Z3).
  assert (forall id, (forall s, s ∈ filters -> id ∈ s)
                     <-> passes (ordersByType repo) (q_orderType params) id
                         /\ passes (ordersBySymbol repo) (q_symbol params) id
                         /\ passes (ordersByAssetType repo) (q_assetType params) id)
    as Hall.
  { intros id. rewrite M3, M2, M1. split; [tauto|].
    intros (? & ? & ?). repeat split; try assumption.
    intros s Hs. by apply elem_of_nil in Hs. }
  assert (Forall NoDup filters) as Hnd.
  { apply D3; [apply (byAssetType_sets _ C)|].
    apply D2; [apply (bySymbol_sets _ C)|].
    apply D1; [apply (byType_sets _ C) | constructor]. }
  cbn zeta.
  destruct filters as [|first others]; cbn [length Nat.ltb Nat.leb].
  - destruct Z3 as [[-> Etype] _]; [reflexivity|].
    destruct Z2 as [[-> Esym] _]; [reflexivity|].
    destruct Z1 as [[_ Eside] _]; [reflexivity|].
    rewrite (byDate_keys _ C). split; [apply (keys_nodup _ C)|].
    intros id. split.
    + intros Hin. destruct (Map_get (orders repo) id) as [o|] eqn:Eget.
      * exists o. rewrite Eside, Esym, Etype. repeat split; intros; discriminate.
      * by apply Map_get_None_keys in Eget.
    + intros (o & Hget & _). apply dec_stable. intros Hnot.
      apply Map_get_None_keys in Hnot. congruence.
  - destruct (intersectSets_spec (first :: others)) as [Hmem Hnodup]; [done|].
    split; [by apply Hnodup|].
    intros id. rewrite Hmem, Hall. unfold passes.
    assert (q_orderType params <> None \/ q_symbol params <> None
            \/ q_assetType params <> None) as Hsome.
    { destruct (q_orderType params), (q_symbol params), (q_assetType params);
        try (left; discriminate); try (right; left; discriminate);
        try (right; right; discriminate).
      exfalso. destruct Z3 as [_ Z3]. destruct Z2 as [_ Z2]. destruct Z1 as [_ Z1].
      discriminate Z3. split; [|reflexivity]. apply Z2. split; [|reflexivity].
      by apply Z1. }
    split.
    + intros (P1 & P2 & P3).
      assert (exists o, Map_get (orders repo) id = Some o) as [o Hget].
      { destruct (q_orderType params) as [k|];
          [apply (byType_view _ C) in P1 as (o & ? & _); eauto|].
        destruct (q_symbol params) as [k|];
          [apply (bySymbol_view _ C) in P2 as (o & ? & _); eauto|].
        destruct (q_assetType params) as [k|];
          [apply (byAssetType_view _ C) in P3 as (o & ? & _); eauto|].
        destruct Hsome as [?|[?|?]]; congruence. }
      exists o. split; [exact Hget|]. split; [|split].
      * intros side Eq. rewrite Eq in P1.
        apply (byType_view _ C) in P1 as (o' & Hget' & ?). congruence.
      * intros symbol Eq. rewrite Eq in P2.
        apply (bySymbol_view _ C) in P2 as (o' & Hget' & ?). congruence.
      * intros type Eq. rewrite Eq in P3.
        apply (byAssetType_view _ C) in P3 as (o' & Hget' & ?). congruence.
    + intros (o & Hget & Q1 & Q2 & Q3). split; [|split].
      * destruct (q_orderType params) as [k|]; [|exact I].
        apply (byType_view _ C). exists o. auto.
      * destruct (q_symbol params) as [k|]; [|exact I].
        apply (bySymbol_view _ C). exists o. auto.
      * destruct (q_assetType params) as [k|]; [|exact I].
        apply (byAssetType_view _ C). exists o. auto.
Qed.
End QueryFacts.

Section QueryPage.
Context {N : Type} `{JsNumber N}.

Lemma optional_filter_iff {K} (key : option K) (test : K -> bool) (P : K -> Prop) :
  (forall k, test k = true <-> P k) ->
  match key with Some k => test k | None => true end = true
  <-> forall k, key = Some k -> P k.
Proof.
  intros Htest. destruct key as [k|].
  - rewrite Htest. split; [by intros HP k' [= <-] | eauto].
  - split; [intros _ k [=] | reflexivity].
Qed.

Lemma withinDateRange_inclusive (fromDate toDate : option Z) (o : Order N) :
  withinDateRange fromDate toDate o = true
  <-> match fromDate with Some from => (from <=? createdAt o)%Z | None => true end
      && match toDate with Some to => (createdAt o <=? to)%Z | None => true end
      = true.
Proof.
  unfold withinDateRange. destruct fromDate as [from|], toDate as [to|];
    repeat match goal with
           | |- context [(?a <? ?b)%Z] => destruct (Z.ltb_spec a b)
           | |- context [(?a <=? ?b)%Z] => destruct (Z.leb_spec a b)
           end; cbn; try lia; try tauto; split; congruence.
Qed.

Lemma matchesQuery_iff (params : OrderQueryParams) (o : Order N) :
  matchesQuery params o = true
  <-> ((forall side, q_orderType params = Some side -> orderType o = side)
       /\ (forall symbol, q_symbol params = Some symbol -> hasSymbol o symbol)
       /\ (forall type, q_assetType params = Some type -> hasAssetType o type))
      /\ withinDateRange (q_fromDate params) (q_toDate params) o = true.
Proof.
  unfold matchesQuery. rewrite withinDateRange_inclusive, !andb_true_iff.
  rewrite (optional_filter_iff (q_orderType params) _
             (fun side => orderType o = side))
    by (intros; apply bool_decide_eq_true).
  rewrite (optional_filter_iff (q_symbol params) _ (hasSymbol o))
    by (intros; apply existsb_bool_decide).
  rewrite (optional_filter_iff (q_assetType params) _ (hasAssetType o))
    by (intros; apply existsb_bool_decide).
  tauto.
Qed.

Lemma dateFiltered_spec (repo : OrderRepository N) (params : OrderQueryParams)
    (orderIds : list string) (P : Order N -> Prop) :
  NoDup orderIds ->
  (forall id, id ∈ orderIds <-> exists o, Map_get (orders repo) id = Some o /\ P o) ->
  let orderIds' :=
    if isSome (q_fromDate params) || isSome (q_toDate params)
    then filterByDateRange repo orderIds (q_fromDate params) (q_toDate params)
    else orderIds in
  NoDup orderIds'
  /\ forall id,
       id ∈ orderIds'
       <-> exists o,
             Map_get (orders repo) id = Some o
             /\ P o
             /\ withinDateRange (q_fromDate params) (q_toDate params) o = true.
Proof.
  intros Hnd Hmem. cbn zeta.
  assert (NoDup (filter
                   (fun id =>
                      match Map_get (orders repo) id with
                      | None => false
                      | Some order =>
                          withinDateRange (q_fromDate params) (q_toDate params) order
                      end = true) orderIds)
          /\ forall id,
               id ∈ filter
                      (fun id =>
                         match Map_get (orders repo) id with
                         | None => false
                         | Some order =>
                             withinDateRange (q_fromDate params) (q_toDate params)
                                             order
                         end = true) orderIds
               <-> exists o,
                     Map_get (orders repo) id = Some o
                     /\ P o
                     /\ withinDateRange (q_fromDate params) (q_toDate params) o
                        = true) as Hfiltered.
  { split; [by apply NoDup_filter|]. intros id.
    rewrite list_elem_of_filter, Hmem. split.
    - intros [Hdate (o & Hget & HP)]. rewrite Hget in Hdate. eauto.
    - intros (o & Hget & HP & Hdate). rewrite Hget. eauto. }
  unfold filterByDateRange.
  destruct (q_fromDate params) as [from|], (q_toDate params) as [to|];
    cbn [isSome orb]; try exact Hfiltered.
  split; [exact Hnd|]. intros id. rewrite Hmem. unfold withinDateRange.
  split; [intros (o & ? & ?); eauto | intros (o & ? & ? & _); eauto].
Qed.

Lemma compareDesc_total (repo : OrderRepository N) (a b : string) :
  (compareDesc repo a b <= 0)%Z \/ (compareDesc repo b a <= 0)%Z.
Proof.
  unfold compareDesc.
  destruct (Map_get (orders repo) a), (Map_get (orders repo) b); lia.
Qed.

(** Ids that all resolve, against the orders they resolve to. *)
Lemma batchGetOrders_resolved (repo : OrderRepository N) (orderIds : list string) :
  (forall id, id ∈ orderIds -> exists o, Map_get (orders repo) id = Some o) ->
  Forall2 (fun id o => Map_get (orders repo) id = Some o)
          orderIds (batchGetOrders repo orderIds).
Proof.
  induction orderIds as [|id ids IH]; intros Hall; cbn; [constructor|].
  destruct (Hall id) as [o Hget]; [by left|].
  unfold batchGetOrders in *. cbn. rewrite Hget. cbn. constructor; [exact Hget|].
  apply IH. intros id' Hin. apply Hall. by right.
Qed.

Lemma resolved_batchGetOrders (repo : OrderRepository N) (orderIds : list string)
    (found : list (Order N)) :
  Forall2 (fun id o => Map_get (orders repo) id = Some o) orderIds found ->
  batchGetOrders repo orderIds = found.
Proof.
  unfold batchGetOrders. induction 1 as [|id o ids os Hget _ IH]; cbn; [reflexivity|].
  rewrite Hget. cbn. by rewrite IH.
Qed.

Lemma resolved_sorted (repo : OrderRepository N) (orderIds : list string)
    (found : list (Order N)) :
  Forall2 (fun id o => Map_get (orders repo) id = Some o) orderIds found ->
  Sorted (fun a b => (compareDesc repo a b <= 0)%Z) orderIds ->
  Sorted newestFirst found.
Proof.
  induction 1 as [|id o ids os Hget Hrest IH]; intros Hsorted; [constructor|].
  apply Sorted_inv in Hsorted as [Hsorted Hhd].
  constructor; [by apply IH|].
  destruct Hrest as [|id' o' ids' os' Hget' _]; constructor.
  apply HdRel_inv in Hhd. unfold compareDesc in Hhd. rewrite Hget, Hget' in Hhd.
  unfold newestFirst. lia.
Qed.

Lemma stored_orders_NoDup (repo : OrderRepository N) :
  Consistent repo -> NoDup (map snd (orders repo)).
Proof.
  intros C. apply (NoDup_fmap_1 orderId).
  change (fmap orderId) with (map (orderId (N:=N))).
  replace (map orderId (map snd (orders repo))) with (map fst (orders repo));
    [apply (keys_nodup _ C)|].
  rewrite map_map. apply map_ext_in. intros [k o] Hin. cbn.
  symmetry. apply (keyed_by_id _ C).
  apply Map_get_elem_of; [apply (keys_nodup _ C) | by apply list_elem_of_In].
Qed.

Lemma stored_order_iff (repo : OrderRepository N) (o : Order N) :
  Consistent repo ->
  o ∈ map snd (orders repo) <-> Map_get (orders repo) (orderId o) = Some o.
Proof.
  intros C. split.
  - intros Hin. apply list_elem_of_In, in_map_iff in Hin as ([k o'] & Heq & Hin).
    cbn in Heq. subst o'.
    apply list_elem_of_In, (Map_get_elem_of _ _ _ (keys_nodup _ C)) in Hin.
    by rewrite (keyed_by_id _ C _ _ Hin).
  - intros Hget. apply (Map_get_elem_of _ _ _ (keys_nodup _ C)) in Hget.
    apply list_elem_of_In, in_map_iff. exists (orderId o, o).
    split; [reflexivity | by apply list_elem_of_In].
Qed.

(** What [findAll] returns when no supplied filter is absent. *)
Lemma findAll_matching (repo : OrderRepository N) (params : OrderQueryParams) :
  Consistent repo ->
  q_symbol params <> Some EmptyString ->
  ~ filterAbsent repo params ->
  exists matching,
    matching ≡ₚ filter (fun o => matchesQuery params o = true) (map snd (orders repo))
    /\ Sorted newestFirst matching
    /\ page_orders (findAll repo params)
       = take (natOr (q_limit params) 50) (drop (natOr (q_offset params) 0) matching)
    /\ page_total (findAll repo params) = length matching
    /\ page_hasMore (findAll repo params)
       = (natOr (q_offset params) 0 + natOr (q_limit params) 50 <? length matching)%nat.
Proof.
  intros C Hsym Hpresent. unfold findAll.
  destruct (collectFilters repo params) as [filters|] eqn:Efilters;
    [|exfalso; by apply Hpresent, collectFilters_None].
  destruct (candidates_spec repo params filters C Hsym Efilters) as [Hnd0 Hmem0].
  cbn zeta in Hnd0, Hmem0.
  set (orderIds0 := if (0 <? length filters)%nat then intersectSets filters
                    else ordersByDate repo) in *.
  destruct (dateFiltered_spec repo params orderIds0 _ Hnd0 Hmem0) as [Hnd1 Hmem1].
  cbn zeta in Hnd1, Hmem1.
  set (orderIds1 := if isSome (q_fromDate params) || isSome (q_toDate params)
                    then _ else orderIds0) in *.
  pose proof (Array_sort_perm (compareDesc repo) orderIds1) as Hperm.
  pose proof (Array_sort_sorted (compareDesc repo) orderIds1
                (compareDesc_total repo)) as Hsorted.
  fold (sortByDate repo orderIds1) in Hperm, Hsorted.
  set (sortedIds := sortByDate repo orderIds1) in *.
  assert (forall id, id ∈ sortedIds
                     <-> exists o, Map_get (orders repo) id = Some o
                                   /\ matchesQuery params o = true) as Hmem2.
  { intros id. rewrite Hperm, Hmem1. split.
    - intros (o & Hget & Hcat & Hdate). exists o. split; [exact Hget|].
      by apply matchesQuery_iff.
    - intros (o & Hget & Hmatch). apply matchesQuery_iff in Hmatch as [? ?]. eauto. }
  assert (Forall2 (fun id o => Map_get (orders repo) id = Some o)
                  sortedIds (batchGetOrders repo sortedIds)) as Hresolved.
  { apply batchGetOrders_resolved. intros id Hin.
    apply Hmem2 in Hin as (o & Hget & _). eauto. }
  exists (batchGetOrders repo sortedIds). cbn [page_orders page_total page_hasMore].
  assert (length sortedIds = length (batchGetOrders repo sortedIds)) as Hlen
    by (by eapply Forall2_length).
  split; [|split; [|split; [|split]]].
  - apply NoDup_Permutation.
    + apply (NoDup_fmap_1 orderId).
      replace (orderId <$> batchGetOrders repo sortedIds) with sortedIds;
        [by rewrite Hperm|].
      clear -Hresolved C. induction Hresolved as [|id o ids os Hget _ IH];
        [reflexivity|].
      cbn. rewrite (keyed_by_id _ C _ _ Hget). by rewrite <- IH.
    + apply NoDup_filter, stored_orders_NoDup, C.
    + intros o. rewrite list_elem_of_filter, (stored_order_iff _ _ C).
      unfold batchGetOrders. rewrite list_elem_of_omap. split.
      * intros (id & Hin & Hget). apply Hmem2 in Hin as (o' & Hget' & Hmatch).
        assert (o' = o) as -> by congruence.
        split; [exact Hmatch|]. by rewrite (keyed_by_id _ C _ _ Hget).
      * intros [Hmatch Hget]. exists (orderId o). split; [|exact Hget].
        apply Hmem2. eauto.
  - by eapply resolved_sorted.
  - apply resolved_batchGetOrders. by apply Forall2_take, Forall2_drop.
  - exact Hlen.
  - by rewrite Hlen.
Qed.
End QueryPage.

Section QueryTheorem.
Context {N : Type} `{JsNumber N}.

Lemma reachable_saveAll (toSave : list (Order N)) :
  forall repo : OrderRepository N,
    reachable repo ->
    NoDup (map orderId toSave) ->
    (forall o, o ∈ toSave -> Map_get (orders repo) (orderId o) = None) ->
    reachable (saveAll repo toSave).
Proof.
  induction toSave as [|o toSave IH]; intros repo Hreach Hnd Hfresh; [exact Hreach|].
  cbn in Hnd. apply NoDup_cons in Hnd as [Hnotin Hnd].
  unfold saveAll. cbn [fold_left]. apply IH; [|exact Hnd|].
  - eapply reachable_step; [exact Hreach|]. apply step_save, Hfresh. by left.
  - intros o' Hin. unfold save. cbn [fst orders].
    rewrite Map_get_set_ne; [apply Hfresh; by right|].
    intros Heq. apply Hnotin. rewrite Heq.
    apply list_elem_of_In, in_map, list_elem_of_In, Hin.
Qed.

Lemma filter_all {A} (P : A -> Prop) `{forall a, Decision (P a)} (l : list A) :
  (forall a, P a) -> filter P l = l.
Proof.
  intros HP. induction l as [|a l IH]; [reflexivity|].
  rewrite filter_cons_True by apply HP. by rewrite IH.
Qed.

End QueryTheorem.

Lemma store150_reachable : reachable store150.
Proof.
  apply reachable_saveAll; [constructor | |].
  - apply (bool_decide_eq_true_1 (NoDup _)). vm_compute. reflexivity.
  - reflexivity.
Qed.



(** The store of 150 orders, looked at through its indexes and its cache. *)
Lemma indexes_are_views_witness :
  indexed (ordersByType store150) SELL (idOf 1)
  /\ ~ indexed (ordersByType store150) BUY (idOf 1)
  /\ idOf 149 ∈ ordersByDate store150.
Proof.
  destruct (indexes_are_views store150 store150_reachable)
    as (Hside & _ & _ & Hdate & _).
  split; [|split].
  - apply Hside. exists (sampleOrder 1).
    split; [vm_compute; reflexivity | split; reflexivity].
  - intros Hin. apply Hside in Hin as (o & Hget & _ & Hbuy).
    vm_compute in Hget. injection Hget as <-. discriminate Hbuy.
  - apply Hdate. vm_compute. discriminate.
Defined.

Lemma stats_cache_is_current_witness :
  totalOrders (snd (getStats store150 0)) = 150%nat
  /\ totalOrders (snd (getStats (fst (getStats store150 0)) 59999)) = 150%nat
  /\ totalOrders
       (snd (getStats (fst (save (fst (getStats store150 0)) (sampleOrder 200))) 1))
     = 151%nat.
Proof.
  assert (reachable (fst (getStats store150 0))) as Hcached.
  { eapply reachable_step; [apply store150_reachable | apply step_getStats]. }
  assert (reachable (fst (save (fst (getStats store150 0)) (sampleOrder 200))))
    as Hsaved.
  { eapply reachable_step; [exact Hcached|]. apply step_save.
    vm_compute. reflexivity. }
  destruct (stats_cache_is_current store150 store150_reachable) as (_ & H0 & _).
  destruct (stats_cache_is_current _ Hcached) as (_ & H1 & _).
  destruct (stats_cache_is_current _ Hsaved) as (_ & H2 & _).
  rewrite H0, H1, H2. vm_compute. repeat split.
Defined.

(** * Further properties *)

(** ** The next opening of the market *)

Section CalendarFacts.
Local Open Scope Z_scope.

(** Day numbers and civil dates: counting the days of a date read off a
    day number gives the number back. *)
Lemma daysFromCivil_civilFromDays (z : Z) :
  let '(y, m, d) := civilFromDays z in daysFromCivil y m d = z.
Proof.
  unfold civilFromDays, daysFromCivil.
  set (z' := z + 719468).
  set (era := z' / 146097).
  set (doe := z' - era * 146097).
  assert (0 <= doe <= 146096) as Hdoe.
  { subst doe era. pose proof (Z.div_mod z' 146097).
    pose proof (Z.mod_pos_bound z' 146097). lia. }
  set (yoe := (doe - doe / 1460 + doe / 36524 - doe / 146096) / 365).
  assert (0 <= yoe <= 399) as Hyoe.
  { subst yoe. clearbody doe. Z.to_euclidean_division_equations. lia. }
  set (doy := doe - (365 * yoe + yoe / 4 - yoe / 100)).
  assert (0 <= doy <= 365) as Hdoy.
  { subst doy yoe. clearbody doe. Z.to_euclidean_division_equations. lia. }
  set (mp := (5 * doy + 2) / 153).
  assert (0 <= mp <= 11) as Hmp.
  { subst mp. clearbody doy. Z.to_euclidean_division_equations. lia. }
  assert (doe = doy + (365 * yoe + yoe / 4 - yoe / 100)) as Edoe by (subst doy; lia).
  clearbody mp doy yoe.
  assert (z = era * 146097 + doe - 719468) as Hz by (subst doe z'; lia).
  clearbody doe era. clear z'.
  destruct (Z.ltb_spec mp 10).
  - destruct (Z.leb_spec (mp + 3) 2); [lia|].
    destruct (Z.ltb_spec 2 (mp + 3)); [|lia].
    replace (mp + 3 - 3) with mp by lia.
    replace ((yoe + era * 400) / 400) with era
      by (Z.to_euclidean_division_equations; lia).
    replace (yoe + era * 400 - era * 400) with yoe by lia.
    lia.
  - destruct (Z.leb_spec (mp - 9) 2); [|lia].
    destruct (Z.ltb_spec 2 (mp - 9)); [lia|].
    replace (mp - 9 + 9) with mp by lia.
    replace (yoe + era * 400 + 1 - 1) with (yoe + era * 400) by lia.
    replace ((yoe + era * 400) / 400) with era
      by (Z.to_euclidean_division_equations; lia).
    replace (yoe + era * 400 - era * 400) with yoe by lia.
    lia.
Qed.

Lemma dayNumber_plusDay (t : DateTime) : dayNumber (plusDay t) = dayNumber t + 1.
Proof.
  unfold plusDay. pose proof (daysFromCivil_civilFromDays (dayNumber t + 1)) as Hrt.
  destruct (civilFromDays (dayNumber t + 1)) as [[y m] d]. exact Hrt.
Qed.

Lemma validDate_plusDay (t : DateTime) : validDate (plusDay t).
Proof.
  unfold validDate. rewrite dayNumber_plusDay. unfold plusDay.
  destruct (civilFromDays (dayNumber t + 1)) as [[y m] d]. reflexivity.
Qed.

Lemma dayNumber_setTime (t : DateTime) (h mi : Z) :
  dayNumber (setTime t h mi) = dayNumber t.
Proof. reflexivity. Qed.

Lemma validDate_setTime (t : DateTime) (h mi : Z) :
  validDate t -> validDate (setTime t h mi).
Proof. intros Ht. exact Ht. Qed.

Lemma weekday_plusDay (t : DateTime) : weekday (plusDay t) = weekday t mod 7 + 1.
Proof.
  unfold weekday. rewrite dayNumber_plusDay.
  Z.to_euclidean_division_equations. lia.
Qed.

(** Two valid dates with the same day number are the same date. *)
Lemma validDate_same_day (t u : DateTime) :
  validDate t -> validDate u -> dayNumber t = dayNumber u -> toISODate t = toISODate u.
Proof. unfold validDate. intros <- <- ->. reflexivity. Qed.

End CalendarFacts.

Section ScanFacts.
Local Open Scope Z_scope.

(** The test of the scanning loop. *)
Lemma goodDay_weekday (t : DateTime) :
  isTradingDay t = true <-> weekday t <= 5.
Proof.
  pose proof (weekday_range t) as Hr.
  unfold isTradingDay, TRADING_DAYS. cbn [existsb].
  rewrite !orb_true_iff, !Z.eqb_eq. lia.
Qed.

(** A listed holiday, by its day number. *)
Lemma isHoliday_dayNumber (t : DateTime) :
  isHoliday t = true -> dayNumber t ∈ holidayNumbers.
Proof.
  intros Hh. apply isHoliday_listed in Hh. unfold dayNumber.
  apply list_elem_of_fmap. exists (toISODate t). split; [reflexivity | exact Hh].
Qed.

Lemma isHoliday_validDate (t : DateTime) :
  validDate t ->
  isHoliday t = true <-> dayNumber t ∈ holidayNumbers.
Proof.
  intros Hv. split; [apply isHoliday_dayNumber|].
  intros Hin. apply isHoliday_listed. rewrite <- Hv.
  apply list_elem_of_fmap in Hin as (h & -> & Hh).
  apply list_elem_of_In in Hh. cbn in Hh.
  repeat (destruct Hh as [<-|Hh]; [vm_compute; apply list_elem_of_In; cbn; tauto|]).
  destruct Hh.
Qed.

Lemma closedDay_run (n : Z) :
  ~ (closedDay n /\ closedDay (n + 1) /\ closedDay (n + 2) /\ closedDay (n + 3)).
Proof.
  unfold closedDay.
  assert (forall x, x ∈ holidayNumbers
                    -> x = 20089 \/ x = 20108 \/ x = 20136 \/ x = 20196 \/ x = 20234
                       \/ x = 20258 \/ x = 20273 \/ x = 20332 \/ x = 20419 \/ x = 20447)
    as Hnum.
  { intros x Hx. apply list_elem_of_In in Hx. vm_compute in Hx. intuition lia. }
  intros (H0 & H1 & H2 & H3).
  assert (forall x, (x + 3) mod 7 + 1 > 5 \/ x ∈ holidayNumbers ->
     (x + 3) mod 7 + 1 > 5 \/ (x = 20089 \/ x = 20108 \/ x = 20136 \/ x = 20196 \/ x = 20234
                       \/ x = 20258 \/ x = 20273 \/ x = 20332 \/ x = 20419 \/ x = 20447)) as Hc.
  { intros x [?|?]; [by left | right; by apply Hnum]. }
  apply Hc in H0, H1, H2, H3. clear Hc Hnum.
  Z.to_euclidean_division_equations. lia.
Qed.
End ScanFacts.

Section ScanLoop.
Local Open Scope Z_scope.

Lemma goodDay_closedDay (t : DateTime) :
  goodDay t = false -> closedDay (dayNumber t).
Proof.
  unfold goodDay, closedDay. intros [Hd|Hh]%andb_false_iff.
  - left. pose proof (goodDay_weekday t) as Hw. unfold weekday in Hw.
    destruct (isTradingDay t); [discriminate|]. 
    destruct (Z_le_gt_dec ((dayNumber t + 3) mod 7 + 1) 5) as [Hle|Hgt]; [|exact Hgt].
    apply Hw in Hle. discriminate Hle.
  - right. apply negb_false_iff in Hh. by apply isHoliday_dayNumber.
Qed.

Lemma closedDay_goodDay (t : DateTime) :
  validDate t -> closedDay (dayNumber t) -> goodDay t = false.
Proof.
  unfold goodDay, closedDay. intros Hv [Hd|Hh].
  - apply andb_false_iff. left. apply not_true_iff_false. intros Ht.
    apply goodDay_weekday in Ht. unfold weekday in Ht. lia.
  - apply andb_false_iff. right. apply negb_false_iff. by apply isHoliday_validDate.
Qed.

Lemma goodDay_same_day (t u : DateTime) :
  validDate t -> validDate u -> dayNumber t = dayNumber u -> goodDay u = goodDay t.
Proof.
  intros Ht Hu Hn. unfold goodDay, isTradingDay, isHoliday, weekday.
  by rewrite (validDate_same_day t u Ht Hu Hn), Hn.
Qed.

Lemma scanTradingDay_step (left : nat) (current : DateTime) :
  scanTradingDay (S left) current
  = if goodDay current then current else scanTradingDay left (nextDayOpen current).
Proof. reflexivity. Qed.

Lemma dayNumber_nextDayOpen (t : DateTime) : dayNumber (nextDayOpen t) = dayNumber t + 1.
Proof. unfold nextDayOpen. by rewrite dayNumber_setTime, dayNumber_plusDay. Qed.

Lemma validDate_nextDayOpen (t : DateTime) : validDate (nextDayOpen t).
Proof. apply validDate_setTime, validDate_plusDay. Qed.

Lemma msOfDay_nextDayOpen (t : DateTime) : msOfDay (nextDayOpen t) = 34200000.
Proof. reflexivity. Qed.

(** The scan, started on any day with at least four attempts left: it stops
    on the first day that is a trading day and not a holiday, at most three
    days on, and the days it passes over are closed. *)
Lemma scanTradingDay_finds (left : nat) (current : DateTime) :
  (4 <= left)%nat ->
  let found := scanTradingDay left current in
  goodDay found = true
  /\ dayNumber current <= dayNumber found <= dayNumber current + 3
  /\ (forall n, dayNumber current <= n < dayNumber found -> closedDay n)
  /\ (dayNumber found = dayNumber current -> found = current)
  /\ (dayNumber current < dayNumber found -> validDate found /\ msOfDay found = 34200000).
Proof.
  intros Hleft. destruct left as [|[|[|[|left]]]]; try lia. clear Hleft. cbn zeta.
  pose proof (closedDay_run (dayNumber current)) as Hrun.
  set (d1 := nextDayOpen current). set (d2 := nextDayOpen d1). set (d3 := nextDayOpen d2).
  pose proof (dayNumber_nextDayOpen current) as E1. fold d1 in E1.
  pose proof (dayNumber_nextDayOpen d1) as E2. fold d2 in E2.
  pose proof (dayNumber_nextDayOpen d2) as E3. fold d3 in E3.
  pose proof (validDate_nextDayOpen current) as V1. fold d1 in V1.
  pose proof (validDate_nextDayOpen d1) as V2. fold d2 in V2.
  pose proof (validDate_nextDayOpen d2) as V3. fold d3 in V3.
  rewrite scanTradingDay_step.
  destruct (goodDay current) eqn:G0.
  { repeat split; try lia; try done. }
  apply goodDay_closedDay in G0. fold d1. rewrite scanTradingDay_step.
  destruct (goodDay d1) eqn:G1.
  { repeat split; try lia; try done.
    intros n Hn. assert (n = dayNumber current) as -> by lia. exact G0. }
  apply goodDay_closedDay in G1. rewrite E1 in G1. fold d2. rewrite scanTradingDay_step.
  destruct (goodDay d2) eqn:G2.
  { repeat split; try lia; try done.
    intros n Hn.
    assert (n = dayNumber current \/ n = dayNumber current + 1) as [->| ->] by lia;
      assumption. }
  apply goodDay_closedDay in G2. rewrite E2, E1 in G2.
  replace (dayNumber current + 1 + 1) with (dayNumber current + 2) in G2 by lia.
  fold d3.
  rewrite scanTradingDay_step.
  destruct (goodDay d3) eqn:G3.
  { repeat split; try lia; try done.
    intros n Hn.
    assert (n = dayNumber current \/ n = dayNumber current + 1
            \/ n = dayNumber current + 2) as [->|[->| ->]] by lia; assumption. }
  apply goodDay_closedDay in G3. rewrite E3, E2, E1 in G3.
  replace (dayNumber current + 1 + 1 + 1) with (dayNumber current + 3) in G3 by lia.
  exfalso. apply Hrun. repeat split; assumption.
Qed.

Lemma isMarketOpen_goodDay (t : DateTime) :
  isMarketOpen t = goodDay t && isWithinTradingHours t.
Proof.
  unfold isMarketOpen, goodDay.
  by destruct (isTradingDay t), (isHoliday t), (isWithinTradingHours t).
Qed.

Lemma goodDay_setTime (t : DateTime) (h mi : Z) : goodDay (setTime t h mi) = goodDay t.
Proof. reflexivity. Qed.

(** What [getNextTradingTime] answers off hours. *)
Lemma getNextTradingTime_closed (t : DateTime) :
  isMarketOpen t = false ->
  let next := getNextTradingTime t in
  goodDay next = true /\ msOfDay next = 34200000
  /\ ((msOfDay t < 34200000 /\ goodDay t = true /\ dayNumber next = dayNumber t
       /\ toISODate next = toISODate t)
      \/ (~ (msOfDay t < 34200000 /\ goodDay t = true)
          /\ validDate next
          /\ dayNumber t + 1 <= dayNumber next <= dayNumber t + 4
          /\ forall n, dayNumber t + 1 <= n < dayNumber next -> closedDay n)).
Proof.
  intros Hclosed. unfold getNextTradingTime. rewrite Hclosed. cbn zeta.
  unfold getNextMarketOpen.
  assert ((valueOf t <? valueOf (setTime t MARKET_OPEN_HOUR MARKET_OPEN_MINUTE))
          = (msOfDay t <? 34200000)) as ->.
  { unfold valueOf. rewrite dayNumber_setTime.
    change (msOfDay (setTime t MARKET_OPEN_HOUR MARKET_OPEN_MINUTE)) with 34200000.
    destruct (Z.ltb_spec (msOfDay t) 34200000), (Z.ltb_spec (dayNumber t * 86400000 + msOfDay t) (dayNumber t * 86400000 + 34200000)); lia. }
  rewrite <- andb_assoc. fold (goodDay t).
  destruct ((msOfDay t <? 34200000) && goodDay t) eqn:Ecase.
  - apply andb_true_iff in Ecase as [Hms Hgood]. apply Z.ltb_lt in Hms.
    unfold maxAttempts. rewrite scanTradingDay_step, goodDay_setTime, Hgood.
    split; [by rewrite goodDay_setTime|]. split; [reflexivity|]. left. done.
  - fold (nextDayOpen t).
    destruct (scanTradingDay_finds maxAttempts (nextDayOpen t))
      as (Hgood & Hrange & Hskipped & Hsame & Hlater); [unfold maxAttempts; lia|].
    rewrite dayNumber_nextDayOpen in Hrange, Hskipped, Hsame, Hlater.
    split; [exact Hgood|].
    assert (validDate (scanTradingDay maxAttempts (nextDayOpen t))
            /\ msOfDay (scanTradingDay maxAttempts (nextDayOpen t)) = 34200000)
      as [Hvalid Hms].
    { destruct (Z.eq_dec (dayNumber (scanTradingDay maxAttempts (nextDayOpen t)))
                         (dayNumber t + 1)) as [E|E].
      - rewrite (Hsame E). split; [apply validDate_nextDayOpen | reflexivity].
      - apply Hlater. lia. }
    split; [exact Hms|]. right.
    split.
    { intros [Hms' Hgood']. apply Z.ltb_lt in Hms'. rewrite Hms', Hgood' in Ecase.
      discriminate Ecase. }
    split; [exact Hvalid|]. split; [lia | exact Hskipped].
Qed.

(** Four attempts are as good as any larger number: the fallback of the
    scan is out of reach. *)
Lemma scanTradingDay_attempts (left : nat) (current : DateTime) :
  (4 <= left)%nat -> scanTradingDay left current = scanTradingDay 4 current.
Proof.
  intros Hleft. destruct left as [|[|[|[|left]]]]; try lia. clear Hleft.
  pose proof (closedDay_run (dayNumber current)) as Hrun.
  rewrite !scanTradingDay_step.
  set (d1 := nextDayOpen current). set (d2 := nextDayOpen d1). set (d3 := nextDayOpen d2).
  pose proof (dayNumber_nextDayOpen current) as E1. fold d1 in E1.
  pose proof (dayNumber_nextDayOpen d1) as E2. fold d2 in E2.
  pose proof (dayNumber_nextDayOpen d2) as E3. fold d3 in E3.
  destruct (goodDay current) eqn:G0; [reflexivity|].
  apply goodDay_closedDay in G0.
  destruct (goodDay d1) eqn:G1; [reflexivity|].
  apply goodDay_closedDay in G1. rewrite E1 in G1.
  destruct (goodDay d2) eqn:G2; [reflexivity|].
  apply goodDay_closedDay in G2. rewrite E2, E1 in G2.
  replace (dayNumber current + 1 + 1) with (dayNumber current + 2) in G2 by lia.
  destruct (goodDay d3) eqn:G3; [reflexivity|].
  apply goodDay_closedDay in G3. rewrite E3, E2, E1 in G3.
  replace (dayNumber current + 1 + 1 + 1) with (dayNumber current + 3) in G3 by lia.
  exfalso. apply Hrun. repeat split; assumption.
Qed.

Lemma isMarketOpen_at_open (t : DateTime) :
  goodDay t = true -> msOfDay t = 34200000 -> isMarketOpen t = true.
Proof.
  intros Hgood Hms. rewrite isMarketOpen_goodDay, Hgood. cbn.
  apply isWithinTradingHours_interval. lia.
Qed.

Lemma getNextTradingTime_lands_open (t : DateTime) :
  isMarketOpen (getNextTradingTime t) = true.
Proof.
  destruct (isMarketOpen t) eqn:Hopen.
  - unfold getNextTradingTime. by rewrite Hopen.
  - destruct (getNextTradingTime_closed t Hopen) as (Hgood & Hms & _).
    by apply isMarketOpen_at_open.
Qed.
End ScanLoop.

Section NextTradingTime.
Local Open Scope Z_scope.

Lemma validTime_msOfDay (t : DateTime) : validTime t -> 0 <= msOfDay t < 86400000.
Proof. unfold validTime, msOfDay. lia. Qed.

Lemma isMarketOpen_hours (t : DateTime) :
  ~ (34200000 <= msOfDay t < 57600000) -> isMarketOpen t = false.
Proof.
  intros Hout. rewrite isMarketOpen_goodDay. apply andb_false_iff. right.
  apply not_true_iff_false. intros Hin.
  apply isWithinTradingHours_interval in Hin. lia.
Qed.

Lemma isMarketOpen_closedDay (t : DateTime) :
  validDate t -> closedDay (dayNumber t) -> isMarketOpen t = false.
Proof.
  intros Hv Hc. rewrite isMarketOpen_goodDay, (closedDay_goodDay t Hv Hc). reflexivity.
Qed.

(** X1.  Whatever the instant, the market is open at the instant
    [getNextTradingTime] answers; the answer lies on the same day or at most
    four days later; asking again from the answer gives the answer back; and
    when the market is closed, any number of attempts from four on gives the
    same answer as the thirty of the code, so that the fallback to the next
    Monday is never taken. *)
Theorem getNextTradingTime_lands_on_open_market (t : DateTime) :
  isMarketOpen (getNextTradingTime t) = true
  /\ dayNumber t <= dayNumber (getNextTradingTime t) <= dayNumber t + 4
  /\ getNextTradingTime (getNextTradingTime t) = getNextTradingTime t
  /\ (isMarketOpen t = false ->
      forall attempts, (4 <= attempts)%nat ->
        scanTradingDay attempts (getNextMarketOpen t) = getNextTradingTime t).
Proof.
  pose proof (getNextTradingTime_lands_open t) as Hopen.
  split; [exact Hopen|]. split; [|split].
  - destruct (isMarketOpen t) eqn:Hnow.
    + unfold getNextTradingTime. rewrite Hnow. lia.
    + destruct (getNextTradingTime_closed t Hnow) as (_ & _ & [Hsame|Hlater]).
      * destruct Hsame as (_ & _ & -> & _). lia.
      * destruct Hlater as (_ & _ & Hrange & _). lia.
  - unfold getNextTradingTime at 1. by rewrite Hopen.
  - intros Hnow attempts Hattempts. unfold getNextTradingTime. rewrite Hnow.
    rewrite (scanTradingDay_attempts attempts) by exact Hattempts.
    rewrite (scanTradingDay_attempts maxAttempts) by (unfold maxAttempts; lia).
    reflexivity.
Qed.

(** X2.  For a valid local date and time [t], the answer of
    [getNextTradingTime] is not earlier than [t], and it is the earliest
    opening: the market is closed at every valid local date and time from
    [t] up to, and not including, the answer. *)
Theorem getNextTradingTime_is_earliest (t : DateTime) :
  validDate t -> validTime t ->
  notBefore t (getNextTradingTime t)
  /\ forall u, validDate u -> validTime u ->
       notBefore t u -> valueOf u < valueOf (getNextTradingTime t) ->
       isMarketOpen u = false.
Proof.
  intros Hvd Hvt. apply validTime_msOfDay in Hvt. unfold notBefore.
  destruct (isMarketOpen t) eqn:Hnow.
  { unfold getNextTradingTime. rewrite Hnow. split; [lia|]. intros; lia. }
  destruct (getNextTradingTime_closed t Hnow) as (Hgood & Hms & Hcases).
  set (next := getNextTradingTime t) in *. clearbody next.
  unfold valueOf. rewrite Hms.
  destruct Hcases as [(Hearly & Hgt & Hday & _)|(Hnot & Hvn & Hrange & Hskipped)].
  - rewrite Hday. split; [lia|].
    intros u Hud Hut Hfrom Hbefore. apply validTime_msOfDay in Hut.
    apply isMarketOpen_hours. lia.
  - split; [lia|].
    intros u Hud Hut Hfrom Hbefore. apply validTime_msOfDay in Hut.
    destruct (Z.eq_dec (dayNumber u) (dayNumber t)) as [Esame|Eother].
    + destruct (goodDay t) eqn:Hgt.
      * apply isMarketOpen_hours.
        rewrite isMarketOpen_goodDay, Hgt in Hnow. cbn in Hnow.
        assert (~ (34200000 <= msOfDay t < 57600000)) as Hout.
        { intros Hin. apply isWithinTradingHours_interval in Hin. congruence. }
        assert (~ msOfDay t < 34200000) by tauto. lia.
      * rewrite isMarketOpen_goodDay, (goodDay_same_day t u Hvd Hud), Hgt by done.
        reflexivity.
    + destruct (Z.eq_dec (dayNumber u) (dayNumber next)) as [Elast|Emid].
      * apply isMarketOpen_hours. lia.
      * apply isMarketOpen_closedDay; [exact Hud|]. apply Hskipped. lia.
Qed.

(** The evening before Independence Day 2025: the answer is the Monday
    after, and at ten o'clock on the holiday the market is closed. *)
Lemma getNextTradingTime_is_earliest_witness :
  notBefore (mkDateTime 2025 7 3 17 0 0 0)
            (getNextTradingTime (mkDateTime 2025 7 3 17 0 0 0))
  /\ isMarketOpen (mkDateTime 2025 7 4 10 0 0 0) = false.
Proof.
  destruct (getNextTradingTime_is_earliest (mkDateTime 2025 7 3 17 0 0 0))
    as [Hlater Hclosed].
  - reflexivity.
  - unfold validTime. cbn. lia.
  - split; [exact Hlater|]. apply Hclosed.
    + reflexivity.
    + unfold validTime. cbn. lia.
    + unfold notBefore. vm_compute. discriminate.
    + vm_compute. reflexivity.
Defined.

Lemma scanToMonday_spec (turns : nat) :
  forall next : DateTime,
    (8 - weekday next) mod 7 <= Z.of_nat turns ->
    let monday := scanToMonday turns next in
    weekday monday = 1
    /\ dayNumber monday = dayNumber next + (8 - weekday next) mod 7
    /\ msOfDay monday = msOfDay next.
Proof.
  induction turns as [|turns IH]; intros next Hturns; cbn zeta;
    pose proof (weekday_range next) as Hr.
  - cbn [scanToMonday].
    assert (weekday next = 1) as E by (Z.to_euclidean_division_equations; lia).
    rewrite E. repeat split. change ((8 - 1) mod 7) with 0. lia.
  - cbn [scanToMonday]. destruct (Z.eqb_spec (weekday next) 1) as [E|E].
    + rewrite E. repeat split. change ((8 - 1) mod 7) with 0. lia.
    + pose proof (weekday_plusDay next) as Hw. pose proof (dayNumber_plusDay next) as Hd.
      destruct (IH (plusDay next)) as (H1 & H2 & H3).
      { rewrite Hw. Z.to_euclidean_division_equations. lia. }
      split; [exact H1|]. split.
      * rewrite H2, Hd, Hw. Z.to_euclidean_division_equations. lia.
      * rewrite H3. unfold plusDay. by destruct (civilFromDays _) as [[? ?] ?].
Qed.

(** X3.  [getNextMonday] answers a Monday at 09:30: the day itself when it
    is a Monday (whatever the time of day), the coming Monday otherwise.
    The loop of the source, which has no bound, ends within six turns. *)
Theorem getNextMonday_is_a_monday (current : DateTime) :
  let monday := getNextMonday current in
  weekday monday = 1
  /\ hour monday = 9 /\ minute monday = 30 /\ second monday = 0
  /\ millisecond monday = 0
  /\ dayNumber monday = dayNumber current + (8 - weekday current) mod 7
  /\ forall turns, (6 <= turns)%nat ->
       scanToMonday turns current = scanToMonday 6 current.
Proof.
  pose proof (weekday_range current) as Hr.
  assert ((8 - weekday current) mod 7 <= 6) as Hsix
    by (Z.to_euclidean_division_equations; lia).
  destruct (scanToMonday_spec 7 current) as (Hw & Hd & _); [lia|].
  cbn zeta. unfold getNextMonday.
  split; [exact Hw|]. repeat (split; [reflexivity|]).
  split; [exact Hd|].
  intros turns Hturns.
  assert (forall fuel (next : DateTime),
            (8 - weekday next) mod 7 <= Z.of_nat fuel ->
            forall more, scanToMonday (fuel + more) next = scanToMonday fuel next)
    as Hmore.
  { induction fuel as [|fuel IH]; intros next Hfuel more;
      pose proof (weekday_range next) as Hrn.
    - assert (weekday next = 1) as E by (Z.to_euclidean_division_equations; lia).
      destruct more; cbn [Nat.add scanToMonday]; [reflexivity|]. by rewrite E.
    - cbn [Nat.add scanToMonday]. destruct (Z.eqb_spec (weekday next) 1); [reflexivity|].
      apply IH. rewrite weekday_plusDay. Z.to_euclidean_division_equations. lia. }
  replace turns with (6 + (turns - 6))%nat by lia. apply Hmore. exact Hsix.
Qed.

(** X4.  The market status reports a next opening exactly when the market
    is closed, and the market is open at the opening it reports. *)
Theorem getMarketStatus_next_open (now : DateTime) :
  let status := getMarketStatus now in
  status_isOpen status = isMarketOpen now
  /\ status_currentTime status = now
  /\ (status_isOpen status = true -> status_nextOpenTime status = None)
  /\ (status_isOpen status = false ->
      exists nextOpen, status_nextOpenTime status = Some nextOpen
        /\ isMarketOpen nextOpen = true
        /\ nextOpen <> now).
Proof.
  cbn zeta. unfold getMarketStatus. cbn [status_isOpen status_currentTime status_nextOpenTime].
  split; [reflexivity|]. split; [reflexivity|]. split.
  - intros ->. reflexivity.
  - intros Hclosed. rewrite Hclosed. eexists. split; [reflexivity|].
    pose proof (getNextTradingTime_lands_open now) as Hopen.
    split; [exact Hopen|]. intros E. rewrite E in Hopen. congruence.
Qed.
End NextTradingTime.

(** ** Creating and looking up orders *)

Section EngineLines.
Context {N : Type} `{JsNumber N}.

Lemma assetOrdersFrom_symbols (len : nat) (T : N) (prec : Z)
    (rest : list (PortfolioAsset N)) :
  forall (i : nat) (acc : N),
    map ao_symbol (assetOrdersFrom len T prec i rest acc) = map pa_symbol rest.
Proof.
  induction rest as [|asset rest IH]; intros i acc; cbn [assetOrdersFrom map];
    [reflexivity|].
  rewrite IH. reflexivity.
Qed.

Lemma assetOrdersFrom_shares (len : nat) (T : N) (prec : Z)
    (rest : list (PortfolioAsset N)) :
  forall (i : nat) (acc : N),
    Forall (fun o => ao_shares o = roundToDecimal (ao_amount o / ao_price o)%js prec)
           (assetOrdersFrom len T prec i rest acc).
Proof.
  induction rest as [|asset rest IH]; intros i acc; cbn [assetOrdersFrom];
    constructor; [reflexivity | apply IH].
Qed.

(** The dollar amounts of the lines do not depend on the precision. *)
Lemma assetOrdersFrom_amounts (len : nat) (T : N) (prec prec' : Z)
    (rest : list (PortfolioAsset N)) :
  forall (i : nat) (acc : N),
    map ao_amount (assetOrdersFrom len T prec i rest acc)
    = map ao_amount (assetOrdersFrom len T prec' i rest acc).
Proof.
  induction rest as [|asset rest IH]; intros i acc; cbn [assetOrdersFrom map];
    [reflexivity|].
  assert (ao_amount (assetOrderAt len T prec i asset acc)
          = ao_amount (assetOrderAt len T prec' i asset acc)) as E by reflexivity.
  rewrite E, IH. reflexivity.
Qed.

End EngineLines.

Section CreateOrderFacts.
Context {N : Type} `{JsNumber N}.

Lemma Map_size_set_fresh {K V} `{EqDecision K} (m : list (K * V)) (k : K) (v : V) :
  Map_get m k = None -> Map_size (Map_set m k v) = S (Map_size m).
Proof.
  intros Hfresh. unfold Map_size. rewrite (Map_set_fresh m k v Hfresh), length_app.
  cbn. lia.
Qed.

(** X6.  When [createOrder] returns, the order it returns is the one the
    store now holds under the fresh id, and nothing else in the store has
    changed; the order carries the side of the request, the configured
    precision and a portfolio that passed validation, with one line per
    asset; and it is scheduled at an instant at which the market is open:
    the market time itself when the market is open, the next trading time
    otherwise, which is then also reported as the next available time. *)
Theorem createOrder_stores_a_scheduled_order
    (repo : OrderRepository N) (config : ConfigRepository) (marketTime : DateTime)
    (uuid : string) (now : Z) (request : CreateOrderRequest N)
    (repo' : OrderRepository N) (order : Order N) :
  createOrder repo config marketTime uuid now request = Return (repo', order) ->
  findById repo' uuid = Some order
  /\ (forall id, id <> uuid -> findById repo' id = findById repo id)
  /\ (findById repo uuid = None -> count repo' = S (count repo))
  /\ (reachable repo -> findById repo uuid = None -> reachable repo')
  /\ orderId order = uuid
  /\ orderType order = req_orderType request
  /\ createdAt order = now
  /\ decimalPrecision order = getDecimalPrecision config
  /\ validatePortfolio (portfolio order) = Return ()
  /\ map ao_symbol (assetOrders order) = map pa_symbol (portfolio order)
  /\ canExecuteNow order = isMarketOpen marketTime
  /\ executionTime order = getNextTradingTime marketTime
  /\ isMarketOpen (executionTime order) = true
  /\ nextAvailableTime order
     = (if canExecuteNow order then None else Some (executionTime order)).
Proof.
  unfold createOrder.
  destruct (prepareOrderData request) as [prepared|e]; [|discriminate].
  destruct (validatePortfolio (po_normalizedAssets prepared)) as [[]|e] eqn:Hvalid;
    [|discriminate].
  cbn zeta.
  set (lines := fst (calculateAssetOrders (po_normalizedAssets prepared)
                       (po_totalAmount prepared) (getDecimalPrecision config))).
  assert (map ao_symbol lines = map pa_symbol (po_normalizedAssets prepared)) as Hlines.
  { subst lines. unfold calculateAssetOrders. cbn [fst].
    apply assetOrdersFrom_symbols. }
  assert ((if isMarketOpen marketTime then marketTime
           else getNextTradingTime marketTime) = getNextTradingTime marketTime)
    as Hexec.
  { destruct (isMarketOpen marketTime) eqn:E; [|reflexivity].
    unfold getNextTradingTime. by rewrite E. }
  intros [= <- <-]. unfold findById, count, save.
  cbn [fst orders orderId orderType createdAt decimalPrecision portfolio assetOrders
       canExecuteNow executionTime nextAvailableTime].
  split; [apply Map_get_set_eq|].
  split; [intros id Hne; by apply Map_get_set_ne|].
  split; [apply Map_size_set_fresh|].
  split.
  { intros Hreach Hfresh.
    eapply reachable_step; [exact Hreach|].
    match goal with
    | |- step _ ?r =>
        match r with
        | context [Map_set (orders repo) uuid ?o] =>
            change r with (fst (save repo o))
        end
    end.
    apply step_save. exact Hfresh. }
  repeat (split; [reflexivity|]).
  split; [exact Hvalid|]. split; [exact Hlines|]. split; [reflexivity|].
  split; [exact Hexec|]. split.
  - rewrite Hexec. apply getNextTradingTime_lands_open.
  - rewrite Hexec. unfold getNextTradingTime. by destruct (isMarketOpen marketTime).
Qed.

(** X27.  The precision [setDecimalPrecision] stores is the one the next
    [createOrder] works with: the order records it and the units of every
    line are rounded to it.  After [reset] the same request is accepted
    again, at the default precision 3, with the same dollar amounts on its
    lines: the precision bears on the units and the costs only. *)
Theorem createOrder_rounds_units_to_the_configured_precision
    (repo : OrderRepository N) (config : ConfigRepository) (marketTime : DateTime)
    (uuid : string) (now : Z) (request : CreateOrderRequest N)
    (precision updatedAt : Z) (repo' : OrderRepository N) (order : Order N) :
  createOrder repo (fst (setDecimalPrecision config precision updatedAt))
              marketTime uuid now request = Return (repo', order) ->
  snd (setDecimalPrecision config precision updatedAt) = (precision, updatedAt)
  /\ decimalPrecision order = precision
  /\ Forall (fun line =>
               ao_shares line
               = roundToDecimal (ao_amount line / ao_price line)%js precision)
            (assetOrders order)
  /\ forall resetAt, exists repo3 order3,
       createOrder repo
         (resetConfig (fst (setDecimalPrecision config precision updatedAt)) resetAt)
         marketTime uuid now request = Return (repo3, order3)
       /\ decimalPrecision order3 = 3%Z
       /\ map ao_amount (assetOrders order3) = map ao_amount (assetOrders order).
Proof.
  unfold createOrder.
  destruct (prepareOrderData request) as [prepared|e]; [|discriminate].
  destruct (validatePortfolio (po_normalizedAssets prepared)) as [[]|e] eqn:Hvalid;
    [|discriminate].
  cbn zeta. intros [= <- <-].
  cbn [fst snd setDecimalPrecision getDecimalPrecisionConfig getDecimalPrecision
       resetConfig cfg_decimalPrecision cfg_lastUpdated decimalPrecision assetOrders].
  split; [reflexivity|]. split; [reflexivity|]. split.
  - unfold calculateAssetOrders. cbn [fst]. apply assetOrdersFrom_shares.
  - intros resetAt. eexists _, _. split; [reflexivity|].
    cbn [snd decimalPrecision assetOrders]. split; [reflexivity|].
    unfold calculateAssetOrders. cbn [fst]. apply assetOrdersFrom_amounts.
Qed.

Lemma getAssetTypeCounts_fold (assets : list (PortfolioAsset N)) (type : AssetType) :
  forall counts : list (AssetType * nat),
    (forall t, Map_get counts t <> Some 0%nat) ->
    let counts' :=
      fold_left
        (fun counts asset =>
           match pa_type asset with
           | Some type => Map_set counts type (natOr (Map_get counts type) 0 + 1)%nat
           | None => counts
           end) assets counts in
    (forall t, Map_get counts' t <> Some 0%nat)
    /\ natOr (Map_get counts' type) 0
       = (natOr (Map_get counts type) 0
          + length (filter (fun a => pa_type a = Some type) assets))%nat.
Proof.
  induction assets as [|a assets IH]; intros counts Hpos; cbn zeta; cbn [fold_left].
  - split; [exact Hpos|]. cbn. lia.
  - destruct (pa_type a) as [t|] eqn:Et.
    + destruct (IH (Map_set counts t (natOr (Map_get counts t) 0 + 1)%nat))
        as [IHpos IHcount].
      { intros t'. destruct (decide (t = t')) as [<-|Hne].
        - rewrite Map_get_set_eq. intros [= E]. lia.
        - rewrite (Map_get_set_ne _ _ _ _ Hne). apply Hpos. }
      split; [exact IHpos|]. cbn zeta in IHcount. rewrite IHcount.
      destruct (decide (t = type)) as [->|Hne].
      * rewrite Map_get_set_eq, filter_cons_True by (by rewrite Et).
        cbn [natOr length]. destruct (natOr (Map_get counts type) 0 + 1)%nat eqn:E; lia.
      * rewrite (Map_get_set_ne _ _ _ _ Hne), filter_cons_False; [reflexivity|].
        rewrite Et. congruence.
    + destruct (IH counts Hpos) as [IHpos IHcount].
      split; [exact IHpos|]. cbn zeta in IHcount. rewrite IHcount.
      rewrite filter_cons_False; [reflexivity|]. rewrite Et. discriminate.
Qed.

(** X7.  [getAssetTypeCounts] counts, for each asset class, the assets of
    the portfolio that carry it: a class no asset carries has no entry, and
    any other class is listed with the number of its assets.  Assets
    without a class are not counted. *)
Theorem getAssetTypeCounts_counts_each_class
    (assets : list (PortfolioAsset N)) (type : AssetType) :
  let n := length (filter (fun a => pa_type a = Some type) assets) in
  Map_get (getAssetTypeCounts assets) type = (if (0 <? n)%nat then Some n else None).
Proof.
  cbn zeta. unfold getAssetTypeCounts.
  destruct (getAssetTypeCounts_fold assets type []) as [Hpos Hcount];
    [intros t; discriminate|].
  cbn zeta in Hpos, Hcount. cbn [Map_get natOr Nat.add] in Hcount.
  specialize (Hpos type).
  destruct (Map_get _ type) as [[|k]|]; cbn [natOr] in Hcount.
  - congruence.
  - rewrite <- Hcount. reflexivity.
  - rewrite <- Hcount. reflexivity.
Qed.
End CreateOrderFacts.

(** The README request on a Thursday morning, and on a Saturday. *)
Lemma createOrder_stores_a_scheduled_order_witness :
  (exists repo' order,
     createOrder (N:=float) newRepository (newConfigRepository 0)
       (mkDateTime 2025 1 23 10 0 0 0) "order-1" 1
       (mkRequest BUY (Some 10000%float) scenarioA)
     = Return (repo', order)
     /\ findById repo' "order-1" = Some order
     /\ executionTime order = mkDateTime 2025 1 23 10 0 0 0)
  /\ (exists repo' order,
        createOrder (N:=float) newRepository (newConfigRepository 0)
          (mkDateTime 2025 1 25 10 0 0 0) "order-1" 1
          (mkRequest BUY (Some 10000%float) scenarioA)
        = Return (repo', order)
        /\ isMarketOpen (executionTime order) = true
        /\ nextAvailableTime order = Some (mkDateTime 2025 1 27 9 30 0 0)).
Proof.
  split.
  - destruct (createOrder (N:=float) newRepository (newConfigRepository 0)
                (mkDateTime 2025 1 23 10 0 0 0) "order-1" 1
                (mkRequest BUY (Some 10000%float) scenarioA))
      as [[repo' order]|e] eqn:E; [|vm_compute in E; discriminate E].
    exists repo', order. split; [reflexivity|].
    destruct (createOrder_stores_a_scheduled_order _ _ _ _ _ _ _ _ E)
      as (Hfound & _ & _ & _ & _ & _ & _ & _ & _ & _ & _ & Hexec & _).
    split; [exact Hfound|]. rewrite Hexec. reflexivity.
  - destruct (createOrder (N:=float) newRepository (newConfigRepository 0)
                (mkDateTime 2025 1 25 10 0 0 0) "order-1" 1
                (mkRequest BUY (Some 10000%float) scenarioA))
      as [[repo' order]|e] eqn:E; [|vm_compute in E; discriminate E].
    exists repo', order. split; [reflexivity|].
    destruct (createOrder_stores_a_scheduled_order _ _ _ _ _ _ _ _ E)
      as (_ & _ & _ & _ & _ & _ & _ & _ & _ & _ & Hcan & Hexec & Hopen & Hnext).
    split; [exact Hopen|]. rewrite Hnext, Hcan, Hexec. reflexivity.
Defined.

(** The README request at two decimals. *)
Lemma createOrder_rounds_units_to_the_configured_precision_witness :
  exists repo' order,
    createOrder (N:=float) newRepository
      (fst (setDecimalPrecision (newConfigRepository 0) 2 5))
      (mkDateTime 2025 1 23 10 0 0 0) "order-1" 1
      (mkRequest BUY (Some 10000%float) scenarioA)
    = Return (repo', order)
    /\ decimalPrecision order = 2%Z.
Proof.
  destruct (createOrder (N:=float) newRepository
              (fst (setDecimalPrecision (newConfigRepository 0) 2 5))
              (mkDateTime 2025 1 23 10 0 0 0) "order-1" 1
              (mkRequest BUY (Some 10000%float) scenarioA))
    as [[repo' order]|e] eqn:E; [|vm_compute in E; discriminate E].
  exists repo', order. split; [reflexivity|].
  exact (proj1 (proj2 (createOrder_rounds_units_to_the_configured_precision
                         _ _ _ _ _ _ _ _ _ _ E))).
Defined.

Section Lookups.
Context {N : Type} `{JsNumber N}.

(** X8.  [findByIdOrThrow] returns the order the store holds under the id
    and throws OrderNotFoundError (status 404, code ORDER_NOT_FOUND, naming
    the id) when it holds none: after [save] the order is found under its
    id and the other ids answer as before; after [clear] every id is
    unknown; in a reachable store an order found under an id bears it. *)
Theorem findByIdOrThrow_finds_or_throws (repo : OrderRepository N) (id : string) :
  (forall order, findByIdOrThrow (fst (save repo order)) (orderId order) = inr order)
  /\ (forall order, id <> orderId order ->
        findByIdOrThrow (fst (save repo order)) id = findByIdOrThrow repo id)
  /\ findByIdOrThrow (clear repo) id = inl (OrderNotFoundError id)
  /\ (findById repo id = None <-> findByIdOrThrow repo id = inl (OrderNotFoundError id))
  /\ (forall e, findByIdOrThrow repo id = inl e ->
        err_statusCode e = 404%Z /\ err_code e = "ORDER_NOT_FOUND"%string
        /\ err_details e = DetailsOrderId id /\ err_isOperational e = true)
  /\ (reachable repo -> forall order,
        findByIdOrThrow repo id = inr order -> orderId order = id).
Proof.
  unfold findByIdOrThrow, findById, save. cbn [fst orders].
  split; [intros order; by rewrite Map_get_set_eq|].
  split; [intros order Hne; by rewrite Map_get_set_ne|].
  split; [reflexivity|]. split; [|split].
  - destruct (Map_get (orders repo) id); split; congruence.
  - intros e. destruct (Map_get (orders repo) id); [discriminate|].
    intros [= <-]. repeat split.
  - intros Hreach order. destruct (Map_get (orders repo) id) as [o|] eqn:Hget;
      [|discriminate].
    intros [= <-]. apply reachable_Consistent in Hreach.
    by apply (keyed_by_id _ Hreach).
Qed.
End Lookups.

(** ** Rounding, costs and the amount mode in exact arithmetic *)

Section ExactRounding.
Local Open Scope Q_scope.

Ltac q_ops :=
  cbn [num_of_Z num_add num_sub num_mul num_div Math_abs Math_round
       num_ltb num_leb num_eqb num_is_nan num_finite Q_JsNumber] in *.

Lemma pow10_pos (d : Z) : (0 <= d)%Z -> 0 < inject_Z (10 ^ d).
Proof.
  intros Hd. change 0 with (inject_Z 0). rewrite <- Zlt_Qlt.
  apply Z.pow_pos_nonneg; lia.
Qed.

Lemma Qfloor_unique (z : Q) (n : Z) :
  inject_Z n <= z -> z < inject_Z n + 1 -> Qfloor z = n.
Proof.
  intros Hlo Hhi. pose proof (Qfloor_le z) as Flo. pose proof (Qlt_floor z) as Fhi.
  rewrite inject_Z_plus in Fhi. change (inject_Z 1) with 1 in Fhi.
  assert (inject_Z (Qfloor z) < inject_Z n + 1) as H1 by lra.
  assert (inject_Z n < inject_Z (Qfloor z) + 1) as H2 by lra.
  change 1 with (inject_Z 1) in H1, H2. rewrite <- inject_Z_plus in H1, H2.
  rewrite <- Zlt_Qlt in H1, H2. lia.
Qed.

(** [roundToDecimal x d] is [F / 10^d] for the integer [F] with
    [F <= x * 10^d + 1/2 < F + 1]. *)
Lemma roundToDecimal_floor (x : Q) (d : Z) :
  let M := inject_Z (10 ^ d) in
  let F := inject_Z (Qfloor (x * M + (1 # 2))) in
  roundToDecimal x d = F / M /\ F <= x * M + (1 # 2) /\ x * M + (1 # 2) < F + 1.
Proof.
  cbn zeta. split; [reflexivity|]. split; [apply Qfloor_le|].
  pose proof (Qlt_floor (x * inject_Z (10 ^ d) + (1 # 2))) as Hhi.
  rewrite inject_Z_plus in Hhi. exact Hhi.
Qed.

Lemma roundToDecimal_close (x : Q) (d : Z) :
  (0 <= d)%Z ->
  x - 1 / (2 * inject_Z (10 ^ d)) < roundToDecimal x d
  /\ roundToDecimal x d <= x + 1 / (2 * inject_Z (10 ^ d)).
Proof.
  intros Hd. pose proof (pow10_pos d Hd) as HM.
  destruct (roundToDecimal_floor x d) as (-> & Hlo & Hhi). cbn zeta in *.
  set (M := inject_Z (10 ^ d)) in *. set (F := inject_Z (Qfloor _)) in *.
  clearbody F M.
  assert (0 < / M) as Hinv by (by apply Qinv_lt_0_compat).
  assert (F / M == F * / M) as -> by reflexivity.
  assert (1 / (2 * M) == (1 # 2) * / M) as -> by (field; lra).
  assert (x == (x * M) * / M) as Ex by (field; lra).
  set (y := x * M) in *. clearbody y. rewrite Ex.
  split.
  - assert ((y - (1 # 2)) * / M < F * / M) as Hm
      by (apply Qmult_lt_compat_r; [exact Hinv | lra]).
    lra.
  - assert (F * / M <= (y + (1 # 2)) * / M) as Hm
      by (apply Qmult_le_compat_r; [lra | lra]).
    lra.
Qed.

Lemma roundToDecimal_Qabs (x : Q) (d : Z) :
  (0 <= d)%Z -> Qabs (roundToDecimal x d - x) <= 1 / (2 * inject_Z (10 ^ d)).
Proof.
  intros Hd. destruct (roundToDecimal_close x d Hd) as [Hlo Hhi].
  apply Qabs_Qle_condition. split; lra.
Qed.

#[local] Instance roundToDecimal_Proper (d : Z) :
  Proper (Qeq ==> Qeq) (fun x => roundToDecimal x d).
Proof.
  intros x y Hxy. unfold roundToDecimal, Math_pow10. q_ops. unfold Q_round.
  rewrite Hxy. reflexivity.
Qed.

Lemma roundToDecimal_Qeq (x y : Q) (d : Z) :
  x == y -> roundToDecimal x d == roundToDecimal y d.
Proof. intros Hxy. by apply (roundToDecimal_Proper d). Qed.

(** X9.  In exact arithmetic, for a non-negative number of decimals,
    [roundToDecimal x d] is a whole multiple of 10^-d, lies within half
    such a unit of [x], and a tie goes up (the bound is strict below, not
    above): it rounds half up, not half to even.  Rounding twice is rounding
    once. *)
Theorem roundToDecimal_rounds_half_up (x : Q) (d : Z) :
  (0 <= d)%Z ->
  let unit := 1 / inject_Z (10 ^ d) in
  (exists k : Z, roundToDecimal x d == inject_Z k * unit)
  /\ x - unit / 2 < roundToDecimal x d
  /\ roundToDecimal x d <= x + unit / 2
  /\ (forall k : Z, roundToDecimal (inject_Z k * unit + unit / 2) d
                    == inject_Z (k + 1) * unit)
  /\ roundToDecimal (roundToDecimal x d) d == roundToDecimal x d.
Proof.
  intros Hd. cbn zeta. pose proof (pow10_pos d Hd) as HM.
  destruct (roundToDecimal_close x d Hd) as [Hlo Hhi].
  assert (forall k : Z, roundToDecimal (inject_Z k / inject_Z (10 ^ d)) d
                        == inject_Z k / inject_Z (10 ^ d)) as Hfix.
  { intros k. destruct (roundToDecimal_floor (inject_Z k / inject_Z (10 ^ d)) d)
      as (-> & _). cbn zeta.
    rewrite (Qfloor_unique _ k); [reflexivity | |].
    - assert (inject_Z k / inject_Z (10 ^ d) * inject_Z (10 ^ d) == inject_Z k)
        as -> by (field; lra). lra.
    - assert (inject_Z k / inject_Z (10 ^ d) * inject_Z (10 ^ d) == inject_Z k)
        as -> by (field; lra). lra. }
  split; [|split; [|split; [|split]]].
  - destruct (roundToDecimal_floor x d) as (-> & _). cbn zeta.
    exists (Qfloor (x * inject_Z (10 ^ d) + (1 # 2))). field. lra.
  - assert (1 / inject_Z (10 ^ d) / 2 == 1 / (2 * inject_Z (10 ^ d))) as ->
      by (field; lra). exact Hlo.
  - assert (1 / inject_Z (10 ^ d) / 2 == 1 / (2 * inject_Z (10 ^ d))) as ->
      by (field; lra). exact Hhi.
  - intros k.
    destruct (roundToDecimal_floor
                (inject_Z k * (1 / inject_Z (10 ^ d)) + 1 / inject_Z (10 ^ d) / 2) d)
      as (-> & _). cbn zeta.
    rewrite (Qfloor_unique _ (k + 1)).
    + field. lra.
    + rewrite inject_Z_plus. change (inject_Z 1) with 1.
      assert ((inject_Z k * (1 / inject_Z (10 ^ d)) + 1 / inject_Z (10 ^ d) / 2)
              * inject_Z (10 ^ d) == inject_Z k + (1 # 2)) as -> by (field; lra).
      lra.
    + rewrite inject_Z_plus. change (inject_Z 1) with 1.
      assert ((inject_Z k * (1 / inject_Z (10 ^ d)) + 1 / inject_Z (10 ^ d) / 2)
              * inject_Z (10 ^ d) == inject_Z k + (1 # 2)) as -> by (field; lra).
      lra.
  - destruct (roundToDecimal_floor x d) as (E & _). cbn zeta in E.
    rewrite E. apply Hfix.
Qed.

(** 0.125 to two decimals is 0.13, and 2.5 to none is 3. *)
Lemma roundToDecimal_rounds_half_up_witness :
  roundToDecimal (1 # 8) 2 == 13 # 100 /\ roundToDecimal (5 # 2) 0 == 3.
Proof.
  destruct (roundToDecimal_rounds_half_up (1 # 8) 2) as (_ & _ & _ & Htie2 & _); [lia|].
  destruct (roundToDecimal_rounds_half_up (5 # 2) 0) as (_ & _ & _ & Htie0 & _); [lia|].
  split.
  - rewrite <- (Htie2 12%Z). reflexivity.
  - rewrite <- (Htie0 2%Z). reflexivity.
Defined.
End ExactRounding.

Section ExactEngine.
Local Open Scope Q_scope.

Ltac q_ops :=
  cbn [num_of_Z num_add num_sub num_mul num_div Math_abs Math_round
       num_ltb num_leb num_eqb num_is_nan num_finite Q_JsNumber] in *.

Lemma sumQ_close {A} (f g s : A -> Q) (l : list A) :
  Forall (fun a => Qabs (f a - g a) <= s a) l ->
  Qabs (sumQ (map f l) - sumQ (map g l)) <= sumQ (map s l).
Proof.
  induction 1 as [|a l Ha _ IH]; cbn [map sumQ].
  - apply Qabs_Qle_condition. lra.
  - apply Qabs_Qle_condition in Ha as [Ha1 Ha2].
    apply Qabs_Qle_condition in IH as [IH1 IH2].
    apply Qabs_Qle_condition. lra.
Qed.

(** The price of a line is positive when the asset names no price, or a
    price that is not negative. *)
Lemma effective_price_pos (a : PortfolioAsset Q) :
  (forall p, pa_price a = Some p -> 0 <= p) ->
  0 < or_default (pa_price a) (num_of_Z 100).
Proof.
  intros Hp. unfold or_default, truthy. destruct (pa_price a) as [p|]; [|reflexivity].
  specialize (Hp p eq_refl). q_ops. rewrite andb_true_r.
  destruct (Qeq_bool p (inject_Z 0)) eqn:E; cbn [negb]; [reflexivity|].
  apply Qeq_bool_neq in E. change (inject_Z 0) with 0 in E.
  destruct (Qlt_le_dec 0 p) as [?|Hle]; [assumption|].
  exfalso. apply E. lra.
Qed.

Lemma line_cost_close (o : AssetOrder Q) (prec : Z) :
  (0 <= prec)%Z -> 0 < ao_price o ->
  ao_shares o = roundToDecimal (ao_amount o / ao_price o)%js prec ->
  ao_totalCost o = roundToDecimal (ao_shares o * ao_price o)%js 2 ->
  Qabs (ao_totalCost o - ao_amount o) <= costSlack prec o.
Proof.
  intros Hprec Hprice Hshares Hcost. unfold costSlack. q_ops.
  pose proof (pow10_pos prec Hprec) as HM.
  destruct (roundToDecimal_close (ao_amount o / ao_price o) prec Hprec) as [Hs1 Hs2].
  destruct (roundToDecimal_close (ao_shares o * ao_price o) 2) as [Hc1 Hc2]; [lia|].
  rewrite <- Hshares in Hs1, Hs2. rewrite <- Hcost in Hc1, Hc2.
  change (1 / (2 * inject_Z (10 ^ 2))) with (1 # 200) in Hc1, Hc2.
  set (h := 1 / (2 * inject_Z (10 ^ prec))) in *.
  assert (ao_price o / (2 * inject_Z (10 ^ prec)) == h * ao_price o) as ->
    by (subst h; field; lra).
  assert (ao_amount o == ao_amount o / ao_price o * ao_price o) as Ea
    by (field; lra).
  set (q := ao_amount o / ao_price o) in *.
  assert ((q - h) * ao_price o < ao_shares o * ao_price o) as Hm1
    by (apply Qmult_lt_compat_r; assumption).
  assert (ao_shares o * ao_price o <= (q + h) * ao_price o) as Hm2
    by (apply Qmult_le_compat_r; lra).
  apply Qabs_Qle_condition. rewrite Ea.
  set (sp := ao_shares o * ao_price o) in *.
  set (c := ao_totalCost o) in *. set (p := ao_price o) in *.
  clearbody sp c p q h. lra.
Qed.

Lemma assetOrdersFrom_cost_close (len : nat) (T : Q) (prec : Z)
    (rest : list (PortfolioAsset Q)) :
  (0 <= prec)%Z ->
  Forall (fun a => forall p, pa_price a = Some p -> 0 <= p) rest ->
  forall (i : nat) (acc : Q),
    Forall (fun o => Qabs (ao_totalCost o - ao_amount o) <= costSlack prec o)
           (assetOrdersFrom len T prec i rest acc).
Proof.
  intros Hprec. induction 1 as [|a rest Ha _ IH]; intros i acc;
    cbn [assetOrdersFrom]; constructor; [|apply IH].
  apply line_cost_close; [exact Hprec | | reflexivity | reflexivity].
  by apply effective_price_pos.
Qed.

(** X10.  In exact arithmetic, with prices that are not negative and a
    non-negative precision, the cost of each line is within
    price / (2 * 10^precision) + 0.005 of its dollar amount, and the costs
    add up to within the sum of these slacks of the requested total. *)
Theorem cost_drift_is_bounded (first : PortfolioAsset Q)
    (others : list (PortfolioAsset Q)) (total : Q) (prec : Z) :
  (0 <= prec)%Z ->
  Forall (fun a => forall p, pa_price a = Some p -> 0 <= p) (first :: others) ->
  let orders := fst (calculateAssetOrders (first :: others) total prec) in
  Forall (fun o => Qabs (ao_totalCost o - ao_amount o) <= costSlack prec o) orders
  /\ Qabs (sumOrders ao_totalCost orders - total) <= sumQ (map (costSlack prec) orders).
Proof.
  intros Hprec Hprices. cbn zeta.
  pose proof (amounts_sum_exact first others total prec) as Hsum.
  rewrite sumOrders_sumQ in Hsum.
  assert (Forall (fun o => Qabs (ao_totalCost o - ao_amount o) <= costSlack prec o)
                 (fst (calculateAssetOrders (first :: others) total prec))) as Hlines.
  { unfold calculateAssetOrders. cbn [fst]. by apply assetOrdersFrom_cost_close. }
  split; [exact Hlines|].
  pose proof (sumQ_close ao_totalCost ao_amount (costSlack prec) _ Hlines) as Hclose.
  pose proof (sumOrders_sumQ ao_totalCost
                (fst (calculateAssetOrders (first :: others) total prec))) as Hcost.
  apply Qabs_Qle_condition in Hclose as [H1 H2]. apply Qabs_Qle_condition.
  lra.
Qed.

(** The README request: the slack of the BTC line, priced 45000 with three
    decimals of a unit, is 22.505, and its cost is 15 above its amount. *)
Lemma cost_drift_is_bounded_witness :
  let orders := fst (calculateAssetOrders (N:=Q) scenarioA (inject_Z 10000) 3) in
  Qabs (sumOrders ao_totalCost orders - inject_Z 10000)
  <= sumQ (map (costSlack 3) orders)
  /\ sumQ (map (costSlack 3) orders) == 2362 # 100.
Proof.
  cbn zeta. split; [|vm_compute; reflexivity].
  refine (proj2 (cost_drift_is_bounded _ _ (inject_Z 10000) 3 _ _)); [lia|].
  repeat (constructor; [intros p [= <-]; vm_compute; discriminate || (intros p Hp; discriminate Hp) |]).
  constructor.
Defined.
End ExactEngine.

Section ExactAmountMode.
Local Open Scope Q_scope.

Ltac q_ops :=
  cbn [num_of_Z num_add num_sub num_mul num_div Math_abs Math_round
       num_ltb num_leb num_eqb num_is_nan num_finite Q_JsNumber] in *.

Lemma positive_amounts_total (assets : list (PortfolioAsset Q)) :
  Forall (fun a => exists d, pa_amount a = Some d /\ 0 < d) assets ->
  0 <= sumQ (map suppliedAmount assets)
  /\ (assets <> [] -> 0 < sumQ (map suppliedAmount assets)).
Proof.
  induction 1 as [|a l (d & Hd & Hpos) _ [IH _]]; cbn [map sumQ].
  - split; [lra | congruence].
  - unfold suppliedAmount at 1 3. rewrite Hd. split; [lra | intros _; lra].
Qed.

(** The percentage [prepareOrderData] derives for an asset, before rounding. *)
Lemma derived_percentages_sum (T : Q) (assets : list (PortfolioAsset Q)) :
  T == sumQ (map suppliedAmount assets) -> ~ T == 0 ->
  sumQ (map (fun a => suppliedAmount a / T * 100) assets) == 100.
Proof.
  intros HT HT0.
  assert (forall l : list (PortfolioAsset Q),
            sumQ (map (fun a => suppliedAmount a / T * 100) l)
            == sumQ (map suppliedAmount l) / T * 100) as Hlin.
  { induction l as [|a l IH]; cbn [map sumQ]; [field; exact HT0|].
    rewrite IH. field. exact HT0. }
  rewrite Hlin, <- HT. field. exact HT0.
Qed.

Lemma normalizedAsset_allocation (T : Q) (a : PortfolioAsset Q) :
  suppliedAllocation (normalizedAsset T a)
  == roundToDecimal (suppliedAmount a / T * 100) 2.
Proof.
  unfold suppliedAllocation, normalizedAsset. cbn [pa_allocation].
  apply roundToDecimal_Qeq. q_ops. rewrite or_default_amount. reflexivity.
Qed.

Lemma normalized_total_allocation (T : Q) (assets : list (PortfolioAsset Q)) :
  sumOr0 pa_allocation (map (normalizedAsset T) assets)
  == sumQ (map (fun a => roundToDecimal (suppliedAmount a / T * 100) 2) assets).
Proof.
  rewrite totalAllocation_sum, map_map. apply sumQ_map_ext.
  intros a. apply normalizedAsset_allocation.
Qed.

Lemma sumQ_const {A} (f : A -> Q) (c : Q) (l : list A) :
  Forall (fun a => f a == c) l ->
  sumQ (map f l) == inject_Z (Z.of_nat (length l)) * c.
Proof.
  induction 1 as [|a l Ha _ IH]; cbn [map sumQ length].
  - change (inject_Z (Z.of_nat 0)) with 0. ring.
  - rewrite Nat2Z.inj_succ, <- Z.add_1_r, inject_Z_plus, IH, Ha.
    change (inject_Z 1) with 1. ring.
Qed.

(** X11.  In exact arithmetic, for an amount-mode request whose amounts are
    all positive, the percentages [prepareOrderData] derives add up to
    within 0.005 times the number of assets of 100; with one or two assets
    they therefore pass the sum test of [validatePortfolio].  At binary64
    the test is made on rounded numbers: amounts of 1 and 19999 give the
    percentages 0.01 and 100, and the request is refused, 100.01 - 100
    being computed as slightly more than 0.01. *)
Theorem amount_mode_percentages_sum :
  (forall (side : OrderType) (first : PortfolioAsset Q)
          (others : list (PortfolioAsset Q)),
     Forall (fun a => exists d, pa_amount a = Some d /\ 0 < d) (first :: others) ->
     exists prepared,
       prepareOrderData (mkRequest side None (first :: others)) = Return prepared
       /\ po_mode prepared = amount_mode
       /\ Qabs (sumOr0 pa_allocation (po_normalizedAssets prepared) - 100)
          <= inject_Z (Z.of_nat (S (length others))) * (1 # 200)
       /\ ((length others <= 1)%nat ->
           forall details,
             validatePortfolio (po_normalizedAssets prepared)
             <> Throw (InvalidPortfolioError AllocationsMustSumTo100 details)))
  /\ (let request :=
        mkRequest (N:=float) BUY None [amountOf "AAA" 1; amountOf "BBB" 19999] in
      isSome (createOrderSchema request) = true
      /\ exists prepared,
           prepareOrderData request = Return prepared
           /\ map pa_allocation (po_normalizedAssets prepared)
              = [Some 0.01%float; Some 100%float]
           /\ validatePortfolio (po_normalizedAssets prepared)
              = Throw (InvalidPortfolioError AllocationsMustSumTo100
                         (TotalAllocation 100.01%float))).
Proof.
  split; [|cbn zeta; split; [reflexivity|]; eexists; split; [reflexivity|];
           vm_compute; split; reflexivity].
  intros side first others Hpos.
  assert (exists d, pa_amount first = Some d) as [d Hd].
  { apply Forall_cons in Hpos as [(d & Hd & _) _]. eauto. }
  set (assets := first :: others) in *.
  set (T := sumOr0 pa_amount assets).
  assert (T == sumQ (map suppliedAmount assets)) as HT.
  { subst T. rewrite sumOr0_sumQ. apply sumQ_map_ext, or_default_amount. }
  destruct (positive_amounts_total assets Hpos) as [_ HTpos].
  specialize (HTpos ltac:(done)). rewrite <- HT in HTpos.
  eexists. split; [exact (prepareOrderData_amount_mode side first others d Hd)|].
  cbn [po_mode po_totalAmount po_normalizedAssets]. fold assets. fold T.
  split; [reflexivity|].
  assert (Qabs (sumOr0 pa_allocation (map (normalizedAsset T) assets) - 100)
          <= inject_Z (Z.of_nat (S (length others))) * (1 # 200)) as Hbound.
  { rewrite normalized_total_allocation.
    rewrite <- (derived_percentages_sum T assets HT) by lra.
    pose proof (sumQ_close
                  (fun a => roundToDecimal (suppliedAmount a / T * 100) 2)
                  (fun a => suppliedAmount a / T * 100)
                  (fun _ => 1 # 200) assets) as Hclose.
    rewrite (sumQ_const (fun _ : PortfolioAsset Q => 1 # 200) (1 # 200)) in Hclose
      by (apply Forall_forall; reflexivity).
    apply Hclose. apply Forall_forall. intros a _.
    apply (roundToDecimal_2_close (suppliedAmount a / T * 100)). }
  split; [exact Hbound|].
  intros Hfew details Hthrow.
  destruct (validatePortfolio_decision (map (normalizedAsset T) assets))
    as (Hzero & Hfar & Hok).
  cbn zeta in Hzero, Hfar, Hok.
  destruct (filter (fun a => isZeroAllocation a = true) (map (normalizedAsset T) assets))
    as [|z zs] eqn:Ezero.
  - destruct (Math_abs (sumOr0 pa_allocation (map (normalizedAsset T) assets)
                        - num_of_Z 100) >? lit_0_01)%js eqn:Efar.
    + apply (deviation_test (map (normalizedAsset T) assets)) in Efar.
      rewrite <- totalAllocation_sum in Efar.
      assert (inject_Z (Z.of_nat (S (length others))) * (1 # 200) <= 1 # 100) as Hn.
      { destruct others as [|b [|c others]]; cbn in Hfew; try lia; vm_compute;
          discriminate. }
      lra.
    + rewrite (Hok eq_refl eq_refl) in Hthrow. discriminate Hthrow.
  - rewrite Hzero in Hthrow by discriminate. discriminate Hthrow.
Qed.

(** Amounts of 1000 and 2000: the derived percentages 33.33 and 66.67 add up
    to 100. *)
Lemma amount_mode_percentages_sum_witness :
  exists prepared,
    prepareOrderData (N:=Q)
      (mkRequest BUY None [amountOf "AAA" 1000; amountOf "BBB" 2000])
    = Return prepared
    /\ Qabs (sumOr0 pa_allocation (po_normalizedAssets prepared) - 100) <= 1 # 100.
Proof.
  destruct (proj1 amount_mode_percentages_sum BUY (amountOf "AAA" 1000)
              [amountOf "BBB" 2000])
    as (prepared & Hprep & _ & Hbound & _).
  - repeat (constructor; [eexists; split; reflexivity |]). constructor.
  - exists prepared. split; [exact Hprep|].
    eapply Qle_trans; [exact Hbound|]. vm_compute. discriminate.
Defined.

Lemma belowHalfBasisPoint_lt (T : Q) (a : PortfolioAsset Q) :
  belowHalfBasisPoint T a = true <-> suppliedAmount a * 20000 < T.
Proof.
  unfold belowHalfBasisPoint. rewrite negb_true_iff, <- not_true_iff_false, Qle_bool_iff.
  split; [apply Qnot_le_lt | apply Qlt_not_le].
Qed.

Lemma roundToDecimal_2_zero (x : Q) :
  0 <= x -> (roundToDecimal x 2 == 0 <-> x < 1 # 200).
Proof.
  intros Hx. destruct (roundToDecimal_floor x 2) as (-> & Hlo & Hhi). cbn zeta in *.
  change (inject_Z (10 ^ 2)) with 100 in *.
  set (F := Qfloor (x * 100 + (1 # 2))) in *. split.
  - intros Hzero.
    assert (inject_Z F == 0) as HF.
    { assert (inject_Z F == inject_Z F / 100 * 100) as -> by field.
      rewrite Hzero. ring. }
    lra.
  - intros Hsmall.
    assert (F = 0%Z) as ->; [|reflexivity].
    apply Qfloor_unique; change (inject_Z 0) with 0; lra.
Qed.

Lemma isZeroAllocation_normalizedAsset (T : Q) (a : PortfolioAsset Q) :
  0 < T -> 0 <= suppliedAmount a ->
  isZeroAllocation (normalizedAsset T a) = belowHalfBasisPoint T a.
Proof.
  intros HT Ha. apply eq_true_iff_eq.
  rewrite isZeroAllocation_iff, belowHalfBasisPoint_lt. unfold hasZeroAllocation.
  pose proof (normalizedAsset_allocation T a) as Halloc.
  unfold suppliedAllocation in Halloc.
  assert (0 <= suppliedAmount a / T * 100) as Hx.
  { assert (0 <= suppliedAmount a * / T) by (apply Qmult_le_0_compat;
      [exact Ha | apply Qlt_le_weak, Qinv_lt_0_compat, HT]).
    unfold Qdiv. lra. }
  assert (suppliedAmount a / T * 100 < 1 # 200 <-> suppliedAmount a * 20000 < T)
    as Hscale.
  { assert (suppliedAmount a * 20000 == suppliedAmount a / T * 100 * (200 * T)) as ->
      by (field; lra).
    split; intros Hlt.
    - assert (suppliedAmount a / T * 100 * (200 * T) < (1 # 200) * (200 * T)) as Hm
        by (apply Qmult_lt_compat_r; lra).
      lra.
    - destruct (Qlt_le_dec (suppliedAmount a / T * 100) (1 # 200)) as [?|Hge];
        [assumption|].
      assert ((1 # 200) * (200 * T) <= suppliedAmount a / T * 100 * (200 * T)) as Hm
        by (apply Qmult_le_compat_r; lra).
      lra. }
  rewrite <- Hscale, <- (roundToDecimal_2_zero _ Hx).
  destruct (pa_allocation (normalizedAsset T a)) as [p|] eqn:Ep.
  - rewrite <- Halloc. split; [intros (y & [= <-] & Hy); exact Hy | eauto].
  - discriminate Ep.
Qed.

Lemma filter_map_normalized (T : Q) (assets : list (PortfolioAsset Q)) :
  0 < T -> Forall (fun a => 0 <= suppliedAmount a) assets ->
  filter (fun a => isZeroAllocation a = true) (map (normalizedAsset T) assets)
  = map (normalizedAsset T) (filter (fun a => belowHalfBasisPoint T a = true) assets).
Proof.
  intros HT. induction 1 as [|a l Ha _ IH]; [reflexivity|]. cbn [map].
  pose proof (isZeroAllocation_normalizedAsset T a HT Ha) as E.
  destruct (belowHalfBasisPoint T a) eqn:Eb.
  - rewrite !filter_cons_True by assumption. cbn [map]. by rewrite IH.
  - rewrite !filter_cons_False by congruence. exact IH.
Qed.

(** X12.  In exact arithmetic, an amount-mode request whose amounts are all
    positive is refused for a zero allocation exactly when some asset's
    amount is less than 0.005 percent of the total (its percentage rounds to
    0.00), and the error then names the symbols of exactly those assets, in
    the order of the request. *)
Theorem amount_mode_small_asset_is_refused (side : OrderType)
    (first : PortfolioAsset Q) (others : list (PortfolioAsset Q)) :
  Forall (fun a => exists d, pa_amount a = Some d /\ 0 < d) (first :: others) ->
  let assets := first :: others in
  let total := sumQ (map suppliedAmount assets) in
  let small := filter (fun a => belowHalfBasisPoint total a = true) assets in
  exists prepared,
    prepareOrderData (mkRequest side None assets) = Return prepared
    /\ po_totalAmount prepared == total
    /\ (forall a, a ∈ small <-> a ∈ assets /\ suppliedAmount a * 20000 < total)
    /\ (small <> [] ->
        validatePortfolio (po_normalizedAssets prepared)
        = Throw (InvalidPortfolioError ZeroAllocationAssets
                   (ZeroSymbols (map pa_symbol small))))
    /\ (small = [] ->
        forall details,
          validatePortfolio (po_normalizedAssets prepared)
          <> Throw (InvalidPortfolioError ZeroAllocationAssets details)).
Proof.
  intros Hpos. cbn zeta.
  assert (exists d, pa_amount first = Some d) as [d Hd].
  { apply Forall_cons in Hpos as [(d & Hd & _) _]. eauto. }
  set (assets := first :: others) in *.
  set (T := sumOr0 pa_amount assets).
  assert (T == sumQ (map suppliedAmount assets)) as HT.
  { subst T. rewrite sumOr0_sumQ. apply sumQ_map_ext, or_default_amount. }
  destruct (positive_amounts_total assets Hpos) as [_ HTpos].
  specialize (HTpos ltac:(done)). rewrite <- HT in HTpos.
  assert (Forall (fun a => 0 <= suppliedAmount a) assets) as Hnonneg.
  { eapply Forall_impl; [exact Hpos|]. intros a (x & Hx & Hx0).
    unfold suppliedAmount. rewrite Hx. lra. }
  assert (forall a, belowHalfBasisPoint (sumQ (map suppliedAmount assets)) a
                    = belowHalfBasisPoint T a) as Hsame.
  { intros a. apply eq_true_iff_eq. rewrite !belowHalfBasisPoint_lt, HT. reflexivity. }
  assert (filter (fun a => belowHalfBasisPoint (sumQ (map suppliedAmount assets)) a = true)
                 assets
          = filter (fun a => belowHalfBasisPoint T a = true) assets) as Hfilter.
  { apply list_filter_iff. intros a. by rewrite Hsame. }
  eexists. split; [exact (prepareOrderData_amount_mode side first others d Hd)|].
  cbn [po_mode po_totalAmount po_normalizedAssets]. fold assets. fold T.
  split; [exact HT|]. split.
  { intros a. rewrite list_elem_of_filter, belowHalfBasisPoint_lt. tauto. }
  rewrite Hfilter.
  destruct (validatePortfolio_decision (map (normalizedAsset T) assets))
    as (Hzero & Hfar & Hok).
  cbn zeta in Hzero, Hfar, Hok.
  rewrite (filter_map_normalized T assets HTpos Hnonneg) in Hzero, Hfar, Hok.
  split.
  - intros Hsmall. rewrite Hzero.
    + by rewrite map_map.
    + destruct (filter (fun a => belowHalfBasisPoint T a = true) assets);
        [congruence | discriminate].
  - intros Hnone details. rewrite Hnone in Hfar, Hok. cbn [map] in Hfar, Hok.
    destruct (Math_abs (sumOr0 pa_allocation (map (normalizedAsset T) assets)
                        - num_of_Z 100) >? lit_0_01)%js.
    + rewrite (Hfar eq_refl eq_refl). discriminate.
    + rewrite (Hok eq_refl eq_refl). discriminate.
Qed.

(** One dollar beside a hundred thousand: the percentage of the first asset
    rounds to 0.00 and the request is refused, naming it. *)
Lemma amount_mode_small_asset_is_refused_witness :
  exists prepared,
    prepareOrderData (N:=Q)
      (mkRequest BUY None [amountOf "PENNY" 1; amountOf "WHALE" 100000])
    = Return prepared
    /\ validatePortfolio (po_normalizedAssets prepared)
       = Throw (InvalidPortfolioError ZeroAllocationAssets (ZeroSymbols ["PENNY"%string])).
Proof.
  destruct (amount_mode_small_asset_is_refused BUY (amountOf "PENNY" 1)
              [amountOf "WHALE" 100000])
    as (prepared & Hprep & _ & _ & Hsmall & _).
  - repeat (constructor; [eexists; split; reflexivity |]). constructor.
  - exists prepared. split; [exact Hprep|]. apply Hsmall. discriminate.
Defined.

Lemma filter_none {A} (P : A -> Prop) `{forall a, Decision (P a)} (l : list A) :
  Forall (fun a => ~ P a) l -> filter P l = [].
Proof.
  induction 1 as [|a l Ha _ IH]; [reflexivity|].
  by rewrite filter_cons_False.
Qed.

(** X13.  In exact arithmetic, whether a request of [n] equal positive
    amounts (at most 200 assets) passes validation depends on [n] alone:
    every asset gets the percentage round(100 / n, 2), and the request
    passes exactly when [n] times that percentage is within 0.01 of 100.
    So three equal amounts pass in exact arithmetic (99.99 is exactly 0.01
    short) and six are refused (100.02).  At binary64 three amounts of 100
    are refused too: 100 - 99.99 is computed as slightly more than 0.01. *)
Theorem equal_amounts_validation :
  (forall (side : OrderType) (first : PortfolioAsset Q)
          (others : list (PortfolioAsset Q)) (x : Q),
     0 < x ->
     Forall (fun a => pa_amount a = Some x) (first :: others) ->
     (S (length others) <= 200)%nat ->
     let n := inject_Z (Z.of_nat (S (length others))) in
     let share := roundToDecimal (100 / n) 2 in
     exists prepared,
       prepareOrderData (mkRequest side None (first :: others)) = Return prepared
       /\ Forall (fun a => exists p, pa_allocation a = Some p /\ p == share)
                 (po_normalizedAssets prepared)
       /\ (Qabs (n * share - 100) <= 1 # 100 ->
           validatePortfolio (po_normalizedAssets prepared) = Return ())
       /\ (1 # 100 < Qabs (n * share - 100) ->
           exists total,
             validatePortfolio (po_normalizedAssets prepared)
             = Throw (InvalidPortfolioError AllocationsMustSumTo100
                        (TotalAllocation total))
             /\ total == n * share))
  /\ (let request :=
        mkRequest (N:=float) BUY None
          [amountOf "A" 100; amountOf "B" 100; amountOf "C" 100] in
      isSome (createOrderSchema request) = true
      /\ exists prepared,
           prepareOrderData request = Return prepared
           /\ map pa_allocation (po_normalizedAssets prepared)
              = [Some 33.33%float; Some 33.33%float; Some 33.33%float]
           /\ validatePortfolio (po_normalizedAssets prepared)
              = Throw (InvalidPortfolioError AllocationsMustSumTo100
                         (TotalAllocation 99.99%float))).
Proof.
  split; [|cbn zeta; split; [reflexivity|]; eexists; split; [reflexivity|];
           vm_compute; split; reflexivity].
  intros side first others x Hx Hall Hmax. cbn zeta.
  assert (pa_amount first = Some x) as Hd by (by apply Forall_cons in Hall as [? _]).
  set (assets := first :: others) in *.
  set (n := inject_Z (Z.of_nat (S (length others)))).
  assert (1 <= n) as Hn1.
  { subst n. change 1 with (inject_Z 1). rewrite <- Zle_Qle. lia. }
  assert (n <= 200) as Hn200.
  { subst n. change 200 with (inject_Z 200). rewrite <- Zle_Qle. lia. }
  set (T := sumOr0 pa_amount assets).
  assert (Forall (fun a => suppliedAmount a == x) assets) as Hsupplied.
  { eapply Forall_impl; [exact Hall|]. intros a Ha. unfold suppliedAmount.
    by rewrite Ha. }
  assert (T == n * x) as HT.
  { subst T. rewrite sumOr0_sumQ.
    rewrite (sumQ_map_ext _ suppliedAmount) by apply or_default_amount.
    apply (sumQ_const suppliedAmount x assets Hsupplied). }
  assert (0 < T) as HTpos.
  { rewrite HT. apply Qmult_lt_0_compat; lra. }
  assert (Forall (fun a => roundToDecimal (suppliedAmount a / T * 100) 2
                           == roundToDecimal (100 / n) 2) assets) as Hshare.
  { eapply Forall_impl; [exact Hsupplied|]. intros a Ha. cbn beta in Ha.
    apply roundToDecimal_Qeq. rewrite Ha, HT. field. split; lra. }
  assert (Forall (fun a => 0 <= suppliedAmount a) assets) as Hnonneg.
  { eapply Forall_impl; [exact Hsupplied|]. intros a Ha. cbn beta in Ha. lra. }
  assert (filter (fun a => isZeroAllocation a = true) (map (normalizedAsset T) assets)
          = []) as Hnozero.
  { rewrite (filter_map_normalized T assets HTpos Hnonneg).
    rewrite filter_none; [reflexivity|].
    eapply Forall_impl; [exact Hsupplied|]. intros a Ha. cbn beta in Ha.
    rewrite belowHalfBasisPoint_lt, Ha, HT.
    assert (n * x <= 200 * x) by (apply Qmult_le_compat_r; lra). lra. }
  assert (sumQ (map suppliedAllocation (map (normalizedAsset T) assets))
          == n * roundToDecimal (100 / n) 2) as Hsum.
  { rewrite <- totalAllocation_sum, normalized_total_allocation.
    apply (sumQ_const _ _ assets Hshare). }
  eexists. split; [exact (prepareOrderData_amount_mode side first others x Hd)|].
  cbn [po_mode po_totalAmount po_normalizedAssets]. fold assets. fold T.
  destruct (validatePortfolio_decision (map (normalizedAsset T) assets))
    as (_ & Hfar & Hok).
  cbn zeta in Hfar, Hok.
  pose proof (deviation_test (map (normalizedAsset T) assets)) as Hdev.
  rewrite Hsum in Hdev.
  split; [|split].
  - apply Forall_forall. intros a' Hin.
    apply list_elem_of_fmap in Hin as (a & -> & Hin).
    pose proof (proj1 (Forall_forall _ _) Hshare a Hin) as Ha. cbn beta in Ha.
    pose proof (normalizedAsset_allocation T a) as Hn.
    unfold suppliedAllocation in Hn.
    destruct (pa_allocation (normalizedAsset T a)) as [p|] eqn:Ep; [|discriminate Ep].
    exists p. split; [reflexivity|]. by rewrite Hn.
  - intros Hnear. apply (Hok Hnozero).
    apply not_true_iff_false. intros Htrue. apply Hdev in Htrue. lra.
  - intros Hoff. eexists. split; [apply (Hfar Hnozero), Hdev, Hoff|].
    by rewrite totalAllocation_sum.
Qed.

(** Three amounts of 100 pass; six amounts of 100 are refused, their
    percentages adding up to 100.02. *)
Lemma equal_amounts_validation_witness :
  (exists prepared,
     prepareOrderData (N:=Q)
       (mkRequest BUY None (map (fun s => amountOf s 100) ["A"; "B"; "C"]%string))
     = Return prepared
     /\ validatePortfolio (po_normalizedAssets prepared) = Return ())
  /\ (exists prepared total,
        prepareOrderData (N:=Q)
          (mkRequest BUY None
             (map (fun s => amountOf s 100) ["A"; "B"; "C"; "D"; "E"; "F"]%string))
        = Return prepared
        /\ validatePortfolio (po_normalizedAssets prepared)
           = Throw (InvalidPortfolioError AllocationsMustSumTo100
                      (TotalAllocation total))
        /\ total == 10002 # 100).
Proof.
  split.
  - destruct (proj1 equal_amounts_validation BUY (amountOf "A" 100)
                (map (fun s => amountOf s 100) ["B"; "C"]%string) 100)
      as (prepared & Hprep & _ & Hpass & _).
    + reflexivity.
    + repeat (constructor; [reflexivity|]). constructor.
    + cbn. lia.
    + exists prepared. split; [exact Hprep|]. apply Hpass.
      vm_compute. discriminate.
  - destruct (proj1 equal_amounts_validation BUY (amountOf "A" 100)
                (map (fun s => amountOf s 100) ["B"; "C"; "D"; "E"; "F"]%string) 100)
      as (prepared & Hprep & _ & _ & Hrefused).
    + reflexivity.
    + repeat (constructor; [reflexivity|]). constructor.
    + cbn. lia.
    + destruct Hrefused as (total & Hthrow & Htotal); [vm_compute; reflexivity|].
      exists prepared, total. split; [exact Hprep|]. split; [exact Hthrow|].
      rewrite Htotal. vm_compute. reflexivity.
Defined.
(*MORE*)
End ExactAmountMode.

(** ** The schema in front of the engine *)

Section SchemaGuards.
Context {N : Type} `{JsNumber N}.

(** What [createOrderSchema] lets through. *)
Lemma createOrderSchema_accepted (request accepted : CreateOrderRequest N) :
  createOrderSchema request = Some accepted ->
  parseAssets (req_assets request) = Some (req_assets accepted)
  /\ req_amount accepted = req_amount request
  /\ req_orderType accepted = req_orderType request
  /\ (1 <= length (req_assets accepted) <= MAX_ASSETS_PER_PORTFOLIO)%nat
  /\ noDuplicateSymbols (req_assets accepted) = true
  /\ sameMode (req_assets accepted) = true
  /\ allocationsSum (req_assets accepted) = Return true
  /\ amountMatchesMode (req_amount request) (req_assets accepted) = Return true.
Proof.
  intros Haccepted.
  apply createOrderSchema_Some, createOrderSchema_parse_accepted in Haccepted
    as (first & others & -> & Hparse & Eamount & Eside & Hlen & Hdup & Hsame
        & Hsum & Hmatch).
  repeat split; try assumption. cbn [length]. lia.
Qed.

(** An accepted allocation-mode request against [validatePortfolio], in an
    arithmetic whose [<] never holds both ways. *)
Lemma accepted_allocations_sum (request accepted : CreateOrderRequest N) :
  (forall a b : N, (a <? b)%js = true -> (b <? a)%js = false) ->
  createOrderSchema request = Some accepted ->
  isSome (req_amount accepted) = true ->
  (exists total,
     prepareOrderData accepted
     = Return (mkPrepared allocation_mode total (req_assets accepted)))
  /\ forall details,
       validatePortfolio (req_assets accepted)
       <> Throw (InvalidPortfolioError AllocationsMustSumTo100 details).
Proof.
  intros Hasym Haccepted Htotal.
  apply createOrderSchema_accepted in Haccepted
    as (_ & Eamount & _ & _ & _ & _ & Hsum & Hmatch).
  rewrite <- Eamount in Hmatch.
  destruct (req_assets accepted) as [|first others] eqn:Eassets; [discriminate Hsum|].
  cbn [amountMatchesMode] in Hmatch. cbn [allocationsSum] in Hsum.
  injection Hmatch as Hmatch.
  destruct (req_amount accepted) as [total|] eqn:Etotal; [|discriminate Htotal].
  destruct (pa_allocation first) as [p|] eqn:Ep.
  - injection Hsum as Hsum. split.
    + exists total. unfold prepareOrderData. by rewrite Eassets, Ep, Etotal.
    + intros details. unfold validatePortfolio.
      destruct (0 <? length _)%nat; [discriminate|].
      rewrite (Hasym _ _ Hsum). discriminate.
  - cbn [isSome] in Hmatch. destruct (isSome (pa_amount first)); discriminate Hmatch.
Qed.
End SchemaGuards.

Lemma Q_ltb_asym (a b : Q) : (a <? b)%js = true -> (b <? a)%js = false.
Proof.
  cbn [num_ltb Q_JsNumber]. unfold Q_ltb.
  rewrite negb_true_iff, negb_false_iff, Qle_bool_iff, <- not_true_iff_false,
    Qle_bool_iff.
  intros Hnot. apply Qlt_le_weak, Qnot_le_lt, Hnot.
Qed.

Lemma float_ltb_asym (a b : float) : (a <? b)%js = true -> (b <? a)%js = false.
Proof.
  cbn [num_ltb float_JsNumber]. rewrite !ltb_spec. unfold SFltb, SFcompare.
  destruct (Prim2SF a) as [sa|sa| |sa ma ea], (Prim2SF b) as [sb|sb| |sb mb eb];
    try destruct sa; try destruct sb; try congruence.
  - pose proof (Pos.compare_cont_antisym ma mb Eq) as Hm. cbn [CompOpp] in Hm.
    rewrite (Z.compare_antisym ea eb), <- Hm.
    destruct (ea ?= eb)%Z; cbn; try congruence.
    destruct (Pos.compare_cont Eq ma mb); cbn; congruence.
  - pose proof (Pos.compare_cont_antisym ma mb Eq) as Hm. cbn [CompOpp] in Hm.
    rewrite (Z.compare_antisym ea eb), <- Hm.
    destruct (ea ?= eb)%Z; cbn; try congruence.
    destruct (Pos.compare_cont Eq ma mb); cbn; congruence.
Qed.

(** X14.  A request [createOrderSchema] accepts with a total is split in
    allocation mode over the assets as the schema returns them, and the
    sum test of [validatePortfolio] cannot refuse it: the schema has tested
    the same sum against the same tolerance, strictly.  This holds in exact
    arithmetic and at binary64.  (A zero allocation, which the schema lets
    through, is what [validatePortfolio] can still refuse.) *)
Theorem accepted_allocations_pass_the_sum_test :
  (forall request accepted : CreateOrderRequest Q,
     createOrderSchema request = Some accepted ->
     isSome (req_amount accepted) = true ->
     (exists total,
        prepareOrderData accepted
        = Return (mkPrepared allocation_mode total (req_assets accepted)))
     /\ forall details,
          validatePortfolio (req_assets accepted)
          <> Throw (InvalidPortfolioError AllocationsMustSumTo100 details))
  /\ (forall request accepted : CreateOrderRequest float,
        createOrderSchema request = Some accepted ->
        isSome (req_amount accepted) = true ->
        (exists total,
           prepareOrderData accepted
           = Return (mkPrepared allocation_mode total (req_assets accepted)))
        /\ forall details,
             validatePortfolio (req_assets accepted)
             <> Throw (InvalidPortfolioError AllocationsMustSumTo100 details))
  /\ (exists accepted,
        createOrderSchema (N:=float)
          (mkRequest BUY (Some 100%float) [allocationOf "AAPL" 100; allocationOf "TSLA" 0])
        = Some accepted
        /\ validatePortfolio (req_assets accepted)
           = Throw (InvalidPortfolioError ZeroAllocationAssets
                      (ZeroSymbols ["TSLA"%string]))).
Proof.
  split; [|split].
  - intros request accepted. apply accepted_allocations_sum, Q_ltb_asym.
  - intros request accepted. apply accepted_allocations_sum, float_ltb_asym.
  - eexists. split; vm_compute; reflexivity.
Qed.

(** ** Pages, statistics and overwriting in the store *)

Section Pages.
Context {N : Type} `{JsNumber N}.

Lemma batchGetOrders_length (repo : OrderRepository N) (orderIds : list string) :
  (length (batchGetOrders repo orderIds) <= length orderIds)%nat.
Proof.
  unfold batchGetOrders. induction orderIds as [|id ids IH]; cbn; [lia|].
  destruct (Map_get (orders repo) id); cbn; lia.
Qed.

(** The ids a query selects, newest first, before the page is cut. *)
Lemma findAll_pages (repo : OrderRepository N) (params : OrderQueryParams) :
  exists ids : list string,
    forall limit offset,
      let result := findAll repo (withPage params limit offset) in
      page_orders result
      = batchGetOrders repo (take (natOr (Some limit) 50) (drop (natOr (Some offset) 0) ids))
      /\ page_total result = length ids.
Proof.
  unfold findAll, withPage, collectFilters.
  cbn [q_orderType q_symbol q_assetType q_fromDate q_toDate q_limit q_offset].
  destruct (lookupFilter (ordersByType repo) (q_orderType params) []) as [f1|];
    [|exists []; intros; cbn; by rewrite drop_nil, take_nil].
  destruct (lookupFilter (ordersBySymbol repo) (truthyString (q_symbol params)) f1)
    as [f2|]; [|exists []; intros; cbn; by rewrite drop_nil, take_nil].
  destruct (lookupFilter (ordersByAssetType repo) (q_assetType params) f2)
    as [filters|]; [|exists []; intros; cbn; by rewrite drop_nil, take_nil].
  eexists. intros limit offset. cbn zeta. cbn [page_orders page_total].
  split; reflexivity.
Qed.

(** X15.  Pages tile the result: for positive limits, the page of [limit]
    orders at [offset] followed by the page of [limit'] orders at
    [offset + limit] is the page of [limit + limit'] orders at [offset], the
    total is the same on every page, and no page is longer than its limit. *)
Theorem findAll_pages_tile (repo : OrderRepository N) (params : OrderQueryParams)
    (limit limit' offset : nat) :
  (0 < limit)%nat -> (0 < limit')%nat ->
  page_orders (findAll repo (withPage params limit offset))
  ++ page_orders (findAll repo (withPage params limit' (offset + limit)))
  = page_orders (findAll repo (withPage params (limit + limit') offset))
  /\ page_total (findAll repo (withPage params limit' (offset + limit)))
     = page_total (findAll repo (withPage params limit offset))
  /\ (length (page_orders (findAll repo (withPage params limit offset))) <= limit)%nat.
Proof.
  intros Hlimit Hlimit'.
  destruct (findAll_pages repo params) as [ids Hpages].
  destruct (Hpages limit offset) as [P1 T1].
  destruct (Hpages limit' (offset + limit)%nat) as [P2 T2].
  destruct (Hpages (limit + limit')%nat offset) as [P3 _].
  cbn zeta in *. rewrite P1, P2, P3, T1, T2.
  assert (forall n, (0 < n)%nat -> natOr (Some n) 50 = n) as Hn
    by (intros [|n]; [lia | reflexivity]).
  assert (forall n, natOr (Some n) 0 = n) as Ho by (by intros [|n]).
  rewrite !Hn, !Ho by lia.
  split; [|split; [reflexivity|]].
  - unfold batchGetOrders. rewrite <- omap_app. f_equal.
    rewrite <- drop_drop. apply take_take_drop.
  - etransitivity; [apply batchGetOrders_length|].
    rewrite length_take. lia.
Qed.

End Pages.

(** The first twenty of 150 orders, in two pages of ten. *)
Lemma findAll_pages_tile_witness :
  page_orders (findAll store150 (withPage lastPageOf150 10 0))
  ++ page_orders (findAll store150 (withPage lastPageOf150 10 10))
  = page_orders (findAll store150 (withPage lastPageOf150 20 0)).
Proof.
  refine (proj1 (findAll_pages_tile store150 lastPageOf150 10 10 0 _ _)); lia.
Defined.

Section SortByDate.
Context {N : Type} `{JsNumber N}.

Lemma compareDesc_positive (repo : OrderRepository N) (a b : string) :
  (0 < compareDesc repo a b)%Z ->
  exists ta tb, createdAtOf repo a = Some ta /\ createdAtOf repo b = Some tb
                /\ (ta < tb)%Z.
Proof.
  unfold compareDesc, createdAtOf.
  destruct (Map_get (orders repo) a) as [oa|], (Map_get (orders repo) b) as [ob|];
    try lia.
  intros Hpos. exists (createdAt oa), (createdAt ob). repeat split. lia.
Qed.

Lemma insertBy_stable (repo : OrderRepository N) (t : Z) (x : string)
    (l : list string) :
  filter (fun id => createdAtOf repo id = Some t) (insertBy (compareDesc repo) x l)
  = filter (fun id => createdAtOf repo id = Some t) (x :: l).
Proof.
  induction l as [|y l IH]; [reflexivity|]. cbn [insertBy].
  destruct (Z.leb_spec (compareDesc repo x y) 0) as [Hle|Hgt]; [reflexivity|].
  apply compareDesc_positive in Hgt as (tx & ty & Hx & Hy & Hlt).
  rewrite (filter_cons _ y), IH, !(filter_cons _ x), (filter_cons _ y).
  destruct (decide (createdAtOf repo y = Some t)) as [Ey|Ey];
    destruct (decide (createdAtOf repo x = Some t)) as [Ex|Ex]; try reflexivity.
  rewrite Hx in Ex. rewrite Hy in Ey. injection Ex as ->. injection Ey as ->. lia.
Qed.

(** X16.  Given ids of stored orders, [sortByDate] rearranges them newest
    first: the result holds the same ids as often, of two neighbours the
    first was not created before the second, and ids created at the same
    instant keep the order they came in. *)
Theorem sortByDate_newest_first_and_stable (repo : OrderRepository N)
    (orderIds : list string) :
  Forall (fun id => is_Some (findById repo id)) orderIds ->
  sortByDate repo orderIds ≡ₚ orderIds
  /\ Sorted (fun a b => exists orderA orderB,
               findById repo a = Some orderA /\ findById repo b = Some orderB
               /\ (createdAt orderB <= createdAt orderA)%Z)
            (sortByDate repo orderIds)
  /\ forall t,
       filter (fun id => createdAtOf repo id = Some t) (sortByDate repo orderIds)
       = filter (fun id => createdAtOf repo id = Some t) orderIds.
Proof.
  intros Hstored. unfold sortByDate.
  pose proof (Array_sort_perm (compareDesc repo) orderIds) as Hperm.
  split; [exact Hperm|]. split.
  - pose proof (Array_sort_sorted (compareDesc repo) orderIds (compareDesc_total repo))
      as Hsorted.
    rewrite <- Hperm in Hstored. clear Hperm.
    induction Hsorted as [|a l _ IH Hhd]; constructor.
    + apply IH. exact (Forall_inv_tail Hstored).
    + destruct Hhd as [|b l Hab]; constructor.
      apply Forall_cons in Hstored as [[orderA Ha] Hstored].
      apply Forall_cons in Hstored as [[orderB Hb] _].
      exists orderA, orderB. split; [exact Ha|]. split; [exact Hb|].
      unfold findById in Ha, Hb. unfold compareDesc in Hab.
      rewrite Ha, Hb in Hab. lia.
  - intros t. clear Hstored Hperm. induction orderIds as [|x l IH]; [reflexivity|].
    cbn [Array_sort fold_right]. fold (Array_sort (compareDesc repo) l).
    rewrite insertBy_stable, !(filter_cons _ x), IH. reflexivity.
Qed.
End SortByDate.

(** The two ids of the sample store of two orders. *)
Lemma sortByDate_newest_first_and_stable_witness :
  sortByDate store2 (ordersByDate store2) ≡ₚ ordersByDate store2.
Proof.
  refine (proj1 (sortByDate_newest_first_and_stable store2 (ordersByDate store2) _)).
  apply (bool_decide_unpack _). vm_compute. reflexivity.
Defined.

Section Intersection.

Lemma narrow_fold_sublist (others : list (list string)) :
  forall result : list string,
    fold_left (fun result s => filter (fun id => Set_has s id = true) result)
              others result
    `sublist_of` result.
Proof.
  induction others as [|s others IH]; intros result; cbn [fold_left]; [reflexivity|].
  etransitivity; [apply IH | apply sublist_filter].
Qed.

Lemma Sorted_head_least {A} (R : A -> A -> Prop) (x : A) (l : list A) :
  (forall a, R a a) -> (forall a b c, R a b -> R b c -> R a c) ->
  Sorted R (x :: l) -> forall y, y ∈ x :: l -> R x y.
Proof.
  intros Hrefl Htrans Hsorted y Hy.
  apply Sorted_StronglySorted in Hsorted; [|exact Htrans].
  apply StronglySorted_inv in Hsorted as [_ Hall].
  apply elem_of_cons in Hy as [->|Hy]; [apply Hrefl|].
  rewrite List.Forall_forall in Hall. apply Hall. by apply list_elem_of_In.
Qed.

(** X17.  [intersectSets] of no set is empty and of one set is that set;
    of several sets it holds exactly the ids that are in all of them, each
    once when the sets hold none twice, in the order in which one of the
    smallest sets holds them. *)
Theorem intersectSets_is_the_intersection (sets : list (list string)) :
  intersectSets [] = []
  /\ (forall only, intersectSets [only] = only)
  /\ (sets <> [] ->
      (forall id, id ∈ intersectSets sets <-> forall s, s ∈ sets -> id ∈ s)
      /\ (Forall NoDup sets -> NoDup (intersectSets sets))
      /\ exists smallest,
           smallest ∈ sets
           /\ (forall s, s ∈ sets -> (length smallest <= length s)%nat)
           /\ intersectSets sets `sublist_of` smallest).
Proof.
  split; [reflexivity|]. split; [reflexivity|]. intros Hne.
  destruct (intersectSets_spec sets Hne) as [Hmem Hnodup].
  split; [exact Hmem|]. split; [exact Hnodup|].
  destruct sets as [|first [|second rest]]; [done| |].
  - exists first. split; [by left|]. split; [|reflexivity].
    intros s Hs. apply list_elem_of_singleton in Hs as ->. lia.
  - unfold intersectSets.
    set (bySize := fun a b : list string =>
                     (Z.of_nat (length a) - Z.of_nat (length b))%Z).
    set (all := first :: second :: rest).
    pose proof (Array_sort_perm bySize all) as Hperm.
    pose proof (Array_sort_sorted bySize all) as Hsorted.
    destruct (Array_sort bySize all) as [|smallest others] eqn:Esorted.
    { apply Permutation_nil_l in Hperm. discriminate Hperm. }
    exists smallest. split; [rewrite <- Hperm; by left|]. split.
    + intros s Hs. rewrite <- Hperm in Hs.
      assert (bySize smallest s <= 0)%Z as Hle.
      { apply (Sorted_head_least (fun a b => (bySize a b <= 0)%Z) smallest others);
          [intros a; unfold bySize; lia
          |intros a b c; unfold bySize; lia
          |apply Hsorted; intros a b; unfold bySize; lia
          |exact Hs]. }
      unfold bySize in Hle. lia.
    + apply narrow_fold_sublist.
Qed.
End Intersection.

Section IndexKeys.
Context {K : Type} `{EqDecision K}.

Lemma Map_set_keys (m : list (K * list string)) (k : K) (v : list string) :
  map fst (Map_set m k v) = map fst m
  \/ (Map_get m k = None /\ map fst (Map_set m k v) = map fst m ++ [k]).
Proof.
  destruct (Map_get m k) eqn:Eget.
  - left. apply Map_set_keys_present. congruence.
  - right. split; [reflexivity|]. by apply Map_set_keys_fresh.
Qed.

Lemma NoDup_keys_Map_set (m : list (K * list string)) (k : K) (v : list string) :
  NoDup (map fst m) -> NoDup (map fst (Map_set m k v)).
Proof.
  intros Hnd. destruct (Map_set_keys m k v) as [->|[Hfresh ->]]; [exact Hnd|].
  apply NoDup_app. split; [exact Hnd|]. split; [|apply NoDup_singleton].
  intros k' Hin Hk. apply list_elem_of_singleton in Hk as ->.
  by apply Map_get_None_keys in Hfresh.
Qed.

Lemma wellKeyed_indexAdd (index : list (K * list string)) (key : K) (id : string) :
  wellKeyed index -> wellKeyed (indexAdd index key id).
Proof.
  intros [Hkeys Hsets]. split.
  - unfold indexAdd. destruct (Map_has index key).
    + destruct (Map_get index key); [by apply NoDup_keys_Map_set | exact Hkeys].
    + destruct (Map_get (Map_set index key []) key);
        by repeat apply NoDup_keys_Map_set.
  - intros key' ids' Hget'.
    destruct (indexAdd_get index key id) as (ids & Hget & _ & Hother).
    destruct (decide (key = key')) as [<-|Hne].
    + rewrite Hget in Hget'. injection Hget' as <-.
      unfold Set_add. destruct (Set_has ids id) eqn:Ehas.
      * unfold Set_has in Ehas. apply bool_decide_eq_true in Ehas.
        intros ->. by apply elem_of_nil in Ehas.
      * by destruct ids.
    + rewrite (Hother key' Hne) in Hget'. by eapply Hsets.
Qed.

(** The statistics of an index whose keys are distinct: the size of each
    id set, under its key. *)
Lemma sizesOf_from (index : list (K * list string)) :
  forall obj : list (K * nat),
    NoDup (map fst obj ++ map fst index) ->
    fold_left (fun obj '(key, ids) => Map_set obj key (length ids)) index obj
    = obj ++ map (fun '(key, ids) => (key, length ids)) index.
Proof.
  induction index as [|[key ids] index IH]; intros obj Hnd; cbn [fold_left map].
  - by rewrite app_nil_r.
  - cbn [map fst] in Hnd.
    assert (Map_get obj key = None) as Hfresh.
    { apply Map_get_None_keys. intros Hin.
      apply NoDup_app in Hnd as (_ & Hdisj & _). apply (Hdisj key Hin). by left. }
    rewrite (Map_set_fresh obj key _ Hfresh), IH.
    + by rewrite <- app_assoc.
    + rewrite map_app. cbn [map fst]. rewrite <- app_assoc. exact Hnd.
Qed.

Lemma Map_get_sizesOf (index : list (K * list string)) (key : K) :
  NoDup (map fst index) ->
  Map_get (sizesOf index) key = length <$> Map_get index key.
Proof.
  intros Hnd. unfold sizesOf. rewrite sizesOf_from by exact Hnd. cbn [app].
  clear Hnd. induction index as [|[k ids] index IH]; [reflexivity|].
  cbn [map Map_get]. destruct (decide (k = key)); [reflexivity | exact IH].
Qed.
End IndexKeys.

Section Statistics.
Context {N : Type} `{JsNumber N}.

Lemma wellKeyed_indexAsset_fold (id : string) (lines : list (AssetOrder N)) :
  forall indexes,
    wellKeyed (fst indexes) -> wellKeyed (snd indexes) ->
    wellKeyed (fst (fold_left (indexAsset id) lines indexes))
    /\ wellKeyed (snd (fold_left (indexAsset id) lines indexes)).
Proof.
  induction lines as [|line lines IH]; intros indexes H1 H2; cbn [fold_left];
    [by split|].
  apply IH; cbn [indexAsset fst snd].
  - by apply wellKeyed_indexAdd.
  - destruct (ao_type line); [by apply wellKeyed_indexAdd | exact H2].
Qed.

Lemma reachable_wellKeyed (repo : OrderRepository N) :
  reachable repo ->
  wellKeyed (ordersByType repo) /\ wellKeyed (ordersBySymbol repo)
  /\ wellKeyed (ordersByAssetType repo).
Proof.
  assert (forall K (D : EqDecision K), wellKeyed (K:=K) []) as Hempty.
  { intros K D. split; [apply NoDup_nil_2 | intros key ids; discriminate]. }
  induction 1 as [|repo repo' _ (IH1 & IH2 & IH3) Hstep].
  - cbn. repeat split; try apply NoDup_nil_2; intros key ids; discriminate.
  - destruct Hstep as [repo order _|repo params|repo now|repo].
    + unfold save. cbn [fst ordersByType ordersBySymbol ordersByAssetType].
      destruct (wellKeyed_indexAsset_fold (orderId order) (assetOrders order)
                  (ordersBySymbol repo, ordersByAssetType repo) IH2 IH3) as [W2 W3].
      split; [by apply wellKeyed_indexAdd | by split].
    + exact (conj IH1 (conj IH2 IH3)).
    + unfold getStats. destruct (statsCache repo) as [cache|]; cbn;
        [destruct (_ <? _)%Z; cbn|]; exact (conj IH1 (conj IH2 IH3)).
    + cbn. repeat split; try apply NoDup_nil_2; intros key ids; discriminate.
Qed.

(** The ids of the stored orders that pass a test, against an id set that
    holds exactly them. *)
Lemma id_set_length (repo : OrderRepository N) (test : Order N -> bool)
    (ids : list string) :
  Consistent repo -> NoDup ids ->
  (forall id, id ∈ ids
              <-> exists o, Map_get (orders repo) id = Some o /\ test o = true) ->
  length ids = countStored repo test.
Proof.
  intros C Hnd Hmem. unfold countStored, storedOrders.
  rewrite <- (length_map orderId (filter _ _)). apply Permutation_length.
  apply NoDup_Permutation; [exact Hnd | |].
  - apply NoDup_fmap_2_strong; [|apply NoDup_filter, stored_orders_NoDup, C].
    intros o1 o2 [_ H1]%list_elem_of_filter [_ H2]%list_elem_of_filter Heq.
    apply (stored_order_iff _ _ C) in H1, H2. congruence.
  - intros id. rewrite Hmem. change (map orderId) with (fmap (M:=list) (orderId (N:=N))).
    rewrite list_elem_of_fmap. split.
    + intros (o & Hget & Htest). exists o.
      split; [symmetry; by apply (keyed_by_id _ C)|].
      apply list_elem_of_filter. split; [exact Htest|].
      apply (stored_order_iff _ _ C). by rewrite (keyed_by_id _ C _ _ Hget).
    + intros (o & -> & [Htest Hin]%list_elem_of_filter). exists o.
      split; [by apply (stored_order_iff _ _ C) | exact Htest].
Qed.

Lemma index_entry_counts {K} `{EqDecision K} (repo : OrderRepository N)
    (index : list (K * list string)) (test : K -> Order N -> bool) (key : K) :
  Consistent repo -> wellKeyed index -> setsNoDup index ->
  (forall k id, indexed index k id
                <-> exists o, Map_get (orders repo) id = Some o /\ test k o = true) ->
  Map_get (sizesOf index) key = statsEntry (countStored repo (test key)).
Proof.
  intros C [Hkeys Hsets] Hnd Hview. rewrite Map_get_sizesOf by exact Hkeys.
  unfold statsEntry. destruct (Map_get index key) as [ids|] eqn:Eget; cbn.
  - rewrite <- (id_set_length repo (test key) ids C (Hnd _ _ Eget)).
    + specialize (Hsets _ _ Eget). destruct ids; [done | reflexivity].
    + intros id. rewrite <- Hview. unfold indexed. rewrite Eget. split; [eauto|].
      by intros (ids' & [= <-] & Hin).
  - replace (countStored repo (test key)) with 0%nat; [reflexivity|].
    symmetry. unfold countStored. apply length_zero_iff_nil.
    apply filter_none. apply Forall_forall. intros o Hin Htest.
    apply (stored_order_iff _ _ C) in Hin.
    assert (indexed index key (orderId o)) as (ids & Hids & _)
      by (apply Hview; eauto).
    congruence.
Qed.

Lemma getStats_current (repo : OrderRepository N) (now : Z) :
  Consistent repo -> snd (getStats repo now) = computeStats repo.
Proof.
  intros C. unfold getStats.
  destruct (statsCache repo) as [cache|] eqn:Ecache; [|reflexivity].
  destruct (_ <? _)%Z; [|reflexivity]. cbn [snd]. by apply (cache_current _ C).
Qed.

(** X18.  In a reachable store the statistics count the stored orders:
    [totalOrders] is their number; each side, and each asset class, is
    listed with the number of stored orders of that side, or with a line of
    that class, and is not listed when there is none; [uniqueSymbols] is
    the number of distinct symbols on the lines of the stored orders. *)
Theorem getStats_counts_the_stored_orders (repo : OrderRepository N) (now : Z) :
  reachable repo ->
  let stats := snd (getStats repo now) in
  totalOrders stats = length (storedOrders repo)
  /\ (forall side,
        Map_get (ordersByType_count stats) side
        = statsEntry (countStored repo (ofSide side)))
  /\ (forall type,
        Map_get (ordersByAssetType_count stats) type
        = statsEntry (countStored repo (carriesClass type)))
  /\ (forall symbols,
        NoDup symbols ->
        (forall symbol, symbol ∈ symbols
                        <-> exists o, o ∈ storedOrders repo /\ hasSymbol o symbol) ->
        uniqueSymbols stats = length symbols).
Proof.
  intros Hreach. cbn zeta.
  pose proof (reachable_Consistent repo Hreach) as C.
  destruct (reachable_wellKeyed repo Hreach) as (W1 & W2 & W3).
  rewrite (getStats_current repo now C). unfold computeStats.
  cbn [totalOrders ordersByType_count ordersByAssetType_count uniqueSymbols].
  split; [|split; [|split]].
  - unfold Map_size, storedOrders. by rewrite length_map.
  - intros side.
    apply (index_entry_counts repo (ordersByType repo) ofSide side C W1
             (byType_sets _ C)).
    intros k id. rewrite (byType_view _ C). unfold ofSide.
    split; intros (o & Hget & Hside); exists o; (split; [exact Hget|]).
    + by apply bool_decide_eq_true.
    + by apply bool_decide_eq_true in Hside.
  - intros type.
    apply (index_entry_counts repo (ordersByAssetType repo) carriesClass type C W3
             (byAssetType_sets _ C)).
    intros k id. rewrite (byAssetType_view _ C). unfold carriesClass, hasAssetType.
    split; intros (o & Hget & Hclass); exists o; (split; [exact Hget|]).
    + by apply existsb_bool_decide.
    + by apply existsb_bool_decide in Hclass.
  - intros symbols Hnd Hsymbols. unfold Map_size.
    rewrite <- (length_map fst (ordersBySymbol repo)).
    apply Permutation_length, NoDup_Permutation; [apply W2 | exact Hnd |].
    intros symbol. rewrite Hsymbols. destruct W2 as [_ Hsets]. split.
    + intros Hkey.
      destruct (Map_get (ordersBySymbol repo) symbol) as [ids|] eqn:Eget;
        [|by apply Map_get_None_keys in Eget].
      destruct ids as [|id ids]; [by apply Hsets in Eget|].
      assert (indexed (ordersBySymbol repo) symbol id) as Hindexed
        by (exists (id :: ids); split; [exact Eget | by left]).
      apply (bySymbol_view _ C) in Hindexed as (o & Hget & Hsym).
      exists o. split; [|exact Hsym].
      apply (stored_order_iff _ _ C). by rewrite (keyed_by_id _ C _ _ Hget).
    + intros (o & Hin & Hsym). apply (stored_order_iff _ _ C) in Hin.
      assert (indexed (ordersBySymbol repo) symbol (orderId o)) as (ids & Hids & _)
        by (apply (bySymbol_view _ C); eauto).
      apply dec_stable. intros Hnot. apply Map_get_None_keys in Hnot. congruence.
Qed.
End Statistics.

(** The store of 150 sample orders: 75 of them are buys, and all of them
    have a crypto line. *)
Lemma getStats_counts_the_stored_orders_witness :
  totalOrders (snd (getStats store150 0)) = 150%nat
  /\ Map_get (ordersByType_count (snd (getStats store150 0))) BUY = Some 75%nat
  /\ Map_get (ordersByAssetType_count (snd (getStats store150 0))) CRYPTO
     = Some 150%nat
  /\ Map_get (ordersByAssetType_count (snd (getStats store150 0))) BOND = None.
Proof.
  destruct (getStats_counts_the_stored_orders store150 0 store150_reachable)
    as (Htotal & Hside & Hclass & _).
  rewrite Htotal, Hside, !Hclass. vm_compute. repeat split.
Defined.

Section StatisticsExact.
Local Open Scope Q_scope.

(** X19.  In exact arithmetic, in a reachable store, [totalVolume] is the
    sum of the totals of the stored orders and [averageOrderSize] times the
    number of orders is [totalVolume]; with no order stored both are 0 (no
    division takes place). *)
Theorem getStats_volume_and_average (repo : OrderRepository Q) (now : Z) :
  reachable repo ->
  let stats := snd (getStats repo now) in
  totalVolume stats == sumQ (map totalAmount (storedOrders repo))
  /\ averageOrderSize stats * inject_Z (Z.of_nat (totalOrders stats))
     == totalVolume stats
  /\ (storedOrders repo = [] ->
      totalVolume stats == 0 /\ averageOrderSize stats == 0).
Proof.
  intros Hreach. cbn zeta.
  rewrite (getStats_current repo now (reachable_Consistent repo Hreach)).
  unfold computeStats, storedOrders, Map_size.
  cbn [totalVolume averageOrderSize totalOrders].
  assert (forall (l : list (string * Order Q)) (s : Q),
            fold_left (fun total '(_, order) => (total + totalAmount order)%js) l s
            == s + sumQ (map totalAmount (map snd l))) as Hfold.
  { induction l as [|[k o] l IH]; intros s; cbn [fold_left map sumQ snd].
    - ring.
    - rewrite IH. cbn [num_add Q_JsNumber]. ring. }
  set (volume := fold_left _ (orders repo) (num_of_Z 0)).
  assert (volume == sumQ (map totalAmount (map snd (orders repo)))) as Hvolume.
  { subst volume. rewrite Hfold. cbn [num_of_Z Q_JsNumber]. ring. }
  split; [exact Hvolume|]. split.
  - destruct (orders repo) as [|entry rest] eqn:Eorders.
    + cbn [length Nat.ltb Nat.leb]. rewrite Hvolume. cbn. ring.
    + cbn [length Nat.ltb Nat.leb num_div num_of_Z Q_JsNumber].
      field. change 0 with (inject_Z 0). rewrite inject_Z_injective. lia.
  - intros Hnone. apply map_eq_nil in Hnone. rewrite Hnone in *.
    cbn [length Nat.ltb Nat.leb]. split; [rewrite Hvolume|]; reflexivity.
Qed.
End StatisticsExact.

Lemma store2_reachable : reachable store2.
Proof.
  apply reachable_saveAll; [constructor | |].
  - apply (bool_decide_eq_true_1 (NoDup _)). vm_compute. reflexivity.
  - reflexivity.
Qed.

(** Orders of 100 and 300 dollars: the volume is 400, the average 200. *)
Lemma getStats_volume_and_average_witness :
  (totalVolume (snd (getStats store2 0)) == 400
   /\ averageOrderSize (snd (getStats store2 0)) == 200)%Q.
Proof.
  destruct (getStats_volume_and_average store2 0 store2_reachable)
    as (Hvolume & Haverage & _).
  assert (totalVolume (snd (getStats store2 0)) == 400)%Q as Hv
    by (rewrite Hvolume; reflexivity).
  split; [exact Hv|].
  rewrite Hv in Haverage.
  change (inject_Z (Z.of_nat (totalOrders (snd (getStats store2 0))))) with 2%Q
    in Haverage.
  lra.
Defined.

Section Overwrite.
Context {N : Type} `{JsNumber N}.

Lemma Map_size_set_present {K V} `{EqDecision K} (m : list (K * V)) (k : K) (v : V) :
  Map_get m k <> None -> Map_size (Map_set m k v) = Map_size m.
Proof.
  intros Hpresent. unfold Map_size.
  rewrite <- (length_map fst (Map_set m k v)), <- (length_map fst m).
  by rewrite Map_set_keys_present.
Qed.

(** X20.  [save] does not look for the id in the store.  Saving an order
    under an id a reachable store already holds replaces the stored order,
    so the number of orders stays, but lists the id a second time in the
    insertion-ordered index: the total of the query without filters is then
    one more than the number of stored orders. *)
Theorem save_under_a_stored_id_lists_it_twice (repo : OrderRepository N)
    (order : Order N) (limit offset : nat) :
  reachable repo ->
  findById repo (orderId order) <> None ->
  let repo' := fst (save repo order) in
  findById repo' (orderId order) = Some order
  /\ count repo' = count repo
  /\ ordersByDate repo' = ordersByDate repo ++ [orderId order]
  /\ orderId order ∈ ordersByDate repo
  /\ page_total (findAll repo' (everyOrder limit offset)) = S (count repo').
Proof.
  intros Hreach Hstored. cbn zeta.
  pose proof (reachable_Consistent repo Hreach) as C.
  unfold findById, count, save in *. cbn [fst orders ordersByDate].
  split; [apply Map_get_set_eq|].
  split; [by apply Map_size_set_present|].
  split; [reflexivity|]. split.
  - rewrite (byDate_keys _ C). apply dec_stable. intros Hnot.
    by apply Map_get_None_keys in Hnot.
  - unfold findAll, everyOrder, collectFilters, lookupFilter, truthyString.
    cbn [q_orderType q_symbol q_assetType q_fromDate q_toDate q_limit q_offset
         length Nat.ltb Nat.leb isSome orb page_total ordersByDate].
    unfold sortByDate.
    rewrite (Permutation_length (Array_sort_perm _ _)), length_app.
    rewrite (byDate_keys _ C), length_map.
    rewrite Map_size_set_present by exact Hstored. unfold Map_size. cbn. lia.
Qed.
End Overwrite.

(** The second of two stored orders, saved again with another total. *)
Lemma save_under_a_stored_id_lists_it_twice_witness :
  count (fst (save store2 (plainOrder 1 500))) = 2%nat
  /\ page_total (findAll (fst (save store2 (plainOrder 1 500))) (everyOrder 50 0))
     = 3%nat.
Proof.
  destruct (save_under_a_stored_id_lists_it_twice store2 (plainOrder 1 500) 50 0
              store2_reachable)
    as (_ & Hcount & _ & _ & Htotal).
  - vm_compute. discriminate.
  - rewrite Htotal, Hcount. split; reflexivity.
Defined.

Section Clear.
Context {N : Type} `{JsNumber N}.

(** X21.  After [clear] the store is the store as created: it holds no
    order, every lookup by id finds nothing, every query, whatever its
    filters and page, answers the empty page with total 0 and no more to
    come, and the statistics are recomputed, with no order, no symbol and
    no entry. *)
Theorem clear_empties_the_store (repo : OrderRepository N)
    (params : OrderQueryParams) (id : string) (now : Z) :
  let cleared := clear repo in
  cleared = newRepository
  /\ reachable cleared
  /\ count cleared = 0%nat
  /\ findById cleared id = None
  /\ page_orders (findAll cleared params) = []
  /\ page_total (findAll cleared params) = 0%nat
  /\ page_hasMore (findAll cleared params) = false
  /\ totalOrders (snd (getStats cleared now)) = 0%nat
  /\ uniqueSymbols (snd (getStats cleared now)) = 0%nat
  /\ ordersByType_count (snd (getStats cleared now)) = []
  /\ ordersByAssetType_count (snd (getStats cleared now)) = []
  /\ statsCache cleared = None.
Proof.
  cbn zeta. unfold clear.
  split; [reflexivity|]. split; [apply reachable_new|].
  split; [reflexivity|]. split; [reflexivity|].
  assert (page_orders (findAll (N:=N) newRepository params) = []
          /\ page_total (findAll (N:=N) newRepository params) = 0%nat
          /\ page_hasMore (findAll (N:=N) newRepository params) = false) as Hpage.
  { unfold findAll, collectFilters, lookupFilter. cbn [newRepository ordersByType
      ordersBySymbol ordersByAssetType ordersByDate orders Map_get].
    destruct (q_orderType params); [by cbn|].
    destruct (truthyString (q_symbol params)); [by cbn|].
    destruct (q_assetType params); [by cbn|].
    cbn [length Nat.ltb Nat.leb].
    assert ((if isSome (q_fromDate params) || isSome (q_toDate params)
             then filterByDateRange (N:=N) newRepository [] (q_fromDate params)
                    (q_toDate params)
             else []) = []) as ->.
    { destruct (isSome (q_fromDate params) || isSome (q_toDate params));
        [|reflexivity].
      unfold filterByDateRange. destruct (q_fromDate params), (q_toDate params);
        reflexivity. }
    cbn. rewrite drop_nil, take_nil. repeat split. }
  destruct Hpage as (P1 & P2 & P3).
  repeat (split; [assumption || reflexivity|]). reflexivity.
Qed.
End Clear.

Section NewestFirst.
Context {N : Type} `{JsNumber N}.

(** X26.  An order saved under a fresh id, created later than every order
    a reachable store holds, heads the list of the query without filters,
    and the total grows by one. *)
Theorem newest_order_heads_the_list (repo : OrderRepository N) (order : Order N)
    (limit : nat) :
  reachable repo ->
  findById repo (orderId order) = None ->
  (forall o, o ∈ storedOrders repo -> (createdAt o < createdAt order)%Z) ->
  (0 < limit)%nat ->
  let repo' := fst (save repo order) in
  head (page_orders (findAll repo' (everyOrder limit 0))) = Some order
  /\ page_total (findAll repo' (everyOrder limit 0)) = S (count repo).
Proof.
  intros Hreach Hfresh Hnewest Hlimit. cbn zeta.
  assert (reachable (fst (save repo order))) as Hreach'
    by (eapply reachable_step; [exact Hreach | by apply step_save]).
  pose proof (reachable_Consistent _ Hreach') as C'.
  destruct (findAll_matching (fst (save repo order)) (everyOrder limit 0) C')
    as (matching & Hperm & Hsorted & Hpage & Htotal & _).
  { discriminate. }
  { intros [(? & [=] & _)|[(? & [=] & _)|(? & [=] & _)]]. }
  rewrite filter_all in Hperm by reflexivity.
  assert (map snd (orders (fst (save repo order))) = storedOrders repo ++ [order])
    as Hstored.
  { unfold save, storedOrders. cbn [fst orders].
    rewrite (Map_set_fresh _ _ _ Hfresh), map_app. reflexivity. }
  rewrite Hstored in Hperm.
  rewrite Hpage, Htotal. cbn [everyOrder q_limit q_offset].
  assert (natOr (Some limit) 50 = limit) as -> by (destruct limit; [lia | reflexivity]).
  assert (natOr (Some 0%nat) 0 = 0%nat) as -> by reflexivity.
  rewrite drop_0. split.
  - destruct matching as [|first rest].
    { apply Permutation_nil_l in Hperm. by destruct (storedOrders repo). }
    destruct limit as [|limit]; [lia|]. cbn [take head]. f_equal.
    assert (order ∈ first :: rest) as Hin
      by (rewrite Hperm; apply elem_of_app; right; by left).
    assert (newestFirst first order) as Hle.
    { apply (Sorted_head_least newestFirst first rest);
        [intros a; unfold newestFirst; lia
        |intros a b c; unfold newestFirst; lia
        |exact Hsorted | exact Hin]. }
    assert (first ∈ storedOrders repo ++ [order]) as Hfirst
      by (rewrite <- Hperm; by left).
    apply elem_of_app in Hfirst as [Hold|Hnew].
    + specialize (Hnewest first Hold). unfold newestFirst in Hle. lia.
    + by apply list_elem_of_singleton in Hnew.
  - rewrite (Permutation_length Hperm), length_app. unfold count, Map_size, storedOrders.
    rewrite length_map. cbn. lia.
Qed.

(** X28.  An order saved under a fresh id in a reachable store is counted
    by every query it matches (side, symbol, asset class and date range
    alike), and is on the first page when the limit exceeds the number of
    orders stored before. *)
Theorem saved_order_answers_matching_queries (repo : OrderRepository N)
    (order : Order N) (params : OrderQueryParams) :
  reachable repo ->
  findById repo (orderId order) = None ->
  q_symbol params <> Some EmptyString ->
  matchesQuery params order = true ->
  let result := findAll (fst (save repo order)) params in
  (1 <= page_total result <= S (count repo))%nat
  /\ (natOr (q_offset params) 0 = 0%nat ->
      (count repo < natOr (q_limit params) 50)%nat ->
      order ∈ page_orders result).
Proof.
  intros Hreach Hfresh Hsym Hmatch. cbn zeta.
  assert (reachable (fst (save repo order))) as Hreach'
    by (eapply reachable_step; [exact Hreach | by apply step_save]).
  pose proof (reachable_Consistent _ Hreach') as C'.
  assert (Map_get (orders (fst (save repo order))) (orderId order) = Some order)
    as Hstored by (unfold save; cbn [fst orders]; apply Map_get_set_eq).
  pose proof (proj1 (matchesQuery_iff params order) Hmatch)
    as [(Hside & Hsymbol & Htype) _].
  destruct (findAll_matching (fst (save repo order)) params C' Hsym)
    as (matching & Hperm & _ & Hpage & Htotal & _).
  { intros [(side & Hq & Hnone)|[(symbol & Hq & Hnone)|(type & Hq & Hnone)]].
    - destruct (proj2 (byType_view _ C' side (orderId order))) as (ids & Hids & _);
        [exists order; split; [exact Hstored | by apply Hside]|].
      rewrite Hnone in Hids. discriminate Hids.
    - destruct (proj2 (bySymbol_view _ C' symbol (orderId order))) as (ids & Hids & _);
        [exists order; split; [exact Hstored | by apply Hsymbol]|].
      rewrite Hnone in Hids. discriminate Hids.
    - destruct (proj2 (byAssetType_view _ C' type (orderId order))) as (ids & Hids & _);
        [exists order; split; [exact Hstored | by apply Htype]|].
      rewrite Hnone in Hids. discriminate Hids. }
  assert (order ∈ matching) as Hin.
  { rewrite Hperm. apply list_elem_of_filter. split; [exact Hmatch|].
    by apply stored_order_iff. }
  assert (length matching <= S (count repo))%nat as Hlen.
  { rewrite (Permutation_length Hperm).
    etransitivity; [apply length_filter|].
    rewrite length_map. unfold save, count, Map_size. cbn [fst orders].
    rewrite (Map_set_fresh _ _ _ Hfresh), length_app. cbn. lia. }
  rewrite Hpage, Htotal. split.
  - split; [|exact Hlen]. destruct matching; [by apply elem_of_nil in Hin | cbn; lia].
  - intros -> Hlimit. rewrite drop_0, take_ge by lia. exact Hin.
Qed.
End NewestFirst.

(** A sample order created after the 150 of the sample store. *)
Lemma newest_order_heads_the_list_witness :
  head (page_orders (findAll (fst (save store150 (sampleOrder 150))) (everyOrder 10 0)))
  = Some (sampleOrder 150).
Proof.
  refine (proj1 (newest_order_heads_the_list store150 (sampleOrder 150) 10
                   store150_reachable _ _ _)).
  - vm_compute. reflexivity.
  - intros o Ho. apply list_elem_of_In in Ho.
    assert (forallb (fun o => (createdAt o <? createdAt (sampleOrder 150))%Z)
                    (storedOrders store150) = true) as Hall
      by (vm_compute; reflexivity).
    rewrite forallb_forall in Hall. apply Z.ltb_lt, Hall, Ho.
  - lia.
Defined.

(** The crypto buys of BTC, after one more sample order. *)
Lemma saved_order_answers_matching_queries_witness :
  (1 <= page_total (findAll (fst (save store150 (sampleOrder 150))) cryptoBuysOfBTC))%nat.
Proof.
  refine (proj1 (proj1 (saved_order_answers_matching_queries store150 (sampleOrder 150)
                          cryptoBuysOfBTC store150_reachable _ _ _))).
  - vm_compute. reflexivity.
  - discriminate.
  - vm_compute. reflexivity.
Defined.

(** ** The answers of POST /orders *)

Section PostOrders.
Context {N : Type} `{JsNumber N}.

(** The engine behind the schema: an accepted request is prepared. *)
Lemma accepted_is_prepared (body accepted : CreateOrderRequest N) :
  createOrderSchema body = Some accepted ->
  exists prepared, prepareOrderData accepted = Return prepared.
Proof.
  intros Haccepted.
  apply createOrderSchema_accepted in Haccepted
    as (_ & Eamount & _ & _ & _ & _ & _ & Hmatch).
  rewrite <- Eamount in Hmatch. unfold prepareOrderData.
  destruct (req_assets accepted) as [|first others]; [discriminate Hmatch|].
  cbn [amountMatchesMode] in Hmatch. injection Hmatch as Hmatch.
  destruct (pa_allocation first) as [p|]; cbn [isSome] in Hmatch.
  - destruct (req_amount accepted); [eauto | discriminate Hmatch].
  - destruct (pa_amount first); [|discriminate Hmatch].
    destruct (req_amount accepted); eauto.
Qed.

(** X22.  For a body whose symbols are ASCII text, POST /orders answers
    500 INTERNAL_ERROR exactly when the body names no asset: the schema's
    refinement reads the first asset of the empty list, and the TypeError
    is not a ZodError.  With at least one asset the answer is 201, 400 or
    422: a body the schema refuses is answered 400 VALIDATION_ERROR; a body
    it accepts reaches the engine, which either stores the order (201) or
    refuses the portfolio (422 INVALID_PORTFOLIO); the engine's own read of
    a missing first asset and its 'invalid configuration' error are out of
    reach behind the schema.  Only a 201 changes the store. *)
Theorem postOrders_answers (repo : OrderRepository N) (config : ConfigRepository)
    (marketTime : DateTime) (uuid : string) (now : Z)
    (body : CreateOrderRequest N) :
  Forall (fun a => isAscii (pa_symbol a) = true) (req_assets body) ->
  let '(repo', answer, created) := postOrders repo config marketTime uuid now body in
  (req_assets body = []
   /\ createOrderSchema_parse body = Throw TypeError
   /\ ans_status answer = 500%Z /\ ans_success answer = false
   /\ ans_code answer = Some "INTERNAL_ERROR"%string
   /\ created = None /\ repo' = repo)
  \/ (req_assets body <> []
      /\ ((ans_status answer = 201%Z /\ ans_success answer = true
           /\ ans_code answer = None
           /\ exists accepted order,
                createOrderSchema_parse body = Return (Some accepted)
                /\ created = Some order /\ findById repo' uuid = Some order)
          \/ (ans_status answer = 400%Z /\ ans_success answer = false
              /\ ans_code answer = Some "VALIDATION_ERROR"%string
              /\ createOrderSchema_parse body = Return None
              /\ created = None /\ repo' = repo)
          \/ (ans_status answer = 422%Z /\ ans_success answer = false
              /\ ans_code answer = Some "INVALID_PORTFOLIO"%string
              /\ created = None /\ repo' = repo
              /\ exists accepted prepared message details,
                   createOrderSchema_parse body = Return (Some accepted)
                   /\ prepareOrderData accepted = Return prepared
                   /\ validatePortfolio (po_normalizedAssets prepared)
                      = Throw (InvalidPortfolioError message details)
                   /\ message <> InvalidConfiguration))).
Proof.
  intros _. unfold postOrders.
  destruct (createOrderSchema_parse body) as [[accepted|]|e] eqn:Eschema.
  - assert (req_assets body <> []) as Hassets.
    { intros Hnone.
      assert (createOrderSchema_parse body = Throw TypeError) as Hthrows
        by (by apply createOrderSchema_parse_throws).
      rewrite Hthrows in Eschema. discriminate Eschema. }
    destruct (accepted_is_prepared body accepted) as [prepared Hprepared];
      [by apply createOrderSchema_Some|].
    unfold createOrder. rewrite Hprepared.
    destruct (validatePortfolio (po_normalizedAssets prepared)) as [[]|e] eqn:Evalid.
    + right. split; [exact Hassets|]. left. cbn. repeat split.
      eexists _, _. repeat split.
      unfold findById, save. cbn [fst orders]. apply Map_get_set_eq.
    + right. split; [exact Hassets|]. right. right.
      assert (exists message details,
                e = InvalidPortfolioError message details
                /\ message <> InvalidConfiguration) as (message & details & -> & Hm).
      { unfold validatePortfolio in Evalid.
        destruct (0 <? length _)%nat; [injection Evalid as <-; eauto|].
        destruct (_ >? _)%js; [injection Evalid as <-; eauto | discriminate]. }
      cbn. repeat split. eexists _, _, _, _. repeat split; eassumption.
  - right. split.
    + intros Hnone.
      assert (createOrderSchema_parse body = Throw TypeError) as Hthrows
        by (by apply createOrderSchema_parse_throws).
      rewrite Hthrows in Eschema. discriminate Eschema.
    + right. left. cbn. repeat split.
  - apply createOrderSchema_parse_throws in Eschema as [Hnone ->].
    left. cbn. repeat split. exact Hnone.
Qed.
End PostOrders.

(** A body without assets, at a time the market is open. *)
Lemma postOrders_answers_witness :
  ans_status
    (snd (fst (postOrders (N:=float) newRepository (newConfigRepository 0)
                 (mkDateTime 2025 1 23 10 0 0 0) "order-1" 1
                 (mkRequest BUY (Some 100%float) []))))
  = 500%Z.
Proof.
  pose proof (postOrders_answers (N:=float) newRepository (newConfigRepository 0)
                (mkDateTime 2025 1 23 10 0 0 0) "order-1" 1
                (mkRequest BUY (Some 100%float) []) ltac:(constructor)) as Hanswers.
  destruct (postOrders (N:=float) newRepository (newConfigRepository 0)
              (mkDateTime 2025 1 23 10 0 0 0) "order-1" 1
              (mkRequest BUY (Some 100%float) [])) as [[repo' answer] created].
  destruct Hanswers as [(_ & _ & Hstatus & _)|(Hassets & _)];
    [exact Hstatus | by destruct Hassets].
Defined.

Section SchemaOutput.
Context {N : Type} `{JsNumber N}.

Lemma parseAssets_normalises (assets parsed : list (PortfolioAsset N)) :
  parseAssets assets = Some parsed ->
  parsed = map normalisedSymbol assets
  /\ Forall (fun a => (1 <= String.length (pa_symbol a) <= 10)%nat) assets.
Proof.
  revert parsed. induction assets as [|a assets IH]; intros parsed; cbn [parseAssets].
  - intros [= <-]. split; [reflexivity | constructor].
  - destruct (portfolioAssetSchema a) as [a'|] eqn:Ea; [|discriminate].
    destruct (parseAssets assets) as [rest|]; [|discriminate].
    intros [= <-]. destruct (IH rest eq_refl) as [-> Hall].
    unfold portfolioAssetSchema in Ea.
    destruct ((1 <=? String.length (pa_symbol a))%nat
              && (String.length (pa_symbol a) <=? 10)%nat) eqn:Elen;
      [|discriminate Ea].
    destruct (_ && _ && _ && _ && _); [|discriminate Ea].
    injection Ea as <-. split; [reflexivity|].
    apply andb_true_iff in Elen as [H1 H2]. apply Nat.leb_le in H1, H2.
    constructor; [lia | exact Hall].
Qed.

(** X23.  What [createOrderSchema] hands to the engine, for a request whose
    symbols are ASCII text: the side and the total as they came, between 1
    and 200 assets, each with its symbol (1 to 10 characters as it came) put
    in upper case and trimmed and its other fields unchanged, and no two of
    the symbols, so rewritten, the same. *)
Theorem createOrderSchema_normalises_symbols (request accepted : CreateOrderRequest N) :
  Forall (fun a => isAscii (pa_symbol a) = true) (req_assets request) ->
  createOrderSchema request = Some accepted ->
  req_orderType accepted = req_orderType request
  /\ req_amount accepted = req_amount request
  /\ req_assets accepted = map normalisedSymbol (req_assets request)
  /\ (1 <= length (req_assets request) <= 200)%nat
  /\ Forall (fun a => (1 <= String.length (pa_symbol a) <= 10)%nat)
            (req_assets request)
  /\ NoDup (map (fun a => trim (toUpperCase (pa_symbol a))) (req_assets request)).
Proof.
  intros _ Haccepted.
  apply createOrderSchema_accepted in Haccepted
    as (Hparse & Eamount & Eside & Hlen & Hdup & _).
  apply parseAssets_normalises in Hparse as [Hparsed Hsymbols].
  split; [exact Eside|]. split; [exact Eamount|]. split; [exact Hparsed|].
  rewrite Hparsed in Hlen, Hdup. rewrite length_map in Hlen.
  split; [exact Hlen|]. split; [exact Hsymbols|].
  unfold noDuplicateSymbols in Hdup. apply bool_decide_eq_true in Hdup.
  by rewrite map_map in Hdup.
Qed.
End SchemaOutput.

(** A symbol in lower case between blanks is accepted as AAPL; two symbols
    that differ by case and blanks only are refused. *)
Lemma createOrderSchema_normalises_symbols_witness :
  (exists accepted,
     createOrderSchema (N:=float)
       (mkRequest BUY (Some 100%float) [allocationOf " aapl " 100])
     = Some accepted
     /\ map pa_symbol (req_assets accepted) = ["AAPL"%string])
  /\ createOrderSchema (N:=float)
       (mkRequest BUY (Some 100%float) [allocationOf "aapl" 50; allocationOf "AAPL " 50])
     = None.
Proof.
  split.
  - assert (Forall (fun a => isAscii (pa_symbol a) = true)
                   (req_assets (mkRequest (N:=float) BUY (Some 100%float)
                                  [allocationOf " aapl " 100]))) as Hascii
      by (repeat constructor).
    destruct (createOrderSchema (N:=float)
                (mkRequest BUY (Some 100%float) [allocationOf " aapl " 100]))
      as [accepted|] eqn:E; [|vm_compute in E; discriminate E].
    exists accepted. split; [reflexivity|].
    destruct (createOrderSchema_normalises_symbols _ _ Hascii E) as (_ & _ & -> & _).
    reflexivity.
  - assert (Forall (fun a => isAscii (pa_symbol a) = true)
                   (req_assets (mkRequest (N:=float) BUY (Some 100%float)
                                  [allocationOf "aapl" 50; allocationOf "AAPL " 50])))
      as Hascii by (repeat constructor).
    destruct (createOrderSchema (N:=float)
                (mkRequest BUY (Some 100%float)
                   [allocationOf "aapl" 50; allocationOf "AAPL " 50]))
      as [accepted|] eqn:E; [|reflexivity].
    destruct (createOrderSchema_normalises_symbols _ _ Hascii E)
      as (_ & _ & _ & _ & _ & Hnd).
    exfalso. apply (bool_decide_eq_true_2 (NoDup _)) in Hnd.
    vm_compute in Hnd. discriminate Hnd.
Defined.

Section DateRange.
Context {N : Type} `{JsNumber N}.

(** X24.  A query whose date range ends before it begins selects nothing:
    whatever the store holds and whatever the other filters, the page is
    empty, the total 0 and there is no more to come. *)
Theorem findAll_empty_date_range (repo : OrderRepository N)
    (params : OrderQueryParams) (from to : Z) :
  q_fromDate params = Some from -> q_toDate params = Some to -> (to < from)%Z ->
  page_orders (findAll repo params) = []
  /\ page_total (findAll repo params) = 0%nat
  /\ page_hasMore (findAll repo params) = false.
Proof.
  intros Hfrom Hto Hrange. unfold findAll.
  destruct (collectFilters repo params) as [filters|]; [|by cbn].
  rewrite Hfrom, Hto. cbn [isSome orb]. cbn zeta.
  set (candidates := if (0 <? length filters)%nat then intersectSets filters
                     else ordersByDate repo).
  assert (filterByDateRange repo candidates (Some from) (Some to) = []) as ->.
  { unfold filterByDateRange. apply filter_none. apply Forall_forall.
    intros id _. destruct (Map_get (orders repo) id) as [o|]; [|discriminate].
    unfold withinDateRange.
    destruct (Z.ltb_spec (createdAt o) from); [discriminate|].
    destruct (Z.ltb_spec to (createdAt o)); [discriminate | lia]. }
  cbn. rewrite drop_nil, take_nil. repeat split.
Qed.
End DateRange.

(** The 150 sample orders, asked for from instant 100 to instant 50. *)
Lemma findAll_empty_date_range_witness :
  page_total (findAll store150 (mkParams None None None (Some 100%Z) (Some 50%Z) None None))
  = 0%nat.
Proof.
  refine (proj1 (proj2 (findAll_empty_date_range store150 _ 100 50 _ _ _)));
    reflexivity.
Defined.

(** ** Allocations brought to 100 *)

Section NormalizeAllocations.
Local Open Scope Q_scope.

Ltac q_ops :=
  cbn [num_of_Z num_add num_sub num_mul num_div Math_abs Math_round
       num_ltb num_leb num_eqb num_is_nan num_finite Q_JsNumber] in *.

Lemma sumNumbers_sumQ (l : list Q) : sumNumbers l == sumQ l.
Proof.
  unfold sumNumbers.
  assert (forall s, fold_left num_add l s == s + sumQ l) as Hfold.
  { induction l as [|x l IH]; intros s; cbn [fold_left sumQ]; [ring|].
    rewrite IH. q_ops. ring. }
  rewrite Hfold. q_ops. ring.
Qed.

Lemma allocationsSumTo100_iff (l : list Q) :
  allocationsSumTo100 l = true <-> Qabs (sumQ l - 100) < 1 # 10000.
Proof.
  unfold allocationsSumTo100, lit_0_0001. q_ops. unfold Q_ltb.
  rewrite negb_true_iff, <- not_true_iff_false, Qle_bool_iff, sumNumbers_sumQ.
  change (inject_Z 100) with 100.
  assert (inject_Z 1 / inject_Z 10000 == 1 # 10000) as -> by reflexivity.
  split; [apply Qnot_le_lt | apply Qlt_not_le].
Qed.

Lemma Math_max_spec (first : Q) (rest : list Q) :
  (exists x, x ∈ first :: rest /\ x == Math_max first rest)
  /\ forall y, y ∈ first :: rest -> y <= Math_max first rest.
Proof.
  unfold Math_max. revert first. induction rest as [|z rest IH]; intros first;
    cbn [fold_left].
  - split; [exists first; split; [by left | reflexivity]|].
    intros y Hy. apply list_elem_of_singleton in Hy as ->. lra.
  - q_ops. unfold Q_ltb.
    destruct (Qle_bool z first) eqn:Ele; cbn [negb].
    + apply Qle_bool_iff in Ele. destruct (IH first) as [(x & Hx & Ex) Hub].
      split.
      * exists x. split; [|exact Ex].
        apply elem_of_cons in Hx as [->|Hx]; [by left | by right; right].
      * intros y [->|[->|Hy]%elem_of_cons]%elem_of_cons.
        -- apply Hub. by left.
        -- eapply Qle_trans; [exact Ele|]. apply Hub. by left.
        -- apply Hub. by right.
    + assert (first < z) as Hlt.
      { apply Qnot_le_lt. intros Hle. apply Qle_bool_iff in Hle. congruence. }
      destruct (IH z) as [(x & Hx & Ex) Hub]. split.
      * exists x. split; [by right | exact Ex].
      * intros y [->|Hy]%elem_of_cons; [|by apply Hub].
        eapply Qle_trans; [apply Qlt_le_weak, Hlt|]. apply Hub. by left.
Qed.

Lemma indexOf_spec (l : list Q) (m : Q) :
  (exists x, x ∈ l /\ x == m) ->
  exists i x, indexOf l m = Some i /\ l !! i = Some x /\ x == m
              /\ forall j y, (j < i)%nat -> l !! j = Some y -> ~ y == m.
Proof.
  induction l as [|z l IH]; intros (x & Hx & Ex); [by apply elem_of_nil in Hx|].
  cbn [indexOf]. q_ops. destruct (Qeq_bool z m) eqn:Ez.
  - apply Qeq_bool_iff in Ez. exists 0%nat, z. repeat split; [exact Ez|].
    intros j y Hj. lia.
  - apply Qeq_bool_neq in Ez.
    destruct IH as (i & x' & Hi & Hx' & Ex' & Hfirst).
    { exists x. split; [|exact Ex].
      apply elem_of_cons in Hx as [->|Hx]; [contradiction | exact Hx]. }
    exists (S i), x'. rewrite Hi. repeat split; [exact Hx' | exact Ex' |].
    intros [|j] y Hj Hy; cbn in Hy.
    + by injection Hy as <-.
    + apply (Hfirst j); [lia | exact Hy].
Qed.

Lemma sumQ_alter (f : Q -> Q) (l : list Q) (i : nat) (x : Q) :
  l !! i = Some x -> sumQ (alter f i l) == sumQ l - x + f x.
Proof.
  revert i. induction l as [|z l IH]; intros [|i] Hi; try discriminate Hi;
    cbn in Hi |- *.
  - injection Hi as ->. ring.
  - rewrite (IH i Hi). ring.
Qed.

(** X25.  In exact arithmetic [normalizeAllocations] keeps the number of
    allocations; it returns them as they are when they add up to within
    0.0001 of 100; otherwise it adds what is missing from 100 (or takes
    away what is over) to the first of the largest allocations, leaves the
    others alone, and the result adds up to exactly 100.  Either way the
    result passes [allocationsSumTo100], unless there was no allocation at
    all. *)
Theorem normalizeAllocations_sums_to_100 (allocations : list Q) :
  length (normalizeAllocations allocations) = length allocations
  /\ (allocationsSumTo100 allocations = true ->
      normalizeAllocations allocations = allocations)
  /\ (allocationsSumTo100 allocations = false -> allocations <> [] ->
      exists i largest,
        allocations !! i = Some largest
        /\ (forall y, y ∈ allocations -> y <= largest)
        /\ (forall j y, (j < i)%nat -> allocations !! j = Some y -> y < largest)
        /\ normalizeAllocations allocations
           = alter (fun x => x + (100 - sumNumbers allocations)) i allocations
        /\ sumQ (normalizeAllocations allocations) == 100)
  /\ (allocations <> [] ->
      allocationsSumTo100 (normalizeAllocations allocations) = true)
  /\ normalizeAllocations (N:=Q) [] = [].
Proof.
  assert (allocationsSumTo100 allocations = true ->
          normalizeAllocations allocations = allocations) as Hnear.
  { unfold allocationsSumTo100, normalizeAllocations. cbn zeta. by intros ->. }
  assert (allocationsSumTo100 allocations = false -> allocations <> [] ->
          exists i largest,
            allocations !! i = Some largest
            /\ (forall y, y ∈ allocations -> y <= largest)
            /\ (forall j y, (j < i)%nat -> allocations !! j = Some y -> y < largest)
            /\ normalizeAllocations allocations
               = alter (fun x => x + (100 - sumNumbers allocations)) i allocations
            /\ sumQ (normalizeAllocations allocations) == 100) as Hfar.
  { intros Hoff Hne. unfold normalizeAllocations. cbn zeta.
    unfold allocationsSumTo100 in Hoff. cbn zeta in Hoff. rewrite Hoff.
    destruct allocations as [|first rest]; [done|].
    assert (existsb num_is_nan (first :: rest) = false) as ->.
    { clear. induction (first :: rest) as [|x l IH]; [reflexivity | exact IH]. }
    destruct (Math_max_spec first rest) as [Hmem Hub].
    destruct (indexOf_spec (first :: rest) (Math_max first rest) Hmem)
      as (i & largest & -> & Hi & Elargest & Hfirst).
    exists i, largest. split; [exact Hi|]. split.
    { intros y Hy. rewrite Elargest. by apply Hub. }
    split.
    { intros j y Hj Hy.
      assert (y <= Math_max first rest) as Hle
        by (apply Hub; eapply list_elem_of_lookup_2, Hy).
      specialize (Hfirst j y Hj Hy).
      destruct (Qlt_le_dec y largest) as [?|Hge]; [assumption|].
      exfalso. apply Hfirst. rewrite Elargest in Hge. by apply Qle_antisym. }
    split; [reflexivity|].
    rewrite (sumQ_alter _ _ i largest Hi). q_ops. rewrite sumNumbers_sumQ.
    change (inject_Z 100) with 100. ring. }
  split; [|split; [exact Hnear|split; [exact Hfar|split]]].
  - unfold normalizeAllocations. cbn zeta.
    destruct (_ <? _)%js; [reflexivity|].
    destruct (match allocations with [] => None | _ => _ end);
      [apply length_alter | reflexivity].
  - intros Hne. destruct (allocationsSumTo100 allocations) eqn:E.
    + by rewrite (Hnear eq_refl).
    + destruct (Hfar eq_refl Hne) as (i & largest & _ & _ & _ & _ & Hsum).
      apply allocationsSumTo100_iff. rewrite Hsum.
      assert (100 - 100 == 0) as -> by ring. reflexivity.
  - reflexivity.
Qed.

(** Allocations 50, 30 and 10: the ten missing go to the 50. *)
Lemma normalizeAllocations_sums_to_100_witness :
  sumQ (normalizeAllocations [50; 30; 10]) == 100
  /\ normalizeAllocations [50; 30; 10] !! 2%nat = Some 10.
Proof.
  destruct (normalizeAllocations_sums_to_100 [50; 30; 10])
    as (_ & _ & Hfar & _).
  destruct Hfar as (i & largest & _ & _ & _ & _ & Hsum); [reflexivity | done |].
  split; [exact Hsum | reflexivity].
Defined.
End NormalizeAllocations.
